(** * Order synchronisation engine of ErpOrder.py: a shallow embedding

    The development follows [src/ErpOrder.py] (class [ErpIntegration]).
    Python dictionaries that the code reads with a fixed set of keys are
    records: a key read with [d['k']] is a field, a key read with
    [d.get('k')] is an optional field.  SQL statements are functions on
    tables (lists of rows); a column that the source guards with [ISNULL]
    is nullable ([option]).  Decimal and floating-point quantities are
    idealised to exact rationals ([Q]). *)

From Stdlib Require Import ZArith QArith Qround Qabs List String Ascii Bool Lia Lqa.
From Stdlib Require Import DecimalString OrderedTypeEx.
Import ListNotations.
Open Scope string_scope.

(* ================================================================== *)
(** * Python values *)
(* ================================================================== *)

Module Py.

(** JSON numbers as Python sees them: [int] or [float]. *)
Inductive pynum : Type :=
| PyInt (z : Z)
| PyFloat (q : Q).

(** JSON scalars. *)
Inductive pyval : Type :=
| PyNone
| PyBool (b : bool)
| PyNum (n : pynum)
| PyStr (s : string).

Definition to_Q (n : pynum) : Q :=
  match n with
  | PyInt z => inject_Z z
  | PyFloat q => q
  end.

(** [a * b]: an [int] only when both operands are. *)
Definition mul (a b : pynum) : pynum :=
  match a, b with
  | PyInt x, PyInt y => PyInt (x * y)
  | _, _ => PyFloat (to_Q a * to_Q b)
  end.

Definition sub (a b : pynum) : pynum :=
  match a, b with
  | PyInt x, PyInt y => PyInt (x - y)
  | _, _ => PyFloat (to_Q a - to_Q b)
  end.

(** [n > 0] *)
Definition gt0 (n : pynum) : bool :=
  match n with
  | PyInt z => (0 <? z)%Z
  | PyFloat q => negb (Qle_bool q 0)
  end.

(** [a == b] on numbers compares values, whatever the representation. *)
Definition num_eqb (a b : pynum) : bool :=
  match a, b with
  | PyInt x, PyInt y => (x =? y)%Z
  | _, _ => Qeq_bool (to_Q a) (to_Q b)
  end.

Definition bool_num (b : bool) : pynum := PyInt (if b then 1 else 0).

(** [a == b]; [bool] is a subtype of [int] in Python, so [True == 1]. *)
Definition eqb (a b : pyval) : bool :=
  match a, b with
  | PyNone, PyNone => true
  | PyStr s, PyStr t => String.eqb s t
  | PyBool x, PyBool y => Bool.eqb x y
  | PyBool x, PyNum n => num_eqb (bool_num x) n
  | PyNum n, PyBool y => num_eqb n (bool_num y)
  | PyNum n, PyNum m => num_eqb n m
  | _, _ => false
  end.

(** Truth value of a scalar, as tested by [if not x]. *)
Definition truthy (v : pyval) : bool :=
  match v with
  | PyNone => false
  | PyBool b => b
  | PyNum (PyInt z) => negb (z =? 0)%Z
  | PyNum (PyFloat q) => negb (Qeq_bool q 0)
  | PyStr s => negb (String.eqb s "")
  end.

(** [d.get('k')] followed by a truth test: an absent key gives [None]. *)
Definition get_truthy (v : option pyval) : bool :=
  match v with
  | None => false
  | Some x => truthy x
  end.

(** [d.get('k') == c] *)
Definition get_eqb (v : option pyval) (c : pyval) : bool :=
  match v with
  | None => eqb PyNone c
  | Some x => eqb x c
  end.

Definition str_int (z : Z) : string := NilZero.string_of_int (Z.to_int z).

Section Format.
(** [repr] of a float is left to the environment. *)
Variable float_repr : Q -> string.

(** What an f-string writes for [{n}]. *)
Definition str (n : pynum) : string :=
  match n with
  | PyInt z => str_int z
  | PyFloat q => float_repr q
  end.
End Format.

(** [sep.join(l)] *)
Fixpoint join (sep : string) (l : list string) : string :=
  match l with
  | [] => ""
  | [x] => x
  | x :: rest => x ++ sep ++ join sep rest
  end.

(** [s[3:]] *)
Definition drop3 (s : string) : string :=
  substring 3 (String.length s - 3) s.

(** Banker's rounding to two places, as [round(x, 2)] does on a decimal. *)
Definition round2 (x : Q) : Q :=
  let y := x * 100 in
  let f := Qfloor y in
  let d := y - inject_Z f in
  let n := match Qcompare d (1 # 2) with
           | Lt => f
           | Gt => (f + 1)%Z
           | Eq => if Z.even f then f else (f + 1)%Z
           end in
  inject_Z n / 100.

End Py.

(* ================================================================== *)
(** * SQL scalar expressions *)
(* ================================================================== *)

Module Sql.

(** [ISNULL(x, d)] *)
Definition isnull {A : Type} (x : option A) (d : A) : A :=
  match x with
  | Some v => v
  | None => d
  end.

(** Arithmetic propagates NULL. *)
Definition lift2 (f : Q -> Q -> Q) (a b : option Q) : option Q :=
  match a, b with
  | Some x, Some y => Some (f x y)
  | _, _ => None
  end.

Definition add := lift2 Qplus.
Definition minus := lift2 Qminus.

(** A comparison with NULL is unknown, and a WHERE clause keeps a row only
    when its condition is true. *)
Definition eq_Z (a : option Z) (c : Z) : bool :=
  match a with
  | Some x => (x =? c)%Z
  | None => false
  end.

(** [x > 0] on a value already known not to be NULL. *)
Definition gt0 (x : Q) : bool := negb (Qle_bool x 0).

(** [CASE WHEN ISNULL(x, 0) <= 0 THEN 0 ELSE x END] *)
Definition clamp0 (x : option Q) : option Q :=
  if Qle_bool (isnull x 0) 0 then Some 0 else x.

(** [RIGHT(s, LEN(s) - 3)] *)
Definition right3 (s : string) : string :=
  substring 3 (String.length s - 3) s.

(** [ROUND(x, 2)]: half away from zero. *)
Definition round2 (x : Q) : Q :=
  let y := Qabs x * 100 + (1 # 2) in
  let n := Qfloor y in
  if Qle_bool 0 x then inject_Z n / 100 else - (inject_Z n / 100).

End Sql.

(* ================================================================== *)
(** * Upstream data: orders as received from the API *)
(* ================================================================== *)

(** An entry of [order_data['split_rules']]; both keys are read with [.get]. *)
Record split_rule : Type := {
  rule_no : option Py.pyval;
  value : option Py.pyval
}.

Record promotion : Type := {
  promotion_type : Py.pyval
}.

(** [item['price_records']] *)
Record price_records_t : Type := {
  sale_price : Py.pynum;
  weight_whole_price : Py.pynum;
  single_all_discount_fee : Py.pynum
}.

(** An entry of [order_data['order_goods']].  The two [selected_*] keys are
    read only on the branch that has a stock hint, so they may be absent. *)
Record order_item : Type := {
  erp_stock_id : option Py.pyval;
  erp_goods_id : string;
  erp_sku_sn : string;
  selected_batch_code : option string;
  selected_batch_times : option Z;
  quantity : Py.pynum;
  price_records : price_records_t;
  is_gift : Py.pyval;
  promotions : option (list promotion)
}.

Record order : Type := {
  id : Py.pyval;
  sub_order_sn : string;
  erp_customer_id : option Py.pyval;
  erp_customer_no : string;
  created_at : string;
  split_rules : option (list split_rule);
  order_discount_total : Py.pynum;
  pay_method : string;
  source : string;
  message : option string;
  goods_total_fee : Py.pynum;
  sub_order_total_fee : Py.pynum;
  order_goods : list order_item
}.

(** [self.config]: the entries the engine reads. *)
Record config_t : Type := {
  system_user_id : Z;
  default_department : Z;
  last_sync_time : option string
}.

(* ================================================================== *)
(** * The relational schema *)
(* ================================================================== *)

(** A [datetime] column value. *)
Record datetime : Type := {
  year : nat; month : nat; day : nat;
  hour : nat; minute : nat; second : nat
}.

(** The row [get_customer_info] returns: [Info_客商] with its LEFT JOINs
    already applied (address, classification, territory staff, user
    profile); the joined columns may be NULL. *)
Record customer : Type := {
  c_id : Z;                    (* a._id *)
  c_no : string;               (* a.编号 *)
  c_default_price : Z;         (* a.默认销价 *)
  c_ticket_type : Z;           (* a.换票类型 *)
  c_transport : Z;             (* a.运输方式 *)
  c_booking : Z;               (* a.记账方式 *)
  c_address_id : option Z;     (* c._id AS address_id *)
  c_salesman : option Z;       (* e.业务员ID *)
  c_biller : option Z;         (* e.开票员ID *)
  c_user_id : option Z         (* g._userId *)
}.

(** [_SheetRoots]; [stateFlowId] is written as [''] first ([None] here), and
    a value read back from the server may be absent ([None]) as well. *)
Record sheet_root : Type := {
  sr_id : Z;
  sr_typeId : Z;
  sr_no : string;
  sr_date : string;
  sr_operator : option Z;
  sr_status : Z;
  sr_stateFlowId : option Z;
  sr_syncState : Z;
  sr_caption : string
}.

(** [_StatusFlow] *)
Record status_flow : Type := {
  sf_id : Z;
  sf_sheetTypeId : Z;
  sf_sheetId : option Z;
  sf_command : string;
  sf_status : Z;
  sf_syncState : Z;
  sf_date : string;
  sf_operator : Z
}.

(** [Sheet_销售订单], the order header. *)
Record sheet_order : Type := {
  so_id : option Z;            (* _id *)
  so_no : string;              (* _no *)
  so_date : string;            (* _date *)
  so_customer : Z;             (* 客商 *)
  so_settle_customer : Z;      (* 结算客商 *)
  so_ref_customer : Z;         (* 参考客商 *)
  so_salesman : option Z;      (* 销售员 *)
  so_operator : option Z;      (* 订单操作员 *)
  so_biller : option Z;        (* 开票员 *)
  so_department : Z;           (* 职员部门 *)
  so_bookkeeper : Z;           (* 记账员 *)
  so_booking : Z;              (* 记账方式 *)
  so_ticket_type : Z;          (* 换票类型 *)
  so_transport : Z;            (* 运输方式 *)
  so_member_level : Z;         (* 会员级别 *)
  so_default_price : Z;        (* 默认销价 *)
  so_remark : string;          (* 备注 *)
  so_customer_note : string;   (* 客户备注 *)
  so_guid : string;            (* guid *)
  so_company : Z;              (* 公司机构 *)
  so_logistics : Z;            (* 物流中心 *)
  so_address : option Z;       (* 收货地址 *)
  so_total : Q;                (* 总金额 *)
  so_out_total : Q;            (* 出库金额 *)
  so_refund_total : Q          (* 总退补金额 *)
}.

(** [Sheet_销售订单_明细], one row per written order line. *)
Record order_detail : Type := {
  od_pid : option Z;           (* _pid *)
  od_rid : nat;                (* _rid *)
  od_orig_goods : string;      (* 原商品 *)
  od_goods : string;           (* 商品 *)
  od_batch : Z;                (* 批次商品 *)
  od_pack : Q;                 (* 包装 *)
  od_qty : Q;                  (* 数量 *)
  od_pieces : Q;               (* 件数 *)
  od_price : Q;                (* 单价 *)
  od_default_price : Q;        (* 默认销价 *)
  od_tax : Q;                  (* 税率 *)
  od_out_tax : Q;              (* 销项税率 *)
  od_amount : Q;               (* 金额 *)
  od_profit : Q;               (* 利润 *)
  od_profit_rate : Q;          (* 利润率 *)
  od_gift : Py.pyval;          (* 赠品 *)
  od_company : Z;              (* 公司机构 *)
  od_logistics : Z;            (* 物流中心 *)
  od_price_before : Q;         (* 折前价格 *)
  od_price_after : Q;          (* 折后价格 *)
  od_remark : string;          (* 商品备注 *)
  od_refund_price : Q;         (* 退补价 *)
  od_refund_amount : Q;        (* 退补金额 *)
  od_refund_diff : Q;          (* 退补差额 *)
  od_assess_price : Q;         (* 考核价 *)
  od_assess_amount : Q         (* 考核金额 *)
}.

(** [Specific_批次商品], alias [a] in the allocator's query. *)
Record batch_goods : Type := {
  bg_oid : string;             (* _oid, the product *)
  bg_id : Z;                   (* _id, the batch identifier *)
  bg_print_no : string;        (* 打印批号 *)
  bg_expiry : option datetime; (* 效期 *)
  bg_produced : option datetime (* 生产日期 *)
}.

(** [Book_商品开票库存账_WMS_sum], the inventory ledger (alias [b]). *)
Record ledger_row : Type := {
  lg_goods : string;           (* 商品 *)
  lg_batch : Z;                (* 批次商品 *)
  lg_batch_no : string;        (* 批号 *)
  lg_kind : option Z;          (* 类型 *)
  lg_company : option Z;       (* 公司机构 *)
  lg_pack : Q;                 (* 包装 *)
  lg_qty : Q;                  (* 数量, on hand *)
  lg_picking : option Q;       (* 在提数量, reserved in transit *)
  lg_concurrent : option Q;    (* 并发数量, the reservation counter *)
  lg_cost_amount : Q           (* 进价金额 *)
}.

(** [Assign_批次ABC价账] (alias [c]); the query names it without a prefix. *)
Record abc_row : Type := {
  abc_goods : string;
  abc_batch : Z;
  abc_company : option Z;
  abc_price_y : option Q       (* 考核价Y *)
}.

(** [info_商品] *)
Record goods_info : Type := {
  gi_id : string;
  gi_tax : Q;                  (* 税率 *)
  gi_out_tax : Q               (* 销项税率 *)
}.

(** [T_YIIDELIVERY_YQYK174], the bookkeeping table; [last_date] is the
    server clock and is not represented. *)
Record mid_order : Type := {
  mo_order_number : string;
  mo_erp_customer_id : Py.pyval;
  mo_sync_status : Z
}.

(** The tables reached through one prefix. *)
Record dbase : Type := {
  customers : list customer;
  sheet_roots : list sheet_root;
  status_flows : list status_flow;
  sheet_orders : list sheet_order;
  order_details : list order_detail;
  batch_goods_tbl : list batch_goods;
  ledger : list ledger_row;
  goods_infos : list goods_info;
  mid_orders : list mid_order
}.

(** Everything on the server: the two prefixed databases and the table the
    allocator reads without a prefix. *)
Record server : Type := {
  herbal_db : dbase;
  standard_db : dbase;
  abc_tbl : list abc_row
}.

Definition herbal_prefix : string := "Biz_凯归众民中药SCM.dbo.".
Definition standard_prefix : string := "Biz_凯归众民SCM.dbo.".

(** The tables a statement written with prefix [database] works on. *)
Definition db_of (database : string) (s : server) : dbase :=
  if String.eqb database herbal_prefix then herbal_db s else standard_db s.

Definition set_db (database : string) (d : dbase) (s : server) : server :=
  if String.eqb database herbal_prefix
  then {| herbal_db := d; standard_db := standard_db s; abc_tbl := abc_tbl s |}
  else {| herbal_db := herbal_db s; standard_db := d; abc_tbl := abc_tbl s |}.

Definition with_sheet_roots (d : dbase) (t : list sheet_root) : dbase :=
  {| customers := customers d; sheet_roots := t;
     status_flows := status_flows d; sheet_orders := sheet_orders d;
     order_details := order_details d; batch_goods_tbl := batch_goods_tbl d;
     ledger := ledger d; goods_infos := goods_infos d;
     mid_orders := mid_orders d |}.

Definition with_status_flows (d : dbase) (t : list status_flow) : dbase :=
  {| customers := customers d; sheet_roots := sheet_roots d;
     status_flows := t; sheet_orders := sheet_orders d;
     order_details := order_details d; batch_goods_tbl := batch_goods_tbl d;
     ledger := ledger d; goods_infos := goods_infos d;
     mid_orders := mid_orders d |}.

Definition with_sheet_orders (d : dbase) (t : list sheet_order) : dbase :=
  {| customers := customers d; sheet_roots := sheet_roots d;
     status_flows := status_flows d; sheet_orders := t;
     order_details := order_details d; batch_goods_tbl := batch_goods_tbl d;
     ledger := ledger d; goods_infos := goods_infos d;
     mid_orders := mid_orders d |}.

Definition with_order_details (d : dbase) (t : list order_detail) : dbase :=
  {| customers := customers d; sheet_roots := sheet_roots d;
     status_flows := status_flows d; sheet_orders := sheet_orders d;
     order_details := t; batch_goods_tbl := batch_goods_tbl d;
     ledger := ledger d; goods_infos := goods_infos d;
     mid_orders := mid_orders d |}.

Definition with_ledger (d : dbase) (t : list ledger_row) : dbase :=
  {| customers := customers d; sheet_roots := sheet_roots d;
     status_flows := status_flows d; sheet_orders := sheet_orders d;
     order_details := order_details d; batch_goods_tbl := batch_goods_tbl d;
     ledger := t; goods_infos := goods_infos d;
     mid_orders := mid_orders d |}.

Definition with_mid_orders (d : dbase) (t : list mid_order) : dbase :=
  {| customers := customers d; sheet_roots := sheet_roots d;
     status_flows := status_flows d; sheet_orders := sheet_orders d;
     order_details := order_details d; batch_goods_tbl := batch_goods_tbl d;
     ledger := ledger d; goods_infos := goods_infos d;
     mid_orders := t |}.

(* ================================================================== *)
(** * Ordering of rows: the comparisons behind ORDER BY *)
(* ================================================================== *)

Module Ord.

(** What ORDER BY needs of a three-way comparison. *)
Class Laws {A : Type} (cmp : A -> A -> comparison) : Prop := {
  flip : forall x y, cmp x y = CompOpp (cmp y x);
  eq_left : forall x y z, cmp x y = Eq -> cmp x z = cmp y z;
  lt_trans : forall x y z, cmp x y = Lt -> cmp y z = Lt -> cmp x z = Lt
}.

(** NULL sorts before every value in ascending order. *)
Definition opt {A : Type} (cmp : A -> A -> comparison)
    (x y : option A) : comparison :=
  match x, y with
  | None, None => Eq
  | None, Some _ => Lt
  | Some _, None => Gt
  | Some a, Some b => cmp a b
  end.

(** Two sort columns: the second decides only among equals of the first. *)
Definition lex {A B : Type} (ca : A -> A -> comparison)
    (cb : B -> B -> comparison) (x y : A * B) : comparison :=
  match ca (fst x) (fst y) with
  | Eq => cb (snd x) (snd y)
  | c => c
  end.

Definition leb {A : Type} (cmp : A -> A -> comparison) (x y : A) : bool :=
  match cmp x y with
  | Gt => false
  | _ => true
  end.

Section Sorting.
Context {A K : Type} (key : A -> K) (cmp : K -> K -> comparison).

(** Insertion keeps rows with equal keys in their original order. *)
Fixpoint insert (x : A) (l : list A) : list A :=
  match l with
  | [] => [x]
  | y :: rest =>
      if leb cmp (key x) (key y) then x :: l else y :: insert x rest
  end.

Definition order_by (l : list A) : list A := fold_right insert [] l.

(** [SELECT TOP 1 ... ORDER BY key] *)
Definition top1 (l : list A) : option A := hd_error (order_by l).

(** The head of the list is below every row of it. *)
Definition head_least (l : list A) : Prop :=
  match l with
  | [] => True
  | h :: _ => forall y, In y l -> leb cmp (key h) (key y) = true
  end.
End Sorting.

Definition comparison_eqb (c1 c2 : comparison) : bool :=
  match c1, c2 with
  | Eq, Eq | Lt, Lt | Gt, Gt => true
  | _, _ => false
  end.

End Ord.

(* ================================================================== *)
(** * Queries of the engine, as functions on tables *)
(* ================================================================== *)

Module Query.

(** [CONVERT(VARCHAR(20), d, 120)]: the ODBC canonical form
    [yyyy-mm-dd hh:mi:ss], every field zero-padded to its width. *)
Definition digit (n : nat) : ascii := ascii_of_nat (48 + n mod 10).

Definition pad2 (n : nat) : string :=
  String (digit (n / 10)) (String (digit n) EmptyString).

Definition pad4 (n : nat) : string := pad2 (n / 100) ++ pad2 (n mod 100).

Definition convert120 (d : datetime) : string :=
  pad4 (year d) ++ "-" ++ pad2 (month d) ++ "-" ++ pad2 (day d) ++ " "
    ++ pad2 (hour d) ++ ":" ++ pad2 (minute d) ++ ":" ++ pad2 (second d).

(** [a LEFT JOIN b ON on]: every left row survives, with NULLs on the
    right when nothing matches. *)
Definition left_join {A B : Type} (on : A -> B -> bool)
    (l : list A) (r : list B) : list (A * option B) :=
  flat_map (fun a =>
    match filter (on a) r with
    | [] => [(a, None)]
    | m => map (fun b => (a, Some b)) m
    end) l.

(** ** get_customer_info *)

(** [SELECT TOP 1 ... WHERE a.编号 = ?] *)
Definition select_customer (no : string) (d : dbase) : list customer :=
  firstn 1 (filter (fun c => String.eqb (c_no c) no) (customers d)).

(** ** order_exists *)

(** [SELECT 1 FROM Sheet_销售订单 WHERE _no = ?] *)
Definition select_order (no : string) (d : dbase) : list Z :=
  map (fun _ => 1%Z)
      (filter (fun o => String.eqb (so_no o) no) (sheet_orders d)).

(** ** get_item_batch *)

(** A row of
    [Specific_批次商品 a LEFT JOIN ledger b ... LEFT JOIN Assign c ...]. *)
Definition batch_join : Type := batch_goods * option ledger_row * option abc_row.

Definition ja (j : batch_join) : batch_goods := fst (fst j).
Definition jb (j : batch_join) : option ledger_row := snd (fst j).
Definition jc (j : batch_join) : option abc_row := snd j.

(** [ON a._oid = b.商品 AND a._id = b.批次商品 AND b.类型 = 0] *)
Definition on_ledger (a : batch_goods) (b : ledger_row) : bool :=
  String.eqb (bg_oid a) (lg_goods b) && (bg_id a =? lg_batch b)%Z
    && Sql.eq_Z (lg_kind b) 0.

(** [ON b.商品 = c.商品 AND b.批次商品 = c.批次商品 AND b.公司机构 = c.公司机构] *)
Definition on_abc (ab : batch_goods * option ledger_row) (c : abc_row) : bool :=
  match snd ab with
  | None => false
  | Some b =>
      String.eqb (lg_goods b) (abc_goods c) && (lg_batch b =? abc_batch c)%Z
        && match lg_company b, abc_company c with
           | Some x, Some y => (x =? y)%Z
           | _, _ => false
           end
  end.

Definition batch_from (s : server) (database : string) : list batch_join :=
  left_join on_abc
    (left_join on_ledger (batch_goods_tbl (db_of database s))
       (ledger (db_of database s)))
    (abc_tbl s).

Definition b_company (j : batch_join) : option Z :=
  match jb j with Some b => lg_company b | None => None end.
Definition b_kind (j : batch_join) : option Z :=
  match jb j with Some b => lg_kind b | None => None end.
Definition b_qty (j : batch_join) : option Q := option_map lg_qty (jb j).
Definition b_pack (j : batch_join) : option Q := option_map lg_pack (jb j).
Definition b_picking (j : batch_join) : option Q :=
  match jb j with Some b => lg_picking b | None => None end.
Definition b_concurrent (j : batch_join) : option Q :=
  match jb j with Some b => lg_concurrent b | None => None end.
Definition c_price_y (j : batch_join) : option Q :=
  match jc j with Some c => abc_price_y c | None => None end.

(** [ISNULL(b.数量 - (CASE WHEN ISNULL(b.在提数量, 0) <= 0 THEN 0 ELSE
    b.在提数量 END) - (CASE WHEN ISNULL(b.并发数量, 0) <= 0 THEN 0 ELSE
    b.并发数量 END), 0)] *)
Definition unreserved (j : batch_join) : Q :=
  Sql.isnull
    (Sql.minus (Sql.minus (b_qty j) (Sql.clamp0 (b_picking j)))
       (Sql.clamp0 (b_concurrent j)))
    0.

(** The conditions both branches of [get_item_batch] share. *)
Definition where_product (goods_id : string) (j : batch_join) : bool :=
  negb (String.eqb (bg_oid (ja j)) "-1")
    && (Sql.isnull (b_company j) 1 =? 1)%Z
    && (Sql.isnull (b_kind j) 0 =? 0)%Z
    && String.eqb (bg_oid (ja j)) (Sql.right3 goods_id).

(** [AND a.打印批号 = ? AND a._id = ?], present only with a stock hint. *)
Definition where_hint (hint : option (string * Z)) (j : batch_join) : bool :=
  match hint with
  | None => true
  | Some (code, times) =>
      String.eqb (bg_print_no (ja j)) code && (bg_id (ja j) =? times)%Z
  end.

Definition where_batch (goods_id : string) (hint : option (string * Z))
    (j : batch_join) : bool :=
  where_product goods_id j && where_hint hint j
    && Sql.gt0 (unreserved j).

Definition sort_key : Type := option string * (option string * option Q).

(** [ORDER BY CONVERT(VARCHAR(20), a.效期, 120),
    CONVERT(VARCHAR(20), a.生产日期, 120), b.包装] *)
Definition batch_key (j : batch_join) : sort_key :=
  (option_map convert120 (bg_expiry (ja j)),
   (option_map convert120 (bg_produced (ja j)), b_pack j)).

Definition key_compare : sort_key -> sort_key -> comparison :=
  Ord.lex (Ord.opt String.compare)
    (Ord.lex (Ord.opt String.compare) (Ord.opt Qcompare)).

(** The dictionary [get_item_batch] hands back. *)
Record batch : Type := {
  batch_code : string;       (* a.打印批号 *)
  batch_times : Z;           (* a._id *)
  bz : option Q;             (* b.包装 *)
  concurrent : option Q;     (* b.并发数量 *)
  price_y : Q;               (* ISNULL(c.考核价Y, 0) *)
  qty : Q
}.

Definition batch_columns (j : batch_join) : batch :=
  {| batch_code := bg_print_no (ja j);
     batch_times := bg_id (ja j);
     bz := b_pack j;
     concurrent := b_concurrent j;
     price_y := Sql.isnull (c_price_y j) 0;
     qty := unreserved j |}.

(** The joined row the allocator's query ranks first, if any. *)
Definition select_batch_row (goods_id : string) (hint : option (string * Z))
    (s : server) (database : string) : option batch_join :=
  Ord.top1 batch_key key_compare
    (filter (where_batch goods_id hint) (batch_from s database)).

Definition select_batch (goods_id : string) (hint : option (string * Z))
    (s : server) (database : string) : list batch :=
  match select_batch_row goods_id hint s database with
  | Some j => [batch_columns j]
  | None => []
  end.

(** ** get_item_tax_info *)

Record tax_info : Type := { tax : Q; out_tax : Q }.

Definition select_tax (goods_id : string) (d : dbase) : list tax_info :=
  map (fun g => {| tax := gi_tax g; out_tax := gi_out_tax g |})
      (filter (fun g => String.eqb (gi_id g) (Sql.right3 goods_id))
              (goods_infos d)).

(** ** get_item_profit *)

Record profit_info : Type := { profit : Q; profit_rate : Q }.

(** [WHERE 商品 = RIGHT(?, LEN(?) - 3) AND 批号 = ? AND a.批次商品 = ?] *)
Definition where_profit (goods_id code : string) (times : Z)
    (r : ledger_row) : bool :=
  String.eqb (lg_goods r) (Sql.right3 goods_id)
    && String.eqb (lg_batch_no r) code && (lg_batch r =? times)%Z.

(** The two SELECT expressions on one ledger row; the server raises a
    divide-by-zero error when either divisor is zero. *)
Definition profit_columns (price quantity : Q) (r : ledger_row)
    : option profit_info :=
  if Qeq_bool (lg_qty r) 0 || Qeq_bool (price * quantity) 0 then None
  else
    let margin := price * quantity - (lg_cost_amount r / lg_qty r) * quantity in
    Some {| profit := Sql.round2 margin;
            profit_rate := Sql.round2 (margin / (price * quantity)) * 100 |}.

(** All selected rows, or [None] when evaluating one of them fails. *)
Fixpoint select_profit_rows (price quantity : Q) (rows : list ledger_row)
    : option (list profit_info) :=
  match rows with
  | [] => Some []
  | r :: rest =>
      match profit_columns price quantity r with
      | None => None
      | Some p =>
          match select_profit_rows price quantity rest with
          | None => None
          | Some ps => Some (p :: ps)
          end
      end
  end.

Definition select_profit (price quantity : Q) (goods_id code : string)
    (times : Z) (d : dbase) : option (list profit_info) :=
  select_profit_rows price quantity
    (filter (where_profit goods_id code times) (ledger d)).

(** ** update_stock_concurrency *)

(** [WHERE 公司机构 = 1 AND 商品 = RIGHT(?, LEN(?) - 3) AND 批次商品 = ?
    AND 包装 = ? AND ISNULL(公司机构, 1) = 1 AND ISNULL(类型, 0) = 0];
    a NULL parameter for [包装] matches nothing. *)
Definition where_stock (goods_id : string) (times : Z) (pack : option Q)
    (r : ledger_row) : bool :=
  Sql.eq_Z (lg_company r) 1
    && String.eqb (lg_goods r) (Sql.right3 goods_id)
    && (lg_batch r =? times)%Z
    && match pack with
       | Some p => Qeq_bool (lg_pack r) p
       | None => false
       end
    && (Sql.isnull (lg_company r) 1 =? 1)%Z
    && (Sql.isnull (lg_kind r) 0 =? 0)%Z.

(** [SET 并发数量 = 并发数量 + ?] *)
Definition set_concurrent (quantity : Q) (r : ledger_row) : ledger_row :=
  {| lg_goods := lg_goods r; lg_batch := lg_batch r;
     lg_batch_no := lg_batch_no r; lg_kind := lg_kind r;
     lg_company := lg_company r; lg_pack := lg_pack r;
     lg_qty := lg_qty r; lg_picking := lg_picking r;
     lg_concurrent := Sql.add (lg_concurrent r) (Some quantity);
     lg_cost_amount := lg_cost_amount r |}.

Definition update_stock (quantity : Q) (goods_id : string) (times : Z)
    (pack : option Q) (rows : list ledger_row) : list ledger_row :=
  map (fun r => if where_stock goods_id times pack r
                then set_concurrent quantity r else r) rows.

(** ** update_sheet_root_status *)

(** [UPDATE _SheetRoots SET stateFlowId = ? WHERE _id = ?] *)
Definition update_root (flow_id : option Z) (root_id : option Z)
    (rows : list sheet_root) : list sheet_root :=
  map (fun r =>
    if Sql.eq_Z root_id (sr_id r)
    then {| sr_id := sr_id r; sr_typeId := sr_typeId r; sr_no := sr_no r;
            sr_date := sr_date r; sr_operator := sr_operator r;
            sr_status := sr_status r; sr_stateFlowId := flow_id;
            sr_syncState := sr_syncState r; sr_caption := sr_caption r |}
    else r) rows.

(** ** order_details_exist *)

(** [SELECT COUNT(1) AS cnt FROM Sheet_销售订单_明细 WHERE _pid = ?] *)
Definition where_pid (pid : option Z) (r : order_detail) : bool :=
  match od_pid r, pid with
  | Some x, Some y => (x =? y)%Z
  | _, _ => false
  end.

Definition count_details (pid : option Z) (d : dbase) : nat :=
  List.length (filter (where_pid pid) (order_details d)).

(** The identity value an INSERT generates: one past the largest so far. *)
Definition next_id (ids : list Z) : Z := fold_right Z.max 0%Z ids + 1.

End Query.

(* ================================================================== *)
(** * Effects: the connection, the trace and the exception monad *)
(* ================================================================== *)

(** The SQL statements the engine sends, with the parameters that tell
    two executions apart. *)
Inductive stmt : Type :=
| SelectCustomer (customer_no : string)
| SelectOrder (no : string)
| InsertSheetRoot (no : string)
| InsertStatusFlow (sheet_id : option Z)
| UpdateSheetRoot (root_id flow_id : option Z)
| InsertSheetOrder (no : string)
| SelectBatch (goods_id : string)
| SelectTax (goods_id : string)
| SelectProfit (goods_id : string)
| InsertDetail (pid : option Z) (rid : nat)
| UpdateStock (goods_id : string) (times : Z)
| InsertMidOrder (no : string)
| CountDetails (pid : option Z).

Inductive exn : Type :=
| KeyError (key : string)
| ValueError (msg : string)
| RuntimeError (msg : string)
| TypeError
| ZeroDivisionError
| DatabaseError (s : stmt)      (* the statement is refused *)
| DataError (s : stmt).         (* an expression of the statement fails *)

Inductive level : Type := Info | Warning | Error.

Inductive http_method : Type := GET | POST.

(** What goes with a request: the query of the pull, the body of the
    status report. *)
Inductive payload : Type :=
| OrdersSince (last_sync_time : string)
| SyncStatus (order_id : Py.pyval) (customer_id : Py.pyval)
    (handle_status : Z).

(** The JSON object an endpoint answers with. *)
Record response : Type := {
  r_status : option Py.pyval;
  r_data : option (list order);
  r_message : option string
}.

(** [requests] either raises a [RequestException] (a failed connection, a
    timeout, an error status) or yields the decoded body, a JSON object. *)
Inductive http_outcome : Type :=
| RequestException (msg : string)
| Json (r : response).

(** Everything the engine does that the outside can observe, in order. *)
Inductive event : Type :=
| Execute (s : stmt)            (* cursor.execute *)
| CursorCommit                  (* cursor.commit() *)
| ConnCommit                    (* self.db_conn.commit() *)
| ConnRollback                  (* self.db_conn.rollback() *)
| Http (m : http_method) (url : string) (p : payload)
| Log (l : level) (msg : string).

(** The connection: what is durable, and what the open transaction sees.
    It is opened with pyodbc's default, autocommit off, which
    [self.db_conn.autocommit = False] leaves as it is. *)
Record connection : Type := {
  committed : server;
  working : server
}.

(** The instance ([order_num] and [is_debug] are never read by the engine),
    with the trace of its effects. *)
Record state : Type := {
  db_conn : connection;
  search_index : string;
  trace : list event
}.

Inductive result (A : Type) : Type :=
| Ok (a : A)
| Raise (e : exn).
Arguments Ok {A} a.
Arguments Raise {A} e.

(** A computation that may raise; the state survives the exception. *)
Definition M (A : Type) : Type := state -> result A * state.

Definition ret {A : Type} (a : A) : M A := fun st => (Ok a, st).

Definition raise {A : Type} (e : exn) : M A := fun st => (Raise e, st).

Definition bind {A B : Type} (m : M A) (f : A -> M B) : M B :=
  fun st =>
    match m st with
    | (Ok a, st') => f a st'
    | (Raise e, st') => (Raise e, st')
    end.

Declare Scope erp_scope.
Delimit Scope erp_scope with erp.
Notation "x <- m ;; k" := (bind m (fun x => k))
  (at level 61, m at next level, right associativity) : erp_scope.
Notation "m ;; k" := (bind m (fun _ => k))
  (at level 61, right associativity) : erp_scope.
Open Scope erp_scope.

Definition emit (e : event) : M unit :=
  fun st =>
    (Ok tt, {| db_conn := db_conn st; search_index := search_index st;
               trace := trace st ++ [e] |}).

Definition log (l : level) (msg : string) : M unit := emit (Log l msg).

Definition set_search_index (s : string) : M unit :=
  fun st =>
    (Ok tt, {| db_conn := db_conn st; search_index := s; trace := trace st |}).

Definition set_conn (c : connection) (st : state) : state :=
  {| db_conn := c; search_index := search_index st; trace := trace st |}.

Definition set_working (s : server) (st : state) : state :=
  set_conn {| committed := committed (db_conn st); working := s |} st.

(** Commit: what the transaction sees becomes durable. *)
Definition commit_conn (c : connection) : connection :=
  {| committed := working c; working := working c |}.

(** Rollback: the transaction's view falls back to what is durable. *)
Definition rollback_conn (c : connection) : connection :=
  {| committed := committed c; working := committed c |}.

Definition cursor_commit : M unit :=
  fun st => emit CursorCommit (set_conn (commit_conn (db_conn st)) st).

Definition conn_commit : M unit :=
  fun st => emit ConnCommit (set_conn (commit_conn (db_conn st)) st).

Definition conn_rollback : M unit :=
  fun st => emit ConnRollback (set_conn (rollback_conn (db_conn st)) st).

(* ================================================================== *)
(** * The engine: class ErpIntegration *)
(* ================================================================== *)

Section Engine.

(** [repr] of floats, for f-strings. *)
Variable float_repr : Q -> string.
(** Which statements the server refuses. *)
Variable fault : stmt -> bool.
(** How the upstream service answers a request. *)
Variable transport : http_method -> string -> payload -> http_outcome.
Variable config : config_t.

(** [cursor.execute(sql, params)]: a refused statement raises and changes
    nothing; [run] gives the statement's effect on the tables and the rows
    it returns, or [None] when evaluating it fails. *)
Definition cursor_execute {R : Type} (s : stmt)
    (run : server -> option (server * R)) : M R :=
  emit (Execute s) ;;
  if fault s then raise (DatabaseError s)
  else fun st =>
    match run (working (db_conn st)) with
    | None => (Raise (DataError s), st)
    | Some (srv, rows) => (Ok rows, set_working srv st)
    end.

(** [execute_query]: execute, then fetch all rows.  Leaving the [with]
    block of the cursor is taken to commit nothing; a driver that commits
    there makes durable earlier what the explicit commits below make
    durable anyway. *)
Definition execute_query {R : Type} (s : stmt)
    (run : server -> option (server * list R)) : M (list R) :=
  cursor_execute s run.

(** [execute_non_query]: execute, then [cursor.commit()], which commits
    the connection's whole pending transaction, then the row count. *)
Definition execute_non_query (s : stmt)
    (run : server -> option (server * nat)) : M nat :=
  rowcount <- cursor_execute s run ;;
  cursor_commit ;;
  ret rowcount.

(** A SELECT leaves the tables alone. *)
Definition reading {R : Type} (f : server -> list R) (s : server)
    : option (server * list R) := Some (s, f s).

(** A write to the tables behind [database]. *)
Definition writing (database : string) (f : dbase -> dbase * nat)
    (s : server) : option (server * nat) :=
  let (d, n) := f (db_of database s) in Some (set_db database d s, n).

(** ** send_request, get_orders_from_yq *)

Definition send_request (method : http_method) (url : string)
    (data : payload) : M response :=
  emit (Http method url data) ;;
  match transport method url data with
  | Json r => ret r
  | RequestException msg =>
      log Error ("API请求失败: " ++ msg) ;;
      ret {| r_status := Some (Py.PyNum (Py.PyInt 0));
             r_data := None; r_message := Some msg |}
  end.

Definition orders_url : string := "/api/openapi/erp/orders".

(** [{'last_sync_time': self.config.get('last_sync_time', '')}] *)
Definition orders_params : payload :=
  OrdersSince (match last_sync_time config with
               | Some t => t
               | None => ""
               end).

Definition get_orders_from_yq : M (list order) :=
  response <- send_request GET orders_url orders_params ;;
  ret (if Py.get_eqb (r_status response) (Py.PyNum (Py.PyInt 1))
       then match r_data response with
            | Some l => l
            | None => []
            end
       else []).

(** ** get_database_prefix *)

Definition rules_of (order_data : order) : list split_rule :=
  match split_rules order_data with
  | Some l => l
  | None => []
  end.

Definition get_database_prefix (order_data : order) : string :=
  let is_herbal :=
    existsb (fun rule => Py.get_eqb (value rule) (Py.PyStr "中药饮片"))
      (filter (fun rule => Py.get_eqb (rule_no rule) (Py.PyNum (Py.PyInt 4)))
         (rules_of order_data)) in
  if is_herbal then herbal_prefix else standard_prefix.

(** ** get_customer_info, order_exists *)

Definition get_customer_info (order_data : order) (database : string)
    : M (option customer) :=
  result <- execute_query (SelectCustomer (erp_customer_no order_data))
              (reading (fun s =>
                 Query.select_customer (erp_customer_no order_data)
                   (db_of database s))) ;;
  ret (hd_error result).

Definition order_exists (order_data : order) (database : string) : M bool :=
  result <- execute_query (SelectOrder (sub_order_sn order_data))
              (reading (fun s =>
                 Query.select_order (sub_order_sn order_data)
                   (db_of database s))) ;;
  ret (match result with [] => false | _ => true end).

(** ** insert_sheet_roots, insert_status_flow, update_sheet_root_status *)

(** [INSERT ... OUTPUT INSERTED._id] through [execute_query]: the row is
    added and its generated identifier is the one row fetched. *)
Definition insert_sheet_roots (order_data : order) (customer : customer)
    (database : string) : M (option Z) :=
  result <- execute_query (InsertSheetRoot (sub_order_sn order_data))
              (fun s =>
                 let d := db_of database s in
                 let new_id := Query.next_id (map sr_id (sheet_roots d)) in
                 let row :=
                   {| sr_id := new_id; sr_typeId := 184;
                      sr_no := sub_order_sn order_data;
                      sr_date := created_at order_data;
                      sr_operator := c_user_id customer;
                      sr_status := 2; sr_stateFlowId := None;
                      sr_syncState := 0; sr_caption := "金砖天网订单" |} in
                 Some (set_db database
                         (with_sheet_roots d (sheet_roots d ++ [row])) s,
                       [new_id])) ;;
  ret (hd_error result).

Definition insert_status_flow (order_data : order)
    (sheet_root_id : option Z) (database : string) : M (option Z) :=
  result <- execute_query (InsertStatusFlow sheet_root_id)
              (fun s =>
                 let d := db_of database s in
                 let new_id := Query.next_id (map sf_id (status_flows d)) in
                 let row :=
                   {| sf_id := new_id; sf_sheetTypeId := 184;
                      sf_sheetId := sheet_root_id;
                      sf_command := "天网自动订单";
                      sf_status := 1; sf_syncState := 0;
                      sf_date := created_at order_data;
                      sf_operator := system_user_id config |} in
                 Some (set_db database
                         (with_status_flows d (status_flows d ++ [row])) s,
                       [new_id])) ;;
  ret (hd_error result).

Definition update_sheet_root_status (sheet_root_id status_flow_id : option Z)
    (database : string) : M unit :=
  execute_non_query (UpdateSheetRoot sheet_root_id status_flow_id)
    (writing database (fun d =>
       (with_sheet_roots d
          (Query.update_root status_flow_id sheet_root_id (sheet_roots d)),
        List.length
          (filter (fun r => Sql.eq_Z sheet_root_id (sr_id r))
                  (sheet_roots d))))) ;;
  ret tt.

(** ** get_source, insert_sheet_order *)

Definition sources : list (string * string) :=
  [("wechat", "微信"); ("app", "APP"); ("web", "网页");
   ("mini_program", "小程序")].

(** [d.get(k, default)] on a dictionary with string keys. *)
Fixpoint dict_get (d : list (string * string)) (k default : string) : string :=
  match d with
  | [] => default
  | (k', v) :: rest => if String.eqb k' k then v else dict_get rest k default
  end.

Definition get_source (source : string) : string :=
  dict_get sources source "未知来源".

Definition discount_msg (order_data : order) : string :=
  if Py.gt0 (order_discount_total order_data)
  then "订单优惠:" ++ Py.str float_repr (order_discount_total order_data)
  else "".

Definition payment_status (order_data : order) : string :=
  if String.eqb (pay_method order_data) "线上支付" then "线上已付款;" else "".

(** The tuple of values bound to the header INSERT. *)
Definition sheet_order_values (sheet_root_id : option Z)
    (order_data : order) (customer : customer) : sheet_order :=
  {| so_id := sheet_root_id;
     so_no := sub_order_sn order_data;
     so_date := created_at order_data;
     so_customer := c_id customer;
     so_settle_customer := c_id customer;
     so_ref_customer := c_id customer;
     so_salesman := c_salesman customer;
     so_operator := c_biller customer;
     so_biller := c_biller customer;
     so_department := default_department config;
     so_bookkeeper := -1;
     so_booking := c_booking customer;
     so_ticket_type := c_ticket_type customer;
     so_transport := c_transport customer;
     so_member_level := -1;
     so_default_price := c_default_price customer;
     so_remark := get_source (source order_data) ++ ";"
                    ++ pay_method order_data ++ ";"
                    ++ discount_msg order_data;
     so_customer_note := payment_status order_data
                           ++ match message order_data with
                              | Some m => m
                              | None => ""
                              end;
     so_guid := sub_order_sn order_data;
     so_company := 1;
     so_logistics := 1;
     so_address := c_address_id customer;
     so_total := Py.to_Q (goods_total_fee order_data);
     so_out_total := Py.to_Q (goods_total_fee order_data);
     so_refund_total := Py.to_Q (sub_order_total_fee order_data) |}.

Definition insert_sheet_order (sheet_root_id : option Z)
    (order_data : order) (customer : customer) (database : string) : M unit :=
  execute_non_query (InsertSheetOrder (sub_order_sn order_data))
    (writing database (fun d =>
       (with_sheet_orders d
          (sheet_orders d
             ++ [sheet_order_values sheet_root_id order_data customer]),
        1%nat))) ;;
  ret tt.

(** ** get_item_batch, get_item_tax_info, get_item_profit *)

Definition get_item_batch (item : order_item) (database : string)
    : M (option Query.batch) :=
  if Py.get_truthy (erp_stock_id item) then
    match selected_batch_code item, selected_batch_times item with
    | None, _ => raise (KeyError "selected_batch_code")
    | Some _, None => raise (KeyError "selected_batch_times")
    | Some code, Some times =>
        result <- execute_query (SelectBatch (erp_goods_id item))
                    (reading (fun s =>
                       Query.select_batch (erp_goods_id item)
                         (Some (code, times)) s database)) ;;
        ret (hd_error result)
    end
  else
    result <- execute_query (SelectBatch (erp_goods_id item))
                (reading (fun s =>
                   Query.select_batch (erp_goods_id item) None s database)) ;;
    ret (hd_error result).

Definition get_item_tax_info (item : order_item) (database : string)
    : M Query.tax_info :=
  result <- execute_query (SelectTax (erp_goods_id item))
              (reading (fun s =>
                 Query.select_tax (erp_goods_id item) (db_of database s))) ;;
  ret (match result with
       | r :: _ => r
       | [] => {| Query.tax := 0; Query.out_tax := 0 |}
       end).

Definition get_item_profit (item : order_item) (batch : Query.batch)
    (database : string) : M Query.profit_info :=
  result <- execute_query (SelectProfit (erp_goods_id item))
              (fun s =>
                 match Query.select_profit
                         (Py.to_Q (sale_price (price_records item)))
                         (Py.to_Q (quantity item))
                         (erp_goods_id item)
                         (Query.batch_code batch) (Query.batch_times batch)
                         (db_of database s) with
                 | Some rows => Some (s, rows)
                 | None => None
                 end) ;;
  ret (match result with
       | r :: _ => r
       | [] => {| Query.profit := 0; Query.profit_rate := 0 |}
       end).

(** ** build_item_remark *)

Definition promotion_types : list (Z * string) :=
  [(0, "优惠券"); (1, "采满"); (2, "特价"); (3, "套餐");
   (4, "拼团"); (5, "全场促销"); (6, "积分抵现");
   (7, "预付金"); (8, "积分商城兑换")]%Z.

(** [promotion_types.get(k, default)]: a key matches by [==]. *)
Fixpoint promotion_get (d : list (Z * string)) (k : Py.pyval)
    (default : string) : string :=
  match d with
  | [] => default
  | (k', v) :: rest =>
      if Py.eqb k (Py.PyNum (Py.PyInt k')) then v
      else promotion_get rest k default
  end.

Definition build_item_remark (item : order_item) : string :=
  let promotions :=
    Py.join ","
      (map (fun p => promotion_get promotion_types (promotion_type p)
                       "普通商品")
           (match promotions item with Some l => l | None => [] end)) in
  let discount :=
    Py.mul (single_all_discount_fee (price_records item)) (quantity item) in
  let discount_msg :=
    if Py.gt0 discount then "优惠金额:" ++ Py.str float_repr discount
    else "" in
  promotions ++ ";" ++ discount_msg.

(** ** update_stock_concurrency *)

Definition update_stock_concurrency (item : order_item)
    (batch : Query.batch) (database : string) : M unit :=
  execute_non_query
    (UpdateStock (erp_goods_id item) (Query.batch_times batch))
    (writing database (fun d =>
       (with_ledger d
          (Query.update_stock (Py.to_Q (quantity item)) (erp_goods_id item)
             (Query.batch_times batch) (Query.bz batch) (ledger d)),
        List.length
          (filter (Query.where_stock (erp_goods_id item)
                     (Query.batch_times batch) (Query.bz batch))
                  (ledger d))))) ;;
  ret tt.

(** ** insert_order_details *)

(** The tuple of values bound to the detail INSERT, once the quotient
    [quantity / bz] is known to exist. *)
Definition order_detail_values (sheet_root_id : option Z) (idx : nat)
    (item : order_item) (batch : Query.batch) (pack : Q)
    (tax_info : Query.tax_info) (profit_info : Query.profit_info)
    (item_remark : string) : order_detail :=
  let price := sale_price (price_records item) in
  let whole := weight_whole_price (price_records item) in
  {| od_pid := sheet_root_id;
     od_rid := idx;
     od_orig_goods := Py.drop3 (erp_goods_id item);
     od_goods := Py.drop3 (erp_goods_id item);
     od_batch := Query.batch_times batch;
     od_pack := pack;
     od_qty := Py.to_Q (quantity item);
     od_pieces := Py.round2 (Py.to_Q (quantity item) / pack);
     od_price := Py.to_Q price;
     od_default_price := Py.to_Q whole;
     od_tax := Query.tax tax_info;
     od_out_tax := Query.out_tax tax_info;
     od_amount := Py.to_Q (Py.mul price (quantity item));
     od_profit := Query.profit profit_info;
     od_profit_rate := Query.profit_rate profit_info;
     od_gift := is_gift item;
     od_company := 1;
     od_logistics := 1;
     od_price_before := Py.to_Q whole;
     od_price_after := Py.to_Q price;
     od_remark := item_remark;
     od_refund_price := Py.to_Q price;
     od_refund_amount := Py.to_Q (Py.mul price (quantity item));
     od_refund_diff := Py.to_Q (Py.mul (Py.sub whole price) (quantity item));
     od_assess_price := Query.price_y batch;
     od_assess_amount := Query.price_y batch * Py.to_Q (quantity item) |}.

(** [item['quantity'] / batch['bz']] *)
Definition divisor (bz : option Q) : M Q :=
  match bz with
  | None => raise TypeError
  | Some p => if Qeq_bool p 0 then raise ZeroDivisionError else ret p
  end.

(** The body of the loop, for the lines from position [idx] on. *)
Fixpoint insert_order_details_from (idx : nat) (sheet_root_id : option Z)
    (items : list order_item) (database : string) : M unit :=
  match items with
  | [] => ret tt
  | item :: rest =>
      batch <- get_item_batch item database ;;
      match batch with
      | None =>
          log Warning ("商品批次不可用: " ++ erp_sku_sn item) ;;
          insert_order_details_from (S idx) sheet_root_id rest database
      | Some batch =>
          tax_info <- get_item_tax_info item database ;;
          profit_info <- get_item_profit item batch database ;;
          let item_remark := build_item_remark item in
          pack <- divisor (Query.bz batch) ;;
          execute_non_query (InsertDetail sheet_root_id idx)
            (writing database (fun d =>
               (with_order_details d
                  (order_details d
                     ++ [order_detail_values sheet_root_id idx item batch
                           pack tax_info profit_info item_remark]),
                1%nat))) ;;
          update_stock_concurrency item batch database ;;
          insert_order_details_from (S idx) sheet_root_id rest database
      end
  end.

(** [for idx, item in enumerate(order_data['order_goods'], start=1)] *)
Definition insert_order_details (sheet_root_id : option Z)
    (order_data : order) (database : string) : M unit :=
  insert_order_details_from 1 sheet_root_id (order_goods order_data) database.

(** ** order_details_exist, save_mid_order, notify_order_sync_success *)

Definition order_details_exist (sheet_root_id : option Z)
    (database : string) : M bool :=
  result <- execute_query (CountDetails sheet_root_id)
              (reading (fun s =>
                 [Query.count_details sheet_root_id (db_of database s)])) ;;
  ret (match result with
       | cnt :: _ => (0 <? cnt)%nat
       | [] => false
       end).

(** [order_data['erp_customer_id']]: here the key must be present. *)
Definition customer_id_of (order_data : order) : M Py.pyval :=
  match erp_customer_id order_data with
  | Some v => ret v
  | None => raise (KeyError "erp_customer_id")
  end.

Definition save_mid_order (order_data : order) (database : string) : M unit :=
  cid <- customer_id_of order_data ;;
  execute_non_query (InsertMidOrder (sub_order_sn order_data))
    (writing database (fun d =>
       (with_mid_orders d
          (mid_orders d
             ++ [{| mo_order_number := sub_order_sn order_data;
                    mo_erp_customer_id := cid;
                    mo_sync_status := 0 |}]),
        1%nat))) ;;
  ret tt.

Definition sync_status_url : string := "/api/openapi/erp/order/sync-status".

Definition notify_order_sync_success (order_data : order) : M unit :=
  cid <- customer_id_of order_data ;;
  send_request POST sync_status_url (SyncStatus (id order_data) cid 1) ;;
  ret tt.

(** ** sync_order *)

(** [str(e)] *)
Definition str_exn (e : exn) : string :=
  match e with
  | KeyError k => "'" ++ k ++ "'"
  | ValueError m => m
  | RuntimeError m => m
  | TypeError => "unsupported operand type(s) for /"
  | ZeroDivisionError => "division by zero"
  | DatabaseError _ => "pyodbc.Error"
  | DataError _ => "pyodbc.DataError"
  end.

(** [try: body except Exception as e: handler] *)
Definition try_except {A : Type} (body : M A) (handler : exn -> M A) : M A :=
  fun st =>
    match body st with
    | (Ok a, st') => (Ok a, st')
    | (Raise e, st') => handler e st'
    end.

(** The statements under [try:]. *)
Definition sync_order_body (order_data : order) : M bool :=
  set_search_index (sub_order_sn order_data) ;;
  log Info ("开始处理订单: " ++ sub_order_sn order_data) ;;
  let database := get_database_prefix order_data in
  if negb (Py.get_truthy (erp_customer_id order_data))
  then raise (ValueError "erp_customer_id不能为空")
  else
    customer <- get_customer_info order_data database ;;
    match customer with
    | None =>
        log Warning ("客户信息不存在: " ++ erp_customer_no order_data) ;;
        ret false
    | Some customer =>
        found <- order_exists order_data database ;;
        if found : bool then
          log Info ("订单已存在: " ++ sub_order_sn order_data) ;;
          ret true
        else
          sheet_root_id <- insert_sheet_roots order_data customer database ;;
          status_flow_id <-
            insert_status_flow order_data sheet_root_id database ;;
          update_sheet_root_status sheet_root_id status_flow_id database ;;
          insert_sheet_order sheet_root_id order_data customer database ;;
          insert_order_details sheet_root_id order_data database ;;
          save_mid_order order_data database ;;
          verified <- order_details_exist sheet_root_id database ;;
          if negb verified then raise (RuntimeError "订单明细插入失败")
          else
            notify_order_sync_success order_data ;;
            conn_commit ;;
            log Info ("订单处理成功: " ++ sub_order_sn order_data) ;;
            ret true
    end.

Definition sync_order (order_data : order) : M bool :=
  try_except (sync_order_body order_data)
    (fun e =>
       conn_rollback ;;
       log Error ("订单处理失败: " ++ sub_order_sn order_data ++ " - "
                    ++ str_exn e) ;;
       ret false).

(** ** sync_all_orders *)

Fixpoint sync_loop (orders : list order) (success_count : nat) : M nat :=
  match orders with
  | [] => ret success_count
  | order :: rest =>
      ok <- sync_order order ;;
      sync_loop rest (if ok : bool then S success_count else success_count)
  end.

Definition sync_all_orders : M nat :=
  orders <- get_orders_from_yq ;;
  match orders with
  | [] =>
      log Info "没有需要同步的新订单" ;;
      ret 0%nat
  | _ =>
      success_count <- sync_loop orders 0%nat ;;
      log Info ("订单同步完成: 成功 " ++ Py.str_int (Z.of_nat success_count)
                  ++ "/" ++ Py.str_int (Z.of_nat (List.length orders))) ;;
      ret success_count
  end.

End Engine.

(* ================================================================== *)
(** * The customers pending audit: sync_customers, save_customer,
      notify_customer_sync *)
(* ================================================================== *)

(** These three methods use the same connection and the same
    [send_request] as the order engine, on a table of their own,
    [T_YIIAUDIT_CUSTOMERS_YQYK].  The model keeps that table only; its
    column [last_date], which the server fills with [GETDATE()], is left
    out. *)
Module Customers.

(** [customer['salesman']] when it is a JSON object. *)
Record salesman_t : Type := {
  nickname : option Py.pyval;
  mobile : option Py.pyval
}.

(** A customer as the upstream service lists it.  A key may be absent
    ([None]); [salesman] and [pic_info] may be present and null
    ([Some None]); otherwise [salesman] is an object and [pic_info] an
    array of strings. *)
Record customer : Type := {
  id : option Py.pyval;
  business_license_code : option Py.pyval;
  customer_nick : option Py.pyval;
  contact_name : option Py.pyval;
  contact_mobile : option Py.pyval;
  corporate_name : option Py.pyval;
  corporate_mobile : option Py.pyval;
  province : option Py.pyval;
  city : option Py.pyval;
  county : option Py.pyval;
  address : option Py.pyval;
  salesman : option (option salesman_t);
  pic_info : option (option (list string))
}.

(** A row of [T_YIIAUDIT_CUSTOMERS_YQYK]. *)
Record audit_row : Type := {
  a_id : Py.pyval;
  a_business_license_code : Py.pyval;
  a_customer_nick : Py.pyval;
  a_contact_name : Py.pyval;
  a_contact_mobile : Py.pyval;
  a_corporate_name : Py.pyval;
  a_corporate_mobile : Py.pyval;
  a_province : Py.pyval;
  a_city : Py.pyval;
  a_county : Py.pyval;
  a_address : Py.pyval;
  a_salesman : Py.pyval;
  a_mobile : Py.pyval;
  a_pic_info : string;
  a_status : Z
}.

Inductive exn : Type :=
| KeyError (key : string)
| TypeError (msg : string)
| DatabaseError (msg : string).   (* pyodbc.Error, with the driver's text *)

(** [str(e)] *)
Definition str_exn (e : exn) : string :=
  match e with
  | KeyError k => "'" ++ k ++ "'"
  | TypeError m => m
  | DatabaseError m => m
  end.

(** The JSON object the two endpoints answer with. *)
Record response : Type := {
  r_status : option Py.pyval;
  r_data : option (list customer);
  r_message : option string
}.

Inductive http_outcome : Type :=
| RequestException (msg : string)
| Json (r : response).

(** The body of a request: none for the pull, [{'id': ..,
    'handle_status': ..}] for the status report. *)
Definition body : Type := option (Py.pyval * Z).

Inductive event : Type :=
| Execute (row : audit_row)     (* cursor.execute of the INSERT *)
| CursorCommit                  (* cursor.commit() *)
| Http (m : http_method) (url : string) (b : body)
| Log (msg : string).           (* logger.error *)

Record connection : Type := {
  committed : list audit_row;
  working : list audit_row
}.

Record state : Type := {
  db_conn : connection;
  trace : list event
}.

Inductive result (A : Type) : Type :=
| Ok (a : A)
| Raise (e : exn).
Arguments Ok {A} a.
Arguments Raise {A} e.

Definition M (A : Type) : Type := state -> result A * state.

Definition ret {A : Type} (a : A) : M A := fun st => (Ok a, st).

Definition raise {A : Type} (e : exn) : M A := fun st => (Raise e, st).

Definition bind {A B : Type} (m : M A) (f : A -> M B) : M B :=
  fun st =>
    match m st with
    | (Ok a, st') => f a st'
    | (Raise e, st') => (Raise e, st')
    end.

Declare Scope customers_scope.
Notation "x <- m ;; k" := (bind m (fun x => k))
  (at level 61, m at next level, right associativity) : customers_scope.
Notation "m ;; k" := (bind m (fun _ => k))
  (at level 61, right associativity) : customers_scope.
Local Open Scope customers_scope.

(** [try: body except Exception as e: handler] *)
Definition try_except {A : Type} (body : M A) (handler : exn -> M A) : M A :=
  fun st =>
    match body st with
    | (Ok a, st') => (Ok a, st')
    | (Raise e, st') => handler e st'
    end.

Definition emit (e : event) : M unit :=
  fun st => (Ok tt, {| db_conn := db_conn st; trace := trace st ++ [e] |}).

Definition set_conn (c : connection) : M unit :=
  fun st => (Ok tt, {| db_conn := c; trace := trace st |}).

(** [d['k']] *)
Definition key {A : Type} (k : string) (v : option A) : M A :=
  match v with
  | Some x => ret x
  | None => raise (KeyError k)
  end.

(** [customer['salesman'][k]] *)
Definition salesman_key (c : customer) (k : string)
    (field : salesman_t -> option Py.pyval) : M Py.pyval :=
  s <- key "salesman" (salesman c) ;;
  match s with
  | None => raise (TypeError "'NoneType' object is not subscriptable")
  | Some obj => key k (field obj)
  end.

(** [",".join(customer['pic_info'])] *)
Definition joined_pics (c : customer) : M string :=
  p <- key "pic_info" (pic_info c) ;;
  match p with
  | None => raise (TypeError "can only join an iterable")
  | Some l => ret (Py.join "," l)
  end.

Section Engine.

Variable float_repr : Q -> string.
(** The message with which the server refuses the INSERT of a row into the
    table as it stands, if it does. *)
Variable refuses : list audit_row -> audit_row -> option string.
Variable transport : http_method -> string -> body -> http_outcome.

(** What an f-string writes for a JSON scalar. *)
Definition str_val (v : Py.pyval) : string :=
  match v with
  | Py.PyNone => "None"
  | Py.PyBool true => "True"
  | Py.PyBool false => "False"
  | Py.PyNum n => Py.str float_repr n
  | Py.PyStr s => s
  end.

(** [execute_non_query] on the INSERT: execute, [cursor.commit()], row
    count. *)
Definition execute_non_query (row : audit_row) : M nat :=
  emit (Execute row) ;;
  fun st =>
    match refuses (working (db_conn st)) row with
    | Some msg => (Raise (DatabaseError msg), st)
    | None =>
        (emit CursorCommit ;; ret 1%nat)
          {| db_conn := {| committed := working (db_conn st) ++ [row];
                           working := working (db_conn st) ++ [row] |};
             trace := trace st |}
    end.

Definition send_request (method : http_method) (url : string) (data : body)
    : M response :=
  emit (Http method url data) ;;
  match transport method url data with
  | Json r => ret r
  | RequestException msg =>
      emit (Log ("API请求失败: " ++ msg)) ;;
      ret {| r_status := Some (Py.PyNum (Py.PyInt 0));
             r_data := None; r_message := Some msg |}
  end.

(** The tuple of values bound to the INSERT, evaluated from left to
    right; [status] is the literal 0 of the statement. *)
Definition audit_values (customer : customer) : M audit_row :=
  v_id <- key "id" (id customer) ;;
  v_license <- key "business_license_code"
                 (business_license_code customer) ;;
  v_nick <- key "customer_nick" (customer_nick customer) ;;
  v_contact <- key "contact_name" (contact_name customer) ;;
  v_contact_mobile <- key "contact_mobile" (contact_mobile customer) ;;
  v_corporate <- key "corporate_name" (corporate_name customer) ;;
  v_corporate_mobile <- key "corporate_mobile"
                          (corporate_mobile customer) ;;
  v_province <- key "province" (province customer) ;;
  v_city <- key "city" (city customer) ;;
  v_county <- key "county" (county customer) ;;
  v_address <- key "address" (address customer) ;;
  v_salesman <- salesman_key customer "nickname" nickname ;;
  v_mobile <- salesman_key customer "mobile" mobile ;;
  v_pics <- joined_pics customer ;;
  ret {| a_id := v_id; a_business_license_code := v_license;
         a_customer_nick := v_nick; a_contact_name := v_contact;
         a_contact_mobile := v_contact_mobile;
         a_corporate_name := v_corporate;
         a_corporate_mobile := v_corporate_mobile;
         a_province := v_province; a_city := v_city; a_county := v_county;
         a_address := v_address; a_salesman := v_salesman;
         a_mobile := v_mobile; a_pic_info := v_pics; a_status := 0 |}.

Definition save_customer (customer : customer) : M bool :=
  try_except
    (row <- audit_values customer ;;
     execute_non_query row ;;
     ret true)
    (fun e =>
       v_id <- key "id" (id customer) ;;
       emit (Log ("保存客户失败: " ++ str_val v_id ++ " - " ++ str_exn e)) ;;
       ret false).

Definition sync_status_url : string :=
  "/api/openapi/erp/audit-customers/sync-status".

Definition notify_customer_sync (customer : customer) : M unit :=
  v_id <- key "id" (id customer) ;;
  send_request POST sync_status_url (Some (v_id, 1%Z)) ;;
  ret tt.

Definition audit_customers_url : string := "/api/openapi/erp/audit-customers".

(** The loop of [sync_customers], with its counter. *)
Fixpoint save_all (customers : list customer) (success_count : nat)
    : M nat :=
  match customers with
  | [] => ret success_count
  | customer :: rest =>
      ok <- save_customer customer ;;
      if ok : bool then
        notify_customer_sync customer ;;
        save_all rest (S success_count)
      else save_all rest success_count
  end.

Definition sync_customers : M nat :=
  response <- send_request GET audit_customers_url None ;;
  let customers :=
    if Py.get_eqb (r_status response) (Py.PyNum (Py.PyInt 1))
    then match r_data response with
         | Some l => l
         | None => []
         end
    else [] in
  save_all customers 0%nat.

End Engine.

End Customers.

(* ================================================================== *)
(** * concect.py: class MSSQLConnector *)
(* ================================================================== *)

(** The instance holds a pyodbc connection and one cursor on it, both
    [None] until [connect] succeeds.  The server is modelled by what is
    durable and what the open transaction sees; a database is the
    sequence of the rows inserted so far, each with the name of its
    table.  The text of a driver error is left out of what is printed. *)
Module Connector.

(** A row: the columns of the INSERT with the values bound to them. *)
Definition row : Type := list (string * Py.pyval).

Definition database : Type := list (string * row).

(** A pyodbc handle.  A closed handle is still an object, and still
    truthy; using it raises [pyodbc.ProgrammingError]. *)
Inductive handle : Type := Open | Closed.

Inductive message : Type :=
| ConnectFailed     (* 连接数据库失败: ... *)
| NotConnected      (* 数据库未连接 *)
| InsertFailed      (* 插入数据失败: ... *)
| BulkFailed.       (* 批量插入失败: ... *)

Record connector : Type := {
  connection : option handle;    (* self.connection *)
  cursor : option handle;        (* self.cursor *)
  committed : database;
  working : database;
  printed : list message
}.

(** A method returns, or lets a [pyodbc.Error] through. *)
Inductive outcome (A : Type) : Type :=
| Returns (a : A)
| Raises.
Arguments Returns {A} a.
Arguments Raises {A}.

(** [__init__], on a server that holds [d]. *)
Definition init (d : database) : connector :=
  {| connection := None; cursor := None; committed := d; working := d;
     printed := [] |}.

Definition print (m : message) (s : connector) : connector :=
  {| connection := connection s; cursor := cursor s;
     committed := committed s; working := working s;
     printed := (printed s ++ [m])%list |}.

(** [self.connection.commit()] *)
Definition commit (w : database) (s : connector) : connector :=
  {| connection := connection s; cursor := cursor s;
     committed := w; working := w; printed := printed s |}.

(** [self.connection.rollback()] *)
Definition rollback (s : connector) : connector :=
  {| connection := connection s; cursor := cursor s;
     committed := committed s; working := committed s;
     printed := printed s |}.

Section Methods.

(** Whether [pyodbc.connect] succeeds. *)
Variable reachable : bool.
(** Whether the server accepts the INSERT of a row into a table, given
    what the transaction sees. *)
Variable accepts : database -> string -> row -> bool.

Definition connect (s : connector) : bool * connector :=
  if reachable then
    (true,
     {| connection := Some Open; cursor := Some Open;
        committed := committed s; working := committed s;
        printed := printed s |})
  else (false, print ConnectFailed s).

(** [h.close()] on an attribute that is set. *)
Definition close (h : handle) : outcome handle :=
  match h with
  | Open => Returns Closed
  | Closed => Raises
  end.

(** [disconnect] closes what is set and leaves the attributes as they
    are; closing the connection gives up what is pending. *)
Definition disconnect (s : connector) : outcome unit * connector :=
  match match cursor s with
        | None => Returns None
        | Some k => match close k with
                    | Returns k' => Returns (Some k')
                    | Raises => Raises
                    end
        end with
  | Raises => (Raises, s)
  | Returns k' =>
      let s1 := {| connection := connection s; cursor := k';
                   committed := committed s; working := working s;
                   printed := printed s |} in
      match connection s with
      | None => (Returns tt, s1)
      | Some c =>
          match close c with
          | Raises => (Raises, s1)
          | Returns c' =>
              (Returns tt,
               {| connection := Some c'; cursor := k';
                  committed := committed s; working := committed s;
                  printed := printed s |})
          end
      end
  end.

(** [self.cursor.execute(sql, values)] for the INSERT of one row: the
    transaction's view with the row added, or [None] for a
    [pyodbc.Error]. *)
Definition execute (c k : handle) (table_name : string) (r : row)
    (w : database) : option database :=
  match c, k with
  | Open, Open =>
      if accepts w table_name r then Some (w ++ [(table_name, r)])%list
      else None
  | _, _ => None
  end.

(** The rows of [executemany], one after the other. *)
Fixpoint execute_rows (c k : handle) (table_name : string)
    (columns : list string) (data : list (list Py.pyval)) (w : database)
    : option database :=
  match data with
  | [] => Some w
  | values :: rest =>
      if (List.length values =? List.length columns)%nat then
        match execute c k table_name (combine columns values) w with
        | Some w' => execute_rows c k table_name columns rest w'
        | None => None
        end
      else None
  end.

(** [self.cursor.executemany(sql, data)]; pyodbc refuses an empty
    sequence of parameters. *)
Definition executemany (c k : handle) (table_name : string)
    (columns : list string) (data : list (list Py.pyval)) (w : database)
    : option database :=
  match data with
  | [] => None
  | _ => execute_rows c k table_name columns data w
  end.

(** The [except pyodbc.Error] handler of both insert methods: print,
    then roll back, which raises on a closed connection. *)
Definition failed (m : message) (c : handle) (s : connector)
    : outcome bool * connector :=
  match c with
  | Open => (Returns false, rollback (print m s))
  | Closed => (Raises, print m s)
  end.

Definition insert_data (table_name : string) (data : row) (s : connector)
    : outcome bool * connector :=
  match connection s, cursor s with
  | Some c, Some k =>
      match execute c k table_name data (working s) with
      | Some w => (Returns true, commit w s)
      | None => failed InsertFailed c s
      end
  | _, _ => (Returns false, print NotConnected s)
  end.

Definition bulk_insert (table_name : string) (columns : list string)
    (data : list (list Py.pyval)) (s : connector)
    : outcome bool * connector :=
  match connection s, cursor s with
  | Some c, Some k =>
      match executemany c k table_name columns data (working s) with
      | Some w => (Returns true, commit w s)
      | None => failed BulkFailed c s
      end
  | _, _ => (Returns false, print NotConnected s)
  end.

(** [__enter__]: connect, whatever the result, and hand out the
    instance. *)
Definition enter (s : connector) : connector := snd (connect s).

(** [__exit__]: disconnect; it returns [None], so an exception of the body
    goes on. *)
Definition exit (s : connector) : outcome unit * connector := disconnect s.

(** A call on the instance. *)
Inductive call : Type :=
| Connect
| Disconnect
| InsertData (table_name : string) (data : row)
| BulkInsert (table_name : string) (columns : list string)
    (data : list (list Py.pyval)).

Definition step (c : call) (s : connector) : outcome bool * connector :=
  match c with
  | Connect => let (b, s') := connect s in (Returns b, s')
  | Disconnect =>
      match disconnect s with
      | (Returns _, s') => (Returns true, s')
      | (Raises, s') => (Raises, s')
      end
  | InsertData t d => insert_data t d s
  | BulkInsert t cols d => bulk_insert t cols d s
  end.

(** A sequence of calls, each with its outcome; the caller goes on after
    an error. *)
Fixpoint run (cs : list call) (s : connector)
    : list (outcome bool) * connector :=
  match cs with
  | [] => ([], s)
  | c :: rest =>
      let (r, s1) := step c s in
      let (rs, s2) := run rest s1 in
      (r :: rs, s2)
  end.

End Methods.

(** The rows a call asks to insert. *)
Definition rows_of (c : call) : database :=
  match c with
  | InsertData t d => [(t, d)]
  | BulkInsert t cols data => map (fun values => (t, combine cols values)) data
  | _ => []
  end.

(** The rows of the calls that returned true. *)
Fixpoint inserted (cs : list call) (rs : list (outcome bool)) : database :=
  match cs, rs with
  | c :: cs', Returns true :: rs' => (rows_of c ++ inserted cs' rs')%list
  | _ :: cs', _ :: rs' => inserted cs' rs'
  | _, _ => []
  end.

End Connector.

(* ================================================================== *)
(** * The specification's wording, for comparison with the code *)
(* ================================================================== *)

Module Spec.




(** Profit of a line as the specification writes it:
    [round(price*qty - (bookedCostAmount/bookedQty)*qty, 2)]. *)
Definition profit (price qty booked_cost booked_qty : Q) : Q :=
  Sql.round2 (price * qty - (booked_cost / booked_qty) * qty).

(** [round(profit / (price*qty), 2) * 100], where [profit] is the value
    above, already rounded. *)
Definition profit_rate (price qty booked_cost booked_qty : Q) : Q :=
  Sql.round2 (profit price qty booked_cost booked_qty / (price * qty)) * 100.

(** Unreserved quantity as the specification writes it: on hand minus
    reserved in transit minus already reserved (an absent amount counts
    as nothing). *)
Definition unreserved (b : ledger_row) : Q :=
  lg_qty b - Sql.isnull (lg_picking b) 0 - Sql.isnull (lg_concurrent b) 0.

(** A joined row the specification calls eligible for a line: it passes
    the product and hint filters and its unreserved quantity, as above,
    is strictly positive. *)
Definition eligible (goods_id : string) (hint : option (string * Z))
    (j : Query.batch_join) : bool :=
  Query.where_product goods_id j && Query.where_hint hint j
    && match Query.jb j with
       | Some b => Sql.gt0 (unreserved b)
       | None => false
       end.

(** The batch the specification has the allocator return. *)
Definition select_batch_row (goods_id : string) (hint : option (string * Z))
    (s : server) (database : string) : option Query.batch_join :=
  Ord.top1 Query.batch_key Query.key_compare
    (filter (eligible goods_id hint) (Query.batch_from s database)).

(** Chronological order of two datetimes, field by field. *)
Definition datetime_fields (d : datetime)
    : nat * (nat * (nat * (nat * (nat * nat)))) :=
  (year d, (month d, (day d, (hour d, (minute d, second d))))).

Definition datetime_compare (d1 d2 : datetime) : comparison :=
  Ord.lex Nat.compare
    (Ord.lex Nat.compare
       (Ord.lex Nat.compare
          (Ord.lex Nat.compare (Ord.lex Nat.compare Nat.compare))))
    (datetime_fields d1) (datetime_fields d2).

(** Ascending expiry date, then ascending production date, then ascending
    pack size. *)
Definition batch_order (j1 j2 : Query.batch_join) : comparison :=
  Ord.lex (Ord.opt datetime_compare)
    (Ord.lex (Ord.opt datetime_compare) (Ord.opt Qcompare))
    (bg_expiry (Query.ja j1), (bg_produced (Query.ja j1), Query.b_pack j1))
    (bg_expiry (Query.ja j2), (bg_produced (Query.ja j2), Query.b_pack j2)).

(** A datetime whose fields fit the widths of the canonical form. *)
Definition datetime_wf (d : datetime) : Prop :=
  (year d < 100 * 100 /\ month d < 100 /\ day d < 100
   /\ hour d < 100 /\ minute d < 100 /\ second d < 100)%nat.

Definition opt_wf (d : option datetime) : Prop :=
  match d with
  | Some x => datetime_wf x
  | None => True
  end.

Definition batch_goods_wf (a : batch_goods) : Prop :=
  opt_wf (bg_expiry a) /\ opt_wf (bg_produced a).

(** The amount a hold takes off the on-hand quantity in the allocator's
    query: a NULL or non-positive amount takes off nothing. *)
Definition held (x : option Q) : Q :=
  match x with
  | Some v => if Qle_bool v 0 then 0 else v
  | None => 0
  end.

(** The batch hint a line carries: [Some None] without a stock hint,
    [Some (Some (code, times))] with one, [None] when the line has a stock
    hint but lacks one of the two keys the query then reads. *)
Definition hint_of (item : order_item) : option (option (string * Z)) :=
  if Py.get_truthy (erp_stock_id item) then
    match selected_batch_code item, selected_batch_times item with
    | Some code, Some times => Some (Some (code, times))
    | _, _ => None
    end
  else Some None.


End Spec.

(* ================================================================== *)
(** * What the engine can do to a connection, one step at a time *)
(* ================================================================== *)

(** The tables the engine writes. *)
Inductive table : Type :=
| TSheetRoots | TStatusFlow | TSheetOrder | TOrderDetail | TLedger | TMidOrder.

(** The six writes of the engine on the tables behind one prefix, each
    with the table it touches. *)
Inductive write_step (d : dbase) : table -> dbase -> Prop :=
| write_roots t : write_step d TSheetRoots (with_sheet_roots d t)
| write_flows t : write_step d TStatusFlow (with_status_flows d t)
| write_orders row :
    write_step d TSheetOrder
      (with_sheet_orders d (sheet_orders d ++ [row]))
| write_details row :
    write_step d TOrderDetail
      (with_order_details d (order_details d ++ [row]))
| write_ledger quantity goods_id times pack :
    write_step d TLedger
      (with_ledger d
         (Query.update_stock quantity goods_id times pack (ledger d)))
| write_mid row :
    write_step d TMidOrder (with_mid_orders d (mid_orders d ++ [row])).

(** A step of the connection: a write to an allowed table inside the open
    transaction, a commit, or (only where [rb] allows it) a rollback. *)
Inductive conn_step (allowed : table -> bool) (rb : bool)
    : connection -> connection -> Prop :=
| step_write c database tb d' :
    allowed tb = true ->
    write_step (db_of database (working c)) tb d' ->
    conn_step allowed rb c
      {| committed := committed c;
         working := set_db database d' (working c) |}
| step_commit c : conn_step allowed rb c (commit_conn c)
| step_rollback c : rb = true -> conn_step allowed rb c (rollback_conn c).

Inductive conn_steps (allowed : table -> bool) (rb : bool)
    : connection -> connection -> Prop :=
| steps_refl c : conn_steps allowed rb c c
| steps_more c1 c2 c3 :
    conn_steps allowed rb c1 c2 -> conn_step allowed rb c2 c3 ->
    conn_steps allowed rb c1 c3.

(** The computation [m] changes the connection by such steps only,
    whether it returns or raises. *)
Definition moves (allowed : table -> bool) (rb : bool) {A : Type}
    (m : M A) : Prop :=
  forall st r st', m st = (r, st') ->
                   conn_steps allowed rb (db_conn st) (db_conn st').

(** A statement whose effect on the tables is nothing or one allowed
    write. *)
Definition run_ok (allowed : table -> bool) {R : Type}
    (run : server -> option (server * R)) : Prop :=
  forall s s' rows, run s = Some (s', rows) ->
    s' = s \/ exists database tb d',
                allowed tb = true
                /\ write_step (db_of database s) tb d'
                /\ s' = set_db database d' s.

Definition every_table (tb : table) : bool := true.

Definition all_but (t : table) (tb : table) : bool :=
  match t, tb with
  | TSheetRoots, TSheetRoots | TStatusFlow, TStatusFlow
  | TSheetOrder, TSheetOrder | TOrderDetail, TOrderDetail
  | TLedger, TLedger | TMidOrder, TMidOrder => false
  | _, _ => true
  end.

(** The columns of a ledger row other than the reservation counter. *)
Definition stock_columns (r : ledger_row)
    : string * Z * string * option Z * option Z * Q * Q * option Q * Q :=
  (lg_goods r, lg_batch r, lg_batch_no r, lg_kind r, lg_company r,
   lg_pack r, lg_qty r, lg_picking r, lg_cost_amount r).

(** The stock the server holds, reservation counters left out. *)
Definition stock (s : server) : list _ * list _ :=
  (map stock_columns (ledger (herbal_db s)),
   map stock_columns (ledger (standard_db s))).

(** An event other than a request to the upstream service or the commit of
    the order's transaction. *)
Definition quiet (e : event) : Prop :=
  match e with
  | Http _ _ _ | ConnCommit => False
  | _ => True
  end.

(** The computation [m] extends the trace by events that satisfy [P]. *)
Definition emits (P : event -> Prop) {A : Type} (m : M A) : Prop :=
  forall st r st', m st = (r, st') ->
    exists evs, trace st' = (trace st ++ evs)%list /\ Forall P evs.

(** The two shapes a run of [sync_order] on [o] gives the trace: quiet
    throughout, or (only when it returns true) quiet up to the status
    report, which the commit of the transaction follows. *)
Definition gated (o : order) (r : result bool) (evs : list event) : Prop :=
  Forall quiet evs
  \/ (r = Ok true
      /\ exists cid pre mid,
           erp_customer_id o = Some cid
           /\ evs = (pre ++ Http POST "/api/openapi/erp/order/sync-status"
                              (SyncStatus (id o) cid 1)
                          :: mid
                          ++ [ConnCommit;
                              Log Info ("订单处理成功: " ++ sub_order_sn o)])%list
           /\ Forall quiet pre /\ Forall quiet mid).

(** What a run on an order that already exists adds to the trace. *)
Definition duplicate_trace (o : order) : list event :=
  [Log Info ("开始处理订单: " ++ sub_order_sn o);
   Execute (SelectCustomer (erp_customer_no o));
   Execute (SelectOrder (sub_order_sn o));
   Log Info ("订单已存在: " ++ sub_order_sn o)].

(** The two SELECT expressions of the profit query on a ledger row. *)
Definition profit_of (price quantity : Q) (r : ledger_row)
    : Query.profit_info :=
  let margin := price * quantity - (lg_cost_amount r / lg_qty r) * quantity in
  {| Query.profit := Sql.round2 margin;
     Query.profit_rate := Sql.round2 (margin / (price * quantity)) * 100 |}.

(* ================================================================== *)
(** * Concrete servers and orders used by the examples *)
(* ================================================================== *)

Module Scenario.

Definition cfg : config_t :=
  {| system_user_id := 9; default_department := 3; last_sync_time := None |}.

(** No statement is refused. *)
Definition no_fault (s : stmt) : bool := false.

Definition repr (q : Q) : string := "<float>".

Definition accepted : response :=
  {| r_status := Some (Py.PyNum (Py.PyInt 1)); r_data := None;
     r_message := None |}.

(** An upstream that accepts every report. *)
Definition net (m : http_method) (url : string) (p : payload) : http_outcome :=
  Json accepted.

Definition cust : customer :=
  {| c_id := 7; c_no := "C001"; c_default_price := 1; c_ticket_type := 0;
     c_transport := 0; c_booking := 0; c_address_id := Some 5%Z;
     c_salesman := Some 11%Z; c_biller := Some 12%Z;
     c_user_id := Some 13%Z |}.

Definition date (y m d : nat) : datetime :=
  {| year := y; month := m; day := d; hour := 0; minute := 0; second := 0 |}.

Definition mk_batch (id : Z) (code : string) (expiry produced : datetime)
    : batch_goods :=
  {| bg_oid := "123"; bg_id := id; bg_print_no := code;
     bg_expiry := Some expiry; bg_produced := Some produced |}.

Definition mk_ledger (id : Z) (code : string) (company : option Z)
    (pack on_hand : Q) (picking reserved : option Q) : ledger_row :=
  {| lg_goods := "123"; lg_batch := id; lg_batch_no := code;
     lg_kind := Some 0%Z; lg_company := company; lg_pack := pack;
     lg_qty := on_hand; lg_picking := picking; lg_concurrent := reserved;
     lg_cost_amount := 300 |}.

Definition empty_db : dbase :=
  {| customers := []; sheet_roots := []; status_flows := [];
     sheet_orders := []; order_details := []; batch_goods_tbl := [];
     ledger := []; goods_infos := []; mid_orders := [] |}.

Definition mk_server (batches : list batch_goods) (rows : list ledger_row)
    : server :=
  {| herbal_db := empty_db;
     standard_db :=
       {| customers := [cust]; sheet_roots := []; status_flows := [];
          sheet_orders := []; order_details := [];
          batch_goods_tbl := batches; ledger := rows; goods_infos := [];
          mid_orders := [] |};
     abc_tbl := [] |}.

(** A connection with nothing pending. *)
Definition fresh (s : server) : state :=
  {| db_conn := {| committed := s; working := s |}; search_index := "";
     trace := [] |}.

(** One batch of product 123: 100 on hand, 5 already reserved. *)
Definition srv0 : server :=
  mk_server [mk_batch 1 "A" (date 2027 1 1) (date 2025 1 1)]
            [mk_ledger 1 "A" (Some 1%Z) 10 100 (Some 0) (Some 5)].

Definition st0 : state := fresh srv0.

Definition mk_item (goods_id sku : string) (qty price : Py.pynum)
    : order_item :=
  {| erp_stock_id := None; erp_goods_id := goods_id; erp_sku_sn := sku;
     selected_batch_code := None; selected_batch_times := None;
     quantity := qty;
     price_records :=
       {| sale_price := price; weight_whole_price := Py.PyInt 6;
          single_all_discount_fee := Py.PyInt 0 |};
     is_gift := Py.PyNum (Py.PyInt 0); promotions := None |}.

(** Two units of product 123 at price 5. *)
Definition item1 : order_item :=
  mk_item "SPH123" "SKU1" (Py.PyInt 2) (Py.PyInt 5).

(** A product no batch exists for. *)
Definition item_none : order_item :=
  mk_item "SPH999" "SKU9" (Py.PyInt 2) (Py.PyInt 5).

Definition mk_order (sn : string) (customer_id : option Py.pyval)
    (customer_no : string) (items : list order_item) : order :=
  {| id := Py.PyNum (Py.PyInt 1); sub_order_sn := sn;
     erp_customer_id := customer_id; erp_customer_no := customer_no;
     created_at := "2026-01-01 00:00:00"; split_rules := None;
     order_discount_total := Py.PyInt 50; pay_method := "线上支付";
     source := "wechat"; message := None;
     goods_total_fee := Py.PyInt 10; sub_order_total_fee := Py.PyInt 10;
     order_goods := items |}.

Definition cid : option Py.pyval := Some (Py.PyNum (Py.PyInt 77)).

(** An order with one line that can be allocated. *)
Definition o1 : order := mk_order "SN1" cid "C001" [item1].

(** An order none of whose lines has an eligible batch. *)
Definition o0 : order := mk_order "SN0" cid "C001" [item_none].

(** An order of two lines that can both be allocated. *)
Definition o2 : order := mk_order "SN2" cid "C001" [item1; item1].

(** An upstream whose pull returns the given orders. *)
Definition net_orders (l : list order) (m : http_method) (url : string)
    (p : payload) : http_outcome :=
  match m with
  | GET => Json {| r_status := Some (Py.PyNum (Py.PyInt 1));
                   r_data := Some l; r_message := None |}
  | POST => Json accepted
  end.

(** An upstream that cannot be reached. *)
Definition net_down (m : http_method) (url : string) (p : payload)
    : http_outcome := RequestException "timeout".


(** A line sold at 0.1 against a booked unit cost of 0.0851. *)
Definition item_cheap : order_item :=
  mk_item "SPH123" "SKU1" (Py.PyInt 1) (Py.PyFloat (1 # 10)).

Definition srv_cheap : server :=
  mk_server [mk_batch 1 "A" (date 2027 1 1) (date 2025 1 1)]
    [{| lg_goods := "123"; lg_batch := 1; lg_batch_no := "A";
        lg_kind := Some 0%Z; lg_company := Some 1%Z; lg_pack := 10;
        lg_qty := 100; lg_picking := Some 0; lg_concurrent := Some 0;
        lg_cost_amount := 851 # 100 |}].

Definition batch_a : Query.batch :=
  {| Query.batch_code := "A"; Query.batch_times := 1;
     Query.bz := Some 10; Query.concurrent := Some 0;
     Query.price_y := 0; Query.qty := 100 |}.

(** A gift line: the price is zero. *)
Definition item_gift : order_item :=
  mk_item "SPH123" "SKU1" (Py.PyInt 1) (Py.PyInt 0).

(** Batch 1 expires first; 3 on hand, -5 in transit, 4 reserved.
    Batch 2 expires later; 10 on hand, nothing held. *)
Definition srv_negative : server :=
  mk_server [mk_batch 1 "A" (date 2026 6 1) (date 2025 1 1);
             mk_batch 2 "B" (date 2027 6 1) (date 2025 1 1)]
            [mk_ledger 1 "A" (Some 1%Z) 10 3 (Some (-5)) (Some 4);
             mk_ledger 2 "B" (Some 1%Z) 10 10 (Some 0) (Some 0)].

(** One batch whose ledger row has no company. *)
Definition srv_no_company : server :=
  mk_server [mk_batch 1 "A" (date 2027 1 1) (date 2025 1 1)]
            [mk_ledger 1 "A" None 10 100 (Some 0) (Some 5)].

(** One batch whose reservation counter is NULL. *)
Definition srv_null_counter : server :=
  mk_server [mk_batch 1 "A" (date 2027 1 1) (date 2025 1 1)]
            [mk_ledger 1 "A" (Some 1%Z) 10 100 (Some 0) None].

(** An order whose first line has no eligible batch and whose second
    line can be allocated. *)
Definition o_mixed : order := mk_order "SN4" cid "C001" [item_none; item1].

(** The state after [o1] has been synced once. *)
Definition st_synced : state :=
  snd (sync_order repr no_fault net cfg o1 st0).

(** The order [o1] again, without a customer identifier. *)
Definition o1_no_customer_id : order := mk_order "SN1" None "C001" [item1].

(** The order [o1] again, for a customer the ERP does not know. *)
Definition o1_unknown_customer : order :=
  mk_order "SN1" cid "C999" [item1].

(** The server refuses the write of the second line item. *)
Definition fault_second_line (s : stmt) : bool :=
  match s with
  | InsertDetail _ 2 => true
  | _ => false
  end.

End Scenario.

(* ================================================================== *)
(** * Runs of the connector *)
(* ================================================================== *)

Module ConnectorRuns.
Import Connector.

(** Nothing is pending on the instance's connection. *)
Definition settled (s : connector) : Prop := working s = committed s.

(** An insert call. *)
Definition is_insert (c : call) : bool :=
  match c with
  | InsertData _ _ | BulkInsert _ _ _ => true
  | _ => false
  end.

(** ** Sample data *)

Definition users : string := "users".

Definition user (n : Z) (name : string) : list Py.pyval :=
  [Py.PyNum (Py.PyInt n); Py.PyStr name].

Definition user_row (n : Z) (name : string) : row :=
  combine ["id"; "name"] (user n name).

(** A server that refuses the user number 3. *)
Definition no_three (d : database) (t : string) (r : row) : bool :=
  negb (existsb (fun cv => Py.eqb (snd cv) (Py.PyNum (Py.PyInt 3))) r).

Definition session : list call :=
  [Connect;
   InsertData users (user_row 1 "a");
   BulkInsert users ["id"; "name"] [user 2 "b"; user 3 "c"; user 4 "d"];
   BulkInsert users ["id"; "name"] [user 5 "e"; user 6 "f"];
   Disconnect].

End ConnectorRuns.

(* ================================================================== *)
(** * Runs of the customers synchronisation *)
(* ================================================================== *)

Module CustomerRuns.
Import Customers.

(** The customers a pull yields: the [data] of an answer whose [status]
    is 1, nothing otherwise. *)
Definition pulled
    (transport : http_method -> string -> body -> http_outcome)
    : list customer :=
  match transport GET audit_customers_url None with
  | Json r =>
      if Py.get_eqb (r_status r) (Py.PyNum (Py.PyInt 1))
      then match r_data r with Some l => l | None => [] end
      else []
  | RequestException _ => []
  end.

(** What the pull itself adds to the trace. *)
Definition pull_events
    (transport : http_method -> string -> body -> http_outcome)
    : list event :=
  Http GET audit_customers_url None
  :: match transport GET audit_customers_url None with
     | Json _ => []
     | RequestException msg => [Log ("API请求失败: " ++ msg)]
     end.

Definition has_id (c : customer) : Prop := id c <> None.



(** After a status report: nothing, or the error log of a request that
    failed. *)
Definition report_tail (tail : list event) : Prop :=
  tail = [] \/ exists msg, tail = [Log msg].

(** A customer that is not saved: its values cannot be built, or the
    server refuses the row. *)
Definition failure_events (evs : list event) : Prop :=
  exists msg, evs = [Log msg] \/ exists row, evs = [Execute row; Log msg].

(** The events of a loop over [cs] that saves the rows [rows], [n] of
    them: for a saved customer the INSERT, its commit and then the status
    report for the customer's id; for any other customer no commit and no
    request. *)
Inductive batch_events
    : list customer -> nat -> list audit_row -> list event -> Prop :=
| be_nil : batch_events [] 0 [] []
| be_saved c cs n rows evs row tail :
    id c = Some (a_id row) -> a_status row = 0%Z -> report_tail tail ->
    batch_events cs n rows evs ->
    batch_events (c :: cs) (S n) (row :: rows)
      ([Execute row; CursorCommit;
        Http POST sync_status_url (Some (a_id row, 1%Z))]
         ++ tail ++ evs)
| be_failed c cs n rows evs fail :
    failure_events fail ->
    batch_events cs n rows evs ->
    batch_events (c :: cs) n rows (fail ++ evs).

(** The connection once [rows] have been saved: untouched when there
    are none, otherwise with all of them durable. *)
Definition grown (rows : list audit_row) (c : connection) : connection :=
  match rows with
  | [] => c
  | _ => {| committed := (working c ++ rows)%list;
            working := (working c ++ rows)%list |}
  end.

(** Every status report in [evs] comes directly after the INSERT of a
    row and its commit, and reports that row's id as handled. *)
Fixpoint well_reported (evs : list event) : Prop :=
  match evs with
  | [] => True
  | Execute row :: CursorCommit :: Http POST url (Some (v, handled)) :: rest =>
      url = sync_status_url /\ v = a_id row /\ handled = 1%Z
      /\ well_reported rest
  | Http POST _ _ :: _ => False
  | _ :: rest => well_reported rest
  end.

(** ** Sample data *)

Definition s (x : string) : option Py.pyval := Some (Py.PyStr x).

Definition mk_customer (n : Z) (pics : option (option (list string)))
    : customer :=
  {| id := Some (Py.PyNum (Py.PyInt n));
     business_license_code := s "L"; customer_nick := s "nick";
     contact_name := s "name"; contact_mobile := s "130";
     corporate_name := s "corp"; corporate_mobile := s "131";
     province := s "P"; city := s "C"; county := s "K"; address := s "addr";
     salesman := Some (Some {| nickname := s "sales"; mobile := s "132" |});
     pic_info := pics |}.

Definition c1 : customer := mk_customer 1 (Some (Some ["a.png"; "b.png"])).
(** A customer whose pictures are null. *)
Definition c2 : customer := mk_customer 2 (Some None).
Definition c3 : customer := mk_customer 3 (Some (Some [])).

(** A customer without the key [id]. *)
Definition c_no_id : customer :=
  {| id := None;
     business_license_code := s "L"; customer_nick := s "nick";
     contact_name := s "name"; contact_mobile := s "130";
     corporate_name := s "corp"; corporate_mobile := s "131";
     province := s "P"; city := s "C"; county := s "K"; address := s "addr";
     salesman := Some (Some {| nickname := s "sales"; mobile := s "132" |});
     pic_info := Some (Some []) |}.

Definition repr (q : Q) : string := "<float>".

(** A server that refuses nothing. *)
Definition accepts (t : list audit_row) (row : audit_row) : option string :=
  None.

(** An upstream whose pull lists the given customers. *)
Definition net (l : list customer) (m : http_method) (url : string)
    (b : body) : http_outcome :=
  Json {| r_status := Some (Py.PyNum (Py.PyInt 1));
          r_data := match m with GET => Some l | POST => None end;
          r_message := None |}.

Definition st0 : state :=
  {| db_conn := {| committed := []; working := [] |}; trace := [] |}.

End CustomerRuns.

(* ================================================================== *)
(** * Further notions about runs of the engine *)
(* ================================================================== *)

(** The connection has nothing pending. *)
Definition clean (st : state) : Prop :=
  committed (db_conn st) = working (db_conn st).

(** [m] never touches the connection. *)
Definition still {A : Type} (m : M A) : Prop :=
  forall st r st', m st = (r, st') -> db_conn st' = db_conn st.

(** Whenever [m] returns, nothing is pending. *)
Definition ends_clean {A : Type} (m : M A) : Prop :=
  forall st a st', m st = (Ok a, st') -> clean st'.

(** Whenever [m] returns, the connection is as before or nothing is
    pending. *)
Definition settles {A : Type} (m : M A) : Prop :=
  forall st a st', m st = (Ok a, st') -> db_conn st' = db_conn st \/ clean st'.




(** The tables the engine only reads, with the columns of the ledger it
    never assigns. *)
Definition master_data (d : dbase) :=
  (customers d, batch_goods_tbl d, goods_infos d,
   map stock_columns (ledger d)).

(** [l'] is [l] with rows added at the end. *)
Definition extends {X : Type} (l l' : list X) : Prop :=
  exists more, l' = (l ++ more)%list.

(** The tables the engine only ever inserts into. *)
Definition journals (d d' : dbase) : Prop :=
  extends (sheet_orders d) (sheet_orders d')
  /\ extends (order_details d) (order_details d')
  /\ extends (mid_orders d) (mid_orders d').

(** [lo <= x1 < x2 < ... < xn < hi] *)
Fixpoint ascending (lo : nat) (l : list nat) (hi : nat) : Prop :=
  match l with
  | [] => (lo <= hi)%nat
  | x :: rest => (lo <= x)%nat /\ ascending (S x) rest hi
  end.

(** The order lines behind [database], as the open transaction sees
    them. *)
Definition details_of (database : string) (st : state) : list order_detail :=
  order_details (db_of database (working (db_conn st))).

(** The computation [m] only adds order lines, and those it adds satisfy
    [Q], whether it returns or raises. *)
Definition grows (database : string) (Q : list order_detail -> Prop)
    {A : Type} (m : M A) : Prop :=
  forall st r st', m st = (r, st') ->
    exists rows,
      details_of database st' = (details_of database st ++ rows)%list
      /\ Q rows.

(** [row] is the detail row of the line of [items] that its row number
    designates, counting from [idx]: the values of that line, of some batch
    with a pack size other than zero and of some tax and profit figures. *)
Definition line_row (float_repr : Q -> string) (sheet_root_id : option Z)
    (idx : nat) (items : list order_item) (row : order_detail) : Prop :=
  exists item batch pack tax_info profit_info,
    (idx <= od_rid row)%nat
    /\ nth_error items (od_rid row - idx) = Some item
    /\ Query.bz batch = Some pack
    /\ ~ pack == 0
    /\ row = order_detail_values sheet_root_id (od_rid row) item batch pack
               tax_info profit_info (build_item_remark float_repr item).

(** What the first three statements of a new order leave behind: one new
    root row [r] and one new workflow row [f] at the end of their tables,
    under identifiers above all earlier ones, each naming the other. *)
Definition linked (d d' : dbase) (root flow : option Z) (no : string)
    : Prop :=
  exists rid fid r f,
    root = Some rid /\ flow = Some fid
    /\ sheet_roots d' = (sheet_roots d ++ [r])%list
    /\ status_flows d' = (status_flows d ++ [f])%list
    /\ sr_id r = rid /\ sr_no r = no /\ sr_stateFlowId r = Some fid
    /\ sf_id f = fid /\ sf_sheetId f = Some rid
    /\ Forall (fun x => (sr_id x < rid)%Z) (sheet_roots d)
    /\ Forall (fun x => (sf_id x < fid)%Z) (status_flows d).

(** The two tables the opening statements of an order write. *)
Definition header_tables (tb : table) : bool :=
  match tb with
  | TSheetRoots | TStatusFlow => true
  | _ => false
  end.

(** Every table but those two. *)
Definition all_but_headers (d : dbase) :=
  (customers d, sheet_orders d, order_details d, batch_goods_tbl d,
   ledger d, goods_infos d, mid_orders d).

(** What a successful run on a new order has added behind its prefix:
    the linked root and workflow rows, one header, the lines, of which the
    verifier found at least one under the root, and one mid-order row;
    the master data is as before. *)
Definition synced (float_repr : Q -> string) (config : config_t) (o : order)
    (c : customer) (root flow : option Z) (d d' : dbase) : Prop :=
  linked d d' root flow (sub_order_sn o)
  /\ sheet_orders d'
     = (sheet_orders d ++ [sheet_order_values float_repr config root o c])%list
  /\ (exists rows,
         order_details d' = (order_details d ++ rows)%list
         /\ Forall (line_row float_repr root 1 (order_goods o)) rows)
  /\ (0 < Query.count_details root d')%nat
  /\ (exists cid,
         erp_customer_id o = Some cid
         /\ mid_orders d'
            = (mid_orders d
                 ++ [{| mo_order_number := sub_order_sn o;
                        mo_erp_customer_id := cid;
                        mo_sync_status := 0 |}])%list)
  /\ master_data d' = master_data d.

(** [D'] names the database of the other business line than [D]. *)
Definition other_side (D D' : string) : Prop :=
  String.eqb D' herbal_prefix = negb (String.eqb D herbal_prefix).

(** The tables behind [D'] are [v], durably and inside the transaction. *)
Definition apart (D' : string) (v : dbase) (st : state) : Prop :=
  db_of D' (committed (db_conn st)) = v
  /\ db_of D' (working (db_conn st)) = v.

(** The computation [m] leaves the tables behind [D'] alone, whether it
    returns or raises. *)
Definition keeps_apart (D' : string) {A : Type} (m : M A) : Prop :=
  forall v st r st', apart D' v st -> m st = (r, st') -> apart D' v st'.

(** A statement that leaves the tables behind [D'] alone. *)
Definition keeps_run (D' : string) {R : Type}
    (run : server -> option (server * R)) : Prop :=
  forall s s' rows, run s = Some (s', rows) -> db_of D' s' = db_of D' s.




(** Two runs end with the same result, the same connection and the same
    search index; their traces may differ. *)
Definition agree {A : Type} (x y : result A * state) : Prop :=
  fst x = fst y
  /\ db_conn (snd x) = db_conn (snd y)
  /\ search_index (snd x) = search_index (snd y).

(* ================================================================== *)
(** * Facts *)
(* ================================================================== *)

(** ** The monad *)

Lemma bind_ok_inv {A B : Type} (m : M A) (f : A -> M B) st b st' :
  bind m f st = (Ok b, st') ->
  exists a st1, m st = (Ok a, st1) /\ f a st1 = (Ok b, st').
Proof.
  unfold bind. destruct (m st) as [[a | e] st1]; intros H.
  - exists a, st1. split; [reflexivity | exact H].
  - discriminate H.
Qed.

Lemma bind_ok {A B : Type} (m : M A) (f : A -> M B) st a st1 :
  m st = (Ok a, st1) -> bind m f st = f a st1.
Proof. unfold bind. intros ->. reflexivity. Qed.

(** ** Prefixes and the tables behind them *)

Lemma db_of_set_db database d s : db_of database (set_db database d s) = d.
Proof.
  unfold db_of, set_db. destruct (String.eqb database herbal_prefix) eqn:E;
    cbn; rewrite ?E; reflexivity.
Qed.

(** ** Python equality against a literal *)



(** ** Namespace resolution *)



(** ** Remark composition *)



Lemma writing_runs fault database (f : dbase -> dbase * nat) s st :
  fault s = false ->
  execute_non_query fault s (writing database f) st
  = (Ok (snd (f (db_of database (working (db_conn st))))),
     {| db_conn :=
          commit_conn
            {| committed := committed (db_conn st);
               working := set_db database
                            (fst (f (db_of database (working (db_conn st)))))
                            (working (db_conn st)) |};
        search_index := search_index st;
        trace := trace st ++ [Execute s; CursorCommit] |}).
Proof.
  intros Hf. unfold execute_non_query, cursor_execute, bind, emit, writing.
  cbn. rewrite Hf. cbn.
  destruct (f (db_of database (working (db_conn st)))) as [d n]. cbn.
  unfold set_conn, commit_conn. cbn. rewrite <- app_assoc. reflexivity.
Qed.



(** ** The batch orchestrator *)






(** C10: a pull that raises a [requests] exception, or whose answer does
    not carry status 1, yields no orders, and then [sync_all_orders]
    returns 0 without raising and without touching the connection. *)
Theorem failed_pull_syncs_nothing float_repr fault transport config st :
  (exists msg,
      transport GET orders_url (orders_params config) = RequestException msg)
  \/ (exists r,
         transport GET orders_url (orders_params config) = Json r
         /\ Py.get_eqb (r_status r) (Py.PyNum (Py.PyInt 1)) = false) ->
  (exists st1, get_orders_from_yq transport config st = (Ok [], st1))
  /\ (exists st2,
         sync_all_orders float_repr fault transport config st = (Ok 0%nat, st2)
         /\ db_conn st2 = db_conn st).
Proof.
  intros H.
  assert (Hget : exists st1,
             get_orders_from_yq transport config st = (Ok [], st1)
             /\ db_conn st1 = db_conn st).
  { unfold get_orders_from_yq, send_request, bind, emit, log. cbn.
    destruct H as [(msg & E) | (r & E & Hs)]; rewrite E; cbn.
    - eexists. split; reflexivity.
    - rewrite Hs. eexists. split; reflexivity. }
  destruct Hget as (st1 & Hget & Hc). split.
  - now exists st1.
  - unfold sync_all_orders. erewrite bind_ok by exact Hget.
    eexists. cbn. split; [reflexivity | exact Hc].
Qed.

(** ** Reading statements *)

Lemma reading_runs {R : Type} fault s (f : server -> list R) st :
  fault s = false ->
  execute_query fault s (reading f) st
  = (Ok (f (working (db_conn st))),
     {| db_conn := db_conn st; search_index := search_index st;
        trace := trace st ++ [Execute s] |}).
Proof.
  intros Hf. unfold execute_query, cursor_execute, bind, emit, reading.
  cbn. rewrite Hf. cbn. unfold set_working, set_conn. cbn.
  now destruct (db_conn st).
Qed.

(** ** Profit *)

Lemma select_profit_rows_ok price quantity rows :
  Forall (fun r => ~ lg_qty r == 0) rows ->
  (rows <> [] -> ~ price * quantity == 0) ->
  Query.select_profit_rows price quantity rows
  = Some (map (profit_of price quantity) rows).
Proof.
  intros Hq Hp. induction Hq as [| r rest Hr _ IH]; cbn.
  - reflexivity.
  - unfold Query.profit_columns.
    destruct (Qeq_bool (lg_qty r) 0) eqn:E1.
    { apply Qeq_bool_eq in E1. contradiction. }
    destruct (Qeq_bool (price * quantity) 0) eqn:E2.
    { apply Qeq_bool_eq in E2. exfalso. apply Hp; [discriminate | exact E2]. }
    cbn. rewrite IH.
    + reflexivity.
    + intros _. apply Hp. discriminate.
Qed.

Lemma where_profit_iff goods_id code times r :
  Query.where_profit goods_id code times r = true
  <-> lg_goods r = Sql.right3 goods_id /\ lg_batch_no r = code
      /\ lg_batch r = times.
Proof.
  unfold Query.where_profit.
  rewrite !andb_true_iff, !String.eqb_eq, Z.eqb_eq. tauto.
Qed.

(** C4, as amended: with the first ledger row that matches the line's
    product, batch code and batch identifier, the profit is the margin
    [price*qty - (cost/booked)*qty] rounded to two places and the rate is
    the unrounded margin divided by [price*qty], rounded to two places,
    times 100, provided no divisor is zero; without a matching row both
    are 0. *)
Theorem get_item_profit_spec fault item batch database st :
  fault (SelectProfit (erp_goods_id item)) = false ->
  let price := Py.to_Q (sale_price (price_records item)) in
  let quantity := Py.to_Q (quantity item) in
  let rows :=
    filter (Query.where_profit (erp_goods_id item) (Query.batch_code batch)
              (Query.batch_times batch))
           (ledger (db_of database (working (db_conn st)))) in
  Forall (fun r => ~ lg_qty r == 0) rows ->
  (rows <> [] -> ~ price * quantity == 0) ->
  (forall r, In r rows <->
     In r (ledger (db_of database (working (db_conn st))))
     /\ lg_goods r = Sql.right3 (erp_goods_id item)
     /\ lg_batch_no r = Query.batch_code batch
     /\ lg_batch r = Query.batch_times batch)
  /\ exists p st',
      get_item_profit fault item batch database st = (Ok p, st')
      /\ db_conn st' = db_conn st
      /\ match rows with
         | [] => p = {| Query.profit := 0; Query.profit_rate := 0 |}
         | r :: _ =>
             let margin :=
               price * quantity - (lg_cost_amount r / lg_qty r) * quantity in
             Query.profit p = Sql.round2 margin
             /\ Query.profit_rate p
                = Sql.round2 (margin / (price * quantity)) * 100
         end.
Proof.
  intros Hf price quantity rows Hq Hp. split.
  - intros r. subst rows. rewrite filter_In, where_profit_iff. tauto.
  - unfold get_item_profit, execute_query, cursor_execute, bind, emit.
    cbn. rewrite Hf. cbn. unfold Query.select_profit.
    fold price quantity rows.
    rewrite (select_profit_rows_ok price quantity rows Hq Hp). cbn.
    eexists _, _. split; [reflexivity |]. split.
    + unfold set_working, set_conn. cbn. now destruct (db_conn st).
    + destruct rows as [| r rest]; cbn; [reflexivity | split; reflexivity].
Qed.

Lemma get_item_profit_spec_witness :
  exists p st',
    get_item_profit Scenario.no_fault Scenario.item_cheap Scenario.batch_a
      standard_prefix (Scenario.fresh Scenario.srv_cheap) = (Ok p, st')
    /\ Query.profit p == 1 # 100 /\ Query.profit_rate p == 15.
Proof.
  destruct (get_item_profit_spec Scenario.no_fault Scenario.item_cheap
              Scenario.batch_a standard_prefix
              (Scenario.fresh Scenario.srv_cheap) eq_refl)
    as (_ & p & st' & E & _ & H1 & H2).
  - repeat constructor. cbn. intros H. discriminate H.
  - intros _ H. discriminate H.
  - exists p, st'. split; [exact E |]. cbn in H1, H2.
    rewrite H1, H2. split; reflexivity.
Defined.

(** C4 as stated fails: with price 0.1, one unit and a booked unit cost of
    0.0851 the margin is 0.0149, which rounds to a profit of 0.01; the
    code's rate is 15 (from 0.149) where the rate taken from the rounded
    profit would be 10.  A line whose price is zero makes the statement
    fail on its divisor instead of yielding a rate. *)
Lemma profit_rate_counterexample :
  (exists p st',
      get_item_profit Scenario.no_fault Scenario.item_cheap Scenario.batch_a
        standard_prefix (Scenario.fresh Scenario.srv_cheap) = (Ok p, st')
      /\ Query.profit p == Spec.profit (1 # 10) 1 (851 # 100) 100
      /\ Query.profit_rate p == 15
      /\ Spec.profit_rate (1 # 10) 1 (851 # 100) 100 == 10
      /\ ~ Query.profit_rate p == Spec.profit_rate (1 # 10) 1 (851 # 100) 100)
  /\ fst (get_item_profit Scenario.no_fault Scenario.item_gift
            Scenario.batch_a standard_prefix
            (Scenario.fresh Scenario.srv_cheap))
     = Raise (DataError (SelectProfit "SPH123")).
Proof.
  split.
  - eexists _, _. split; [reflexivity |].
    repeat split; try reflexivity. intros H. discriminate H.
  - reflexivity.
Qed.

(** ** ORDER BY ... TOP 1 returns a least row *)

Module OrdFacts.

Section Laws.
Context {A : Type} (cmp : A -> A -> comparison) {laws : Ord.Laws cmp}.

Lemma cmp_refl x : cmp x x = Eq.
Proof.
  pose proof (Ord.flip x x) as H. destruct (cmp x x); cbn in H;
    congruence.
Qed.

Lemma leb_refl x : Ord.leb cmp x x = true.
Proof. unfold Ord.leb. now rewrite cmp_refl. Qed.

Lemma leb_total x y : Ord.leb cmp x y = false -> Ord.leb cmp y x = true.
Proof.
  unfold Ord.leb. rewrite (Ord.flip y x).
  destruct (cmp x y); cbn; congruence.
Qed.

Lemma eq_right x y z : cmp y z = Eq -> cmp x z = cmp x y.
Proof.
  intros H. rewrite (Ord.flip x z), (Ord.flip x y). f_equal.
  apply Ord.eq_left. rewrite Ord.flip, H. reflexivity.
Qed.

Lemma leb_trans x y z :
  Ord.leb cmp x y = true -> Ord.leb cmp y z = true ->
  Ord.leb cmp x z = true.
Proof.
  unfold Ord.leb. destruct (cmp x y) eqn:Exy; try discriminate; intros _.
  - now rewrite (Ord.eq_left _ _ z Exy).
  - destruct (cmp y z) eqn:Eyz; try discriminate; intros _.
    + now rewrite (eq_right x y z Eyz), Exy.
    + now rewrite (Ord.lt_trans _ _ _ Exy Eyz).
Qed.
End Laws.

#[export] Instance string_laws : Ord.Laws String.compare.
Proof.
  split.
  - apply String.compare_antisym.
  - intros x y z H. apply String.compare_eq_iff in H. now subst.
  - intros x y z H1 H2. apply String_as_OT.cmp_lt.
    apply String_as_OT.cmp_lt in H1, H2.
    eapply String_as_OT.lt_trans; eassumption.
Qed.

#[export] Instance Q_laws : Ord.Laws Qcompare.
Proof.
  split.
  - intros x y. now rewrite <- Qcompare_antisym.
  - intros x y z H. apply Qeq_alt in H. now rewrite H.
  - intros x y z H1 H2. apply Qlt_alt. apply Qlt_alt in H1, H2.
    eapply Qlt_trans; eassumption.
Qed.

#[export] Instance opt_laws {A : Type} (cmp : A -> A -> comparison)
  {laws : Ord.Laws cmp} : Ord.Laws (Ord.opt cmp).
Proof.
  split.
  - intros [x |] [y |]; cbn; try reflexivity. apply Ord.flip.
  - intros [x |] [y |] [z |]; cbn; try discriminate; try reflexivity.
    apply Ord.eq_left.
  - intros [x |] [y |] [z |]; cbn; try discriminate; try reflexivity.
    apply Ord.lt_trans.
Qed.

#[export] Instance lex_laws {A B : Type} (ca : A -> A -> comparison)
  (cb : B -> B -> comparison) {la : Ord.Laws ca} {lb : Ord.Laws cb}
  : Ord.Laws (Ord.lex ca cb).
Proof.
  split.
  - intros [a1 b1] [a2 b2]. unfold Ord.lex. cbn.
    rewrite (Ord.flip a1 a2). destruct (ca a2 a1); cbn; try reflexivity.
    apply Ord.flip.
  - intros [a1 b1] [a2 b2] [a3 b3]. unfold Ord.lex. cbn.
    destruct (ca a1 a2) eqn:E; try discriminate. intros H.
    rewrite (Ord.eq_left _ _ a3 E). destruct (ca a2 a3); try reflexivity.
    now apply Ord.eq_left.
  - intros [a1 b1] [a2 b2] [a3 b3]. unfold Ord.lex. cbn.
    destruct (ca a1 a2) eqn:E12; try discriminate;
      destruct (ca a2 a3) eqn:E23; try discriminate; intros H1 H2.
    + rewrite (Ord.eq_left _ _ a3 E12), E23.
      eapply Ord.lt_trans; eassumption.
    + now rewrite (Ord.eq_left _ _ a3 E12), E23.
    + now rewrite (eq_right ca a1 a2 a3 E23), E12.
    + now rewrite (Ord.lt_trans _ _ _ E12 E23).
Qed.

#[export] Instance key_laws : Ord.Laws Query.key_compare.
Proof. unfold Query.key_compare. typeclasses eauto. Qed.

Section Sorting.
Context {A K : Type} (key : A -> K) (cmp : K -> K -> comparison)
  {laws : Ord.Laws cmp}.

Lemma insert_In x y l : In y (Ord.insert key cmp x l) <-> y = x \/ In y l.
Proof.
  induction l as [| h t IH]; cbn.
  - intuition congruence.
  - destruct (Ord.leb cmp (key x) (key h)); cbn.
    + intuition congruence.
    + rewrite IH. intuition congruence.
Qed.

Lemma order_by_In y l : In y (Ord.order_by key cmp l) <-> In y l.
Proof.
  induction l as [| h t IH]; cbn.
  - tauto.
  - rewrite insert_In, IH. intuition congruence.
Qed.

Lemma insert_head_least x l :
  Ord.head_least key cmp l ->
  Ord.head_least key cmp (Ord.insert key cmp x l).
Proof.
  destruct l as [| h t]; cbn.
  - intros _ y [<- | []]. now apply leb_refl.
  - intros H. destruct (Ord.leb cmp (key x) (key h)) eqn:E; cbn.
    + intros y [<- | Hy].
      * now apply leb_refl.
      * eapply leb_trans; [assumption | exact E | now apply H].
    + intros y [<- | Hy].
      * now apply leb_refl.
      * apply insert_In in Hy as [-> | Hy].
        -- now apply leb_total.
        -- apply H. now right.
Qed.

Lemma order_by_head_least l :
  Ord.head_least key cmp (Ord.order_by key cmp l).
Proof.
  induction l as [| h t IH]; cbn; [exact I | now apply insert_head_least].
Qed.

Lemma top1_none l : Ord.top1 key cmp l = None <-> l = [].
Proof.
  unfold Ord.top1. split.
  - destruct l as [| h t]; [reflexivity |]. intros H. exfalso.
    destruct (Ord.order_by key cmp (h :: t)) as [| x s] eqn:E;
      [| discriminate H].
    assert (Hin : In h (Ord.order_by key cmp (h :: t)))
      by (apply order_by_In; now left).
    rewrite E in Hin. destruct Hin.
  - intros ->. reflexivity.
Qed.

Lemma top1_least l x :
  Ord.top1 key cmp l = Some x ->
  In x l /\ forall y, In y l -> Ord.leb cmp (key x) (key y) = true.
Proof.
  unfold Ord.top1. intros H.
  pose proof (order_by_head_least l) as Hl.
  destruct (Ord.order_by key cmp l) as [| h s] eqn:E; [discriminate H |].
  cbn in H. injection H as ->. split.
  - apply order_by_In. rewrite E. now left.
  - intros y Hy. apply Hl. rewrite <- E. now apply order_by_In.
Qed.
End Sorting.

End OrdFacts.

(** ** The canonical date string sorts like the date *)

Module DateFacts.

Lemma comparison_eqb_eq c1 c2 : Ord.comparison_eqb c1 c2 = true -> c1 = c2.
Proof. destruct c1, c2; cbn; congruence. Qed.

Lemma pad2_compare a b :
  (a < 100)%nat -> (b < 100)%nat ->
  String.compare (Query.pad2 a) (Query.pad2 b) = Nat.compare a b.
Proof.
  intros Ha Hb.
  assert (H : forallb (fun x =>
                 forallb (fun y =>
                    Ord.comparison_eqb
                      (String.compare (Query.pad2 x) (Query.pad2 y))
                      (Nat.compare x y))
                   (seq 0 100))
                (seq 0 100) = true) by (vm_compute; reflexivity).
  rewrite forallb_forall in H.
  assert (Ia : In a (seq 0 100)) by (apply in_seq; lia).
  assert (Ib : In b (seq 0 100)) by (apply in_seq; lia).
  specialize (H a Ia). rewrite forallb_forall in H.
  apply comparison_eqb_eq, H, Ib.
Qed.

Lemma compare_app a b c d :
  String.length a = String.length c ->
  String.compare (a ++ b) (c ++ d)
  = match String.compare a c with
    | Eq => String.compare b d
    | r => r
    end.
Proof.
  revert c. induction a as [| x a IH]; intros [| y c]; cbn;
    try discriminate; [reflexivity |].
  intros H. injection H as H.
  destruct (Ascii.compare x y); [now apply IH | reflexivity | reflexivity].
Qed.

Lemma compare_sep (sep : ascii) s t :
  String.compare (String sep s) (String sep t) = String.compare s t.
Proof.
  cbn. assert (E : Ascii.compare sep sep = Eq).
  { apply Ascii_as_OT.cmp_eq. reflexivity. }
  now rewrite E.
Qed.

Lemma compare_hundreds a b :
  Nat.compare a b
  = match Nat.compare (a / 100) (b / 100) with
    | Eq => Nat.compare (a mod 100) (b mod 100)
    | r => r
    end.
Proof.
  pose proof (Nat.div_mod_eq a 100) as Da.
  pose proof (Nat.div_mod_eq b 100) as Db.
  pose proof (Nat.mod_upper_bound a 100 ltac:(lia)) as Ma.
  pose proof (Nat.mod_upper_bound b 100 ltac:(lia)) as Mb.
  destruct (Nat.compare_spec (a / 100) (b / 100)) as [E | L | L].
  - destruct (Nat.compare_spec (a mod 100) (b mod 100)) as [E' | L' | L'].
    + apply Nat.compare_eq_iff. lia.
    + apply Nat.compare_lt_iff. lia.
    + apply Nat.compare_gt_iff. lia.
  - apply Nat.compare_lt_iff. lia.
  - apply Nat.compare_gt_iff. lia.
Qed.

Lemma pad4_compare a b :
  (a < 100 * 100)%nat -> (b < 100 * 100)%nat ->
  String.compare (Query.pad4 a) (Query.pad4 b) = Nat.compare a b.
Proof.
  intros Ha Hb. unfold Query.pad4.
  rewrite compare_app by reflexivity.
  rewrite !pad2_compare, <- compare_hundreds; try reflexivity.
  - apply Nat.mod_upper_bound. lia.
  - apply Nat.mod_upper_bound. lia.
  - apply Nat.Div0.div_lt_upper_bound. lia.
  - apply Nat.Div0.div_lt_upper_bound. lia.
Qed.

(** [CONVERT(VARCHAR(20), d, 120)] orders datetimes chronologically. *)
Lemma convert120_compare d1 d2 :
  Spec.datetime_wf d1 -> Spec.datetime_wf d2 ->
  String.compare (Query.convert120 d1) (Query.convert120 d2)
  = Spec.datetime_compare d1 d2.
Proof.
  intros (Y1 & M1 & D1 & H1 & I1 & S1) (Y2 & M2 & D2 & H2 & I2 & S2).
  unfold Query.convert120, Spec.datetime_compare, Spec.datetime_fields,
    Ord.lex. cbn [fst snd].
  rewrite compare_app by reflexivity. rewrite pad4_compare by assumption.
  destruct (Nat.compare (year d1) (year d2)); try reflexivity.
  change ("-" ++ ?x) with (String "-" x). rewrite compare_sep.
  rewrite compare_app by reflexivity. rewrite pad2_compare by assumption.
  destruct (Nat.compare (month d1) (month d2)); try reflexivity.
  change ("-" ++ ?x) with (String "-" x). rewrite compare_sep.
  rewrite compare_app by reflexivity. rewrite pad2_compare by assumption.
  destruct (Nat.compare (day d1) (day d2)); try reflexivity.
  change (" " ++ ?x) with (String " " x). rewrite compare_sep.
  rewrite compare_app by reflexivity. rewrite pad2_compare by assumption.
  destruct (Nat.compare (hour d1) (hour d2)); try reflexivity.
  change (":" ++ ?x) with (String ":" x). rewrite compare_sep.
  rewrite compare_app by reflexivity. rewrite pad2_compare by assumption.
  destruct (Nat.compare (minute d1) (minute d2)); try reflexivity.
  change (":" ++ ?x) with (String ":" x). rewrite compare_sep.
  now apply pad2_compare.
Qed.

Lemma opt_convert120_compare d1 d2 :
  Spec.opt_wf d1 -> Spec.opt_wf d2 ->
  Ord.opt String.compare (option_map Query.convert120 d1)
    (option_map Query.convert120 d2)
  = Ord.opt Spec.datetime_compare d1 d2.
Proof.
  destruct d1, d2; cbn; try reflexivity. apply convert120_compare.
Qed.

(** The ORDER BY of the allocator is: expiry date, production date,
    pack size. *)
Lemma key_compare_batch_order j1 j2 :
  Spec.batch_goods_wf (Query.ja j1) -> Spec.batch_goods_wf (Query.ja j2) ->
  Query.key_compare (Query.batch_key j1) (Query.batch_key j2)
  = Spec.batch_order j1 j2.
Proof.
  intros [E1 P1] [E2 P2].
  unfold Query.key_compare, Query.batch_key, Spec.batch_order, Ord.lex.
  cbn [fst snd].
  rewrite !opt_convert120_compare by assumption. reflexivity.
Qed.

End DateFacts.

(** ** The batch allocator *)

Lemma left_join_In {A B : Type} (on : A -> B -> bool) l r a ob :
  In (a, ob) (Query.left_join on l r) ->
  In a l /\ match ob with
            | Some b => In b r /\ on a b = true
            | None => True
            end.
Proof.
  unfold Query.left_join. rewrite in_flat_map.
  intros (a' & Ha & Hin).
  destruct (filter (on a') r) as [| b0 m] eqn:E.
  - destruct Hin as [H | []]. injection H as <- <-. now split.
  - rewrite <- E in Hin. apply in_map_iff in Hin as (b & H & Hb).
    injection H as <- <-. apply filter_In in Hb. now split.
Qed.

Lemma batch_from_In s database j :
  In j (Query.batch_from s database) ->
  In (Query.ja j) (batch_goods_tbl (db_of database s))
  /\ match Query.jb j with
     | Some b => In b (ledger (db_of database s))
                 /\ Query.on_ledger (Query.ja j) b = true
     | None => True
     end.
Proof.
  destruct j as [[a ob] oc]. unfold Query.batch_from. intros H.
  apply left_join_In in H as [H _]. now apply left_join_In in H.
Qed.

Lemma unreserved_held j b :
  Query.jb j = Some b ->
  Query.unreserved j
  = lg_qty b - Spec.held (lg_picking b) - Spec.held (lg_concurrent b).
Proof.
  intros E.
  unfold Query.unreserved, Query.b_qty, Query.b_picking, Query.b_concurrent.
  rewrite E. cbn. unfold Sql.clamp0, Spec.held.
  destruct (lg_picking b) as [p |], (lg_concurrent b) as [c |]; cbn;
    repeat match goal with
           | |- context [Qle_bool ?x 0] => destruct (Qle_bool x 0)
           end; reflexivity.
Qed.

Lemma unreserved_none j : Query.jb j = None -> Query.unreserved j = 0.
Proof.
  intros E.
  unfold Query.unreserved, Query.b_qty, Query.b_picking, Query.b_concurrent.
  rewrite E. reflexivity.
Qed.

Lemma gt0_iff x : Sql.gt0 x = true <-> 0 < x.
Proof.
  unfold Sql.gt0. rewrite negb_true_iff. split.
  - intros H. apply Qnot_le_lt. intros L. apply Qle_bool_iff in L. congruence.
  - intros H. destruct (Qle_bool x 0) eqn:E; [| reflexivity].
    apply Qle_bool_iff in E. exfalso. eapply Qlt_not_le; eassumption.
Qed.

Lemma where_hint_iff hint j :
  Query.where_hint hint j = true
  <-> match hint with
      | None => True
      | Some (code, times) =>
          bg_print_no (Query.ja j) = code /\ bg_id (Query.ja j) = times
      end.
Proof.
  destruct hint as [[code times] |]; cbn; [| tauto].
  now rewrite andb_true_iff, String.eqb_eq, Z.eqb_eq.
Qed.

Lemma where_batch_iff goods_id hint j :
  Query.where_batch goods_id hint j = true
  <-> Query.where_product goods_id j = true
      /\ match hint with
         | None => True
         | Some (code, times) =>
             bg_print_no (Query.ja j) = code /\ bg_id (Query.ja j) = times
         end
      /\ exists b,
           Query.jb j = Some b
           /\ 0 < lg_qty b - Spec.held (lg_picking b)
                  - Spec.held (lg_concurrent b).
Proof.
  unfold Query.where_batch.
  rewrite !andb_true_iff, where_hint_iff, gt0_iff.
  destruct (Query.jb j) as [b |] eqn:E.
  - rewrite (unreserved_held j b E). split.
    + intros [[H1 H2] H3]. repeat split; try assumption. now exists b.
    + intros (H1 & H2 & b' & Hb & H3). injection Hb as <-. tauto.
  - rewrite (unreserved_none j E). split.
    + intros [_ H]. now apply Qlt_irrefl in H.
    + intros (_ & _ & b & Hb & _). discriminate Hb.
Qed.

Lemma get_item_batch_runs fault item database st hint :
  fault (SelectBatch (erp_goods_id item)) = false ->
  Spec.hint_of item = Some hint ->
  get_item_batch fault item database st
  = (Ok (option_map Query.batch_columns
           (Query.select_batch_row (erp_goods_id item) hint
              (working (db_conn st)) database)),
     {| db_conn := db_conn st; search_index := search_index st;
        trace := trace st ++ [Execute (SelectBatch (erp_goods_id item))] |}).
Proof.
  intros Hf Hh. unfold get_item_batch, Spec.hint_of in *.
  assert (Hd : forall h,
             hd_error (Query.select_batch (erp_goods_id item) h
                         (working (db_conn st)) database)
             = option_map Query.batch_columns
                 (Query.select_batch_row (erp_goods_id item) h
                    (working (db_conn st)) database)).
  { intros h. unfold Query.select_batch.
    now destruct (Query.select_batch_row _ _ _ _). }
  destruct (Py.get_truthy (erp_stock_id item)).
  - destruct (selected_batch_code item) as [code |]; [| discriminate Hh].
    destruct (selected_batch_times item) as [times |]; [| discriminate Hh].
    injection Hh as <-.
    erewrite bind_ok by (apply reading_runs; exact Hf).
    unfold ret. now rewrite Hd.
  - injection Hh as <-.
    erewrite bind_ok by (apply reading_runs; exact Hf).
    unfold ret. now rewrite Hd.
Qed.

(** C3, as amended: the allocator considers the joined batch rows of the
    line's product whose unreserved quantity is strictly positive, where
    that quantity is on hand minus the in-transit hold minus the reserved
    hold and a NULL or negative hold counts as zero; with a stock hint it
    also requires the hinted batch code and identifier; it returns a row
    that no eligible row precedes under ascending expiry date, then
    production date, then pack size; and when no row is eligible the line
    is skipped with a warning and the loop goes on to the next line. *)
Theorem get_item_batch_spec fault item database st hint :
  fault (SelectBatch (erp_goods_id item)) = false ->
  Spec.hint_of item = Some hint ->
  Forall Spec.batch_goods_wf
    (batch_goods_tbl (db_of database (working (db_conn st)))) ->
  let rows := Query.batch_from (working (db_conn st)) database in
  let eligible :=
    filter (Query.where_batch (erp_goods_id item) hint) rows in
  let chosen := Ord.top1 Query.batch_key Query.key_compare eligible in
  (forall j, In j eligible <->
     In j rows
     /\ Query.where_product (erp_goods_id item) j = true
     /\ match hint with
        | None => True
        | Some (code, times) =>
            bg_print_no (Query.ja j) = code /\ bg_id (Query.ja j) = times
        end
     /\ exists b,
          Query.jb j = Some b
          /\ 0 < lg_qty b - Spec.held (lg_picking b)
                 - Spec.held (lg_concurrent b))
  /\ (exists st',
         get_item_batch fault item database st
         = (Ok (option_map Query.batch_columns chosen), st')
         /\ db_conn st' = db_conn st)
  /\ match chosen with
     | None => eligible = []
     | Some j =>
         In j eligible
         /\ forall j', In j' eligible -> Spec.batch_order j j' <> Gt
     end
  /\ (eligible = [] ->
      forall float_repr idx sheet_root_id rest,
      exists st',
        insert_order_details_from float_repr fault idx sheet_root_id
          (item :: rest) database st
        = insert_order_details_from float_repr fault (S idx) sheet_root_id
            rest database st'
        /\ db_conn st' = db_conn st
        /\ trace st'
           = (trace st
                ++ [Execute (SelectBatch (erp_goods_id item));
                    Log Warning ("商品批次不可用: " ++ erp_sku_sn item)])%list).
Proof.
  intros Hf Hh Hwf rows eligible chosen.
  split; [| split; [| split]].
  - intros j. subst eligible. rewrite filter_In, where_batch_iff. tauto.
  - eexists. split; [now apply get_item_batch_runs | reflexivity].
  - destruct chosen as [j |] eqn:E; subst chosen.
    + destruct (@OrdFacts.top1_least _ _ Query.batch_key Query.key_compare
                  OrdFacts.key_laws eligible j E) as [Hin Hle].
      split; [exact Hin |]. intros j' Hj'. specialize (Hle j' Hj').
      assert (W : forall x, In x eligible -> Spec.batch_goods_wf (Query.ja x)).
      { intros x Hx. apply filter_In in Hx as [Hx _].
        apply batch_from_In in Hx as [Hx _].
        rewrite Forall_forall in Hwf. now apply Hwf. }
      rewrite <- DateFacts.key_compare_batch_order by now apply W.
      unfold Ord.leb in Hle.
      destruct (Query.key_compare _ _); congruence.
    + now apply OrdFacts.top1_none in E.
  - intros Hnone float_repr idx sheet_root_id rest. cbn.
    erewrite bind_ok by (apply get_item_batch_runs; eassumption).
    unfold Query.select_batch_row. fold rows eligible. rewrite Hnone. cbn.
    eexists. split; [reflexivity |]. cbn. split; [reflexivity |].
    now rewrite <- app_assoc.
Qed.

Lemma get_item_batch_spec_witness :
  exists st',
    get_item_batch Scenario.no_fault Scenario.item1 standard_prefix
      Scenario.st0
    = (Ok (Some {| Query.batch_code := "A"; Query.batch_times := 1;
                   Query.bz := Some 10; Query.concurrent := Some 5;
                   Query.price_y := 0; Query.qty := 100 - 0 - 5 |}), st').
Proof.
  destruct (get_item_batch_spec Scenario.no_fault Scenario.item1
              standard_prefix Scenario.st0 None eq_refl eq_refl)
    as (_ & (st' & E & _) & _).
  - apply Forall_cons; [| apply Forall_nil].
    repeat split; apply Nat.ltb_lt; vm_compute; reflexivity.
  - exists st'. exact E.
Defined.

(** C3 as stated fails: batch 1 expires first and has 3 on hand, -5 in
    transit and 4 reserved, so on hand minus in transit minus reserved is
    4 and the specification's allocator returns it; the code counts the
    negative hold as zero, finds -1, and returns batch 2.  With batch 1
    alone the code skips the line although that quantity is positive. *)
Lemma batch_choice_counterexample :
  option_map (fun j => bg_id (Query.ja j))
    (Spec.select_batch_row "SPH123" None Scenario.srv_negative
       standard_prefix) = Some 1%Z
  /\ option_map (option_map Query.batch_times)
       (match fst (get_item_batch Scenario.no_fault Scenario.item1
                     standard_prefix (Scenario.fresh Scenario.srv_negative))
        with
        | Ok b => Some b
        | Raise _ => None
        end) = Some (Some 2%Z).
Proof. split; reflexivity. Qed.

(** ** Every engine function moves the connection by steps *)

Lemma steps_trans allowed rb c1 c2 c3 :
  conn_steps allowed rb c1 c2 -> conn_steps allowed rb c2 c3 -> conn_steps allowed rb c1 c3.
Proof.
  intros H12 H23. induction H23 as [| c2 c3 c4 _ IH Hs].
  - exact H12.
  - eapply steps_more; [now apply IH | exact Hs].
Qed.

Lemma steps_one allowed rb c1 c2 : conn_step allowed rb c1 c2 -> conn_steps allowed rb c1 c2.
Proof. intros H. eapply steps_more; [apply steps_refl | exact H]. Qed.

Create HintDb moves.

Lemma moves_ret allowed rb {A : Type} (a : A) : moves allowed rb (ret a).
Proof. intros st r st' E. inversion E; subst. apply steps_refl. Qed.

Lemma moves_raise allowed rb {A : Type} e : moves allowed rb (@raise A e).
Proof. intros st r st' E. inversion E; subst. apply steps_refl. Qed.

Lemma moves_bind allowed rb {A B : Type} (m : M A) (f : A -> M B) :
  moves allowed rb m -> (forall a, moves allowed rb (f a)) -> moves allowed rb (bind m f).
Proof.
  intros Hm Hf st r st' E. unfold bind in E.
  destruct (m st) as [[a | e] st1] eqn:Em.
  - eapply steps_trans; [eapply Hm; eassumption | eapply Hf; eassumption].
  - inversion E; subst. eapply Hm; eassumption.
Qed.

Lemma moves_emit allowed rb e : moves allowed rb (emit e).
Proof. intros st r st' E. inversion E; subst. apply steps_refl. Qed.

Lemma moves_log allowed rb l msg : moves allowed rb (log l msg).
Proof. apply moves_emit. Qed.

Lemma moves_set_search_index allowed rb s : moves allowed rb (set_search_index s).
Proof. intros st r st' E. inversion E; subst. apply steps_refl. Qed.

Lemma moves_cursor_commit allowed rb : moves allowed rb cursor_commit.
Proof.
  intros st r st' E. inversion E; subst. cbn.
  apply steps_one, step_commit.
Qed.

Lemma moves_conn_commit allowed rb : moves allowed rb conn_commit.
Proof.
  intros st r st' E. inversion E; subst. cbn.
  apply steps_one, step_commit.
Qed.

Lemma moves_conn_rollback allowed : moves allowed true conn_rollback.
Proof.
  intros st r st' E. inversion E; subst. cbn.
  now apply steps_one, step_rollback.
Qed.

Lemma moves_if allowed rb {A : Type} (b : bool) (m1 m2 : M A) :
  moves allowed rb m1 -> moves allowed rb m2 -> moves allowed rb (if b then m1 else m2).
Proof. now destruct b. Qed.

Lemma moves_cursor_execute allowed rb fault {R : Type} s
    (run : server -> option (server * R)) :
  run_ok allowed run -> moves allowed rb (cursor_execute fault s run).
Proof.
  intros Hrun. unfold cursor_execute. apply moves_bind.
  - apply moves_emit.
  - intros _. destruct (fault s); [apply moves_raise |].
    intros st r st' E.
    destruct (run (working (db_conn st))) as [[srv rows] |] eqn:Er.
    + inversion E; subst. cbn.
      destruct (Hrun _ _ _ Er) as [-> | (database & tb & d' & Ha & Hw & ->)].
      * destruct (db_conn st). apply steps_refl.
      * now apply steps_one, step_write with tb.
    + inversion E; subst. apply steps_refl.
Qed.

Lemma moves_execute_query allowed rb fault {R : Type} s
    (run : server -> option (server * list R)) :
  run_ok allowed run -> moves allowed rb (execute_query fault s run).
Proof. apply moves_cursor_execute. Qed.

Lemma moves_execute_non_query allowed rb fault s run :
  run_ok allowed run -> moves allowed rb (execute_non_query fault s run).
Proof.
  intros Hrun. unfold execute_non_query.
  apply moves_bind; [now apply moves_cursor_execute |]. intros rowcount.
  apply moves_bind; [apply moves_cursor_commit |]. intros _.
  apply moves_ret.
Qed.

Lemma run_ok_reading allowed {R : Type} (f : server -> list R) :
  run_ok allowed (reading f).
Proof. intros s s' rows E. injection E as <- _. now left. Qed.

Lemma run_ok_writing allowed tb database (f : dbase -> dbase * nat) :
  allowed tb = true ->
  (forall d, write_step d tb (fst (f d))) ->
  run_ok allowed (writing database f).
Proof.
  intros Ha Hf s s' rows E. unfold writing in E.
  specialize (Hf (db_of database s)).
  destruct (f (db_of database s)) as [d n]. injection E as <- _.
  right. now exists database, tb, d.
Qed.

#[export] Hint Resolve moves_ret moves_raise moves_emit moves_log
  moves_set_search_index moves_cursor_commit moves_conn_commit
  moves_execute_query moves_execute_non_query run_ok_reading : moves.

Ltac moves_step :=
  first [ solve [ auto with moves ]
        | apply moves_bind; [| intros ? ]
        | apply moves_if ].

Section EngineMoves.
Variable float_repr : Q -> string.
Variable fault : stmt -> bool.
Variable transport : http_method -> string -> payload -> http_outcome.
Variable config : config_t.
Variable allowed : table -> bool.
Variable rb : bool.

Lemma moves_send_request method url data :
  moves allowed rb (send_request transport method url data).
Proof.
  unfold send_request. apply moves_bind; [apply moves_emit |]. intros _.
  destruct (transport method url data); repeat moves_step.
Qed.

Lemma moves_get_orders_from_yq :
  moves allowed rb (get_orders_from_yq transport config).
Proof.
  unfold get_orders_from_yq.
  apply moves_bind; [apply moves_send_request | intros ?; apply moves_ret].
Qed.

Lemma moves_get_customer_info o database :
  moves allowed rb (get_customer_info fault o database).
Proof. unfold get_customer_info. repeat moves_step. Qed.

Lemma moves_order_exists o database :
  moves allowed rb (order_exists fault o database).
Proof. unfold order_exists. repeat moves_step. Qed.

Lemma moves_insert_sheet_roots o c database :
  allowed TSheetRoots = true ->
  moves allowed rb (insert_sheet_roots fault o c database).
Proof.
  intros Ha.
  unfold insert_sheet_roots. apply moves_bind; [| intros ?; apply moves_ret].
  apply moves_execute_query. intros s s' rows E. injection E as <- _.
  right. eexists _, TSheetRoots, _.
  split; [exact Ha | split; [apply write_roots | reflexivity]].
Qed.

Lemma moves_insert_status_flow o root database :
  allowed TStatusFlow = true ->
  moves allowed rb (insert_status_flow fault config o root database).
Proof.
  intros Ha.
  unfold insert_status_flow. apply moves_bind; [| intros ?; apply moves_ret].
  apply moves_execute_query. intros s s' rows E. injection E as <- _.
  right. eexists _, TStatusFlow, _.
  split; [exact Ha | split; [apply write_flows | reflexivity]].
Qed.

Lemma moves_update_sheet_root_status root flow database :
  allowed TSheetRoots = true ->
  moves allowed rb (update_sheet_root_status fault root flow database).
Proof.
  intros Ha. unfold update_sheet_root_status.
  apply moves_bind; [| intros ?; apply moves_ret].
  apply moves_execute_non_query, (run_ok_writing _ TSheetRoots);
    [exact Ha | intros d; apply write_roots].
Qed.

Lemma moves_insert_sheet_order root o c database :
  allowed TSheetOrder = true ->
  moves allowed rb
    (insert_sheet_order float_repr fault config root o c database).
Proof.
  intros Ha. unfold insert_sheet_order.
  apply moves_bind; [| intros ?; apply moves_ret].
  apply moves_execute_non_query, (run_ok_writing _ TSheetOrder);
    [exact Ha | intros d; apply write_orders].
Qed.

Lemma moves_get_item_batch item database :
  moves allowed rb (get_item_batch fault item database).
Proof.
  unfold get_item_batch.
  destruct (Py.get_truthy _);
    [destruct (selected_batch_code item), (selected_batch_times item) |];
    repeat moves_step.
Qed.

Lemma moves_get_item_tax_info item database :
  moves allowed rb (get_item_tax_info fault item database).
Proof. unfold get_item_tax_info. repeat moves_step. Qed.

Lemma moves_get_item_profit item batch database :
  moves allowed rb (get_item_profit fault item batch database).
Proof.
  unfold get_item_profit. apply moves_bind; [| intros ?; apply moves_ret].
  apply moves_execute_query. intros s s' rows E.
  destruct (Query.select_profit _ _ _ _ _ _); [| discriminate E].
  injection E as <- _. now left.
Qed.

Lemma moves_update_stock_concurrency item batch database :
  allowed TLedger = true ->
  moves allowed rb (update_stock_concurrency fault item batch database).
Proof.
  intros Ha. unfold update_stock_concurrency.
  apply moves_bind; [| intros ?; apply moves_ret].
  apply moves_execute_non_query, (run_ok_writing _ TLedger);
    [exact Ha | intros d; apply write_ledger].
Qed.

Lemma moves_divisor bz : moves allowed rb (divisor bz).
Proof.
  unfold divisor. destruct bz as [p |]; [| apply moves_raise].
  destruct (Qeq_bool p 0); auto with moves.
Qed.

Lemma moves_insert_order_details_from idx root items database :
  allowed TOrderDetail = true -> allowed TLedger = true ->
  moves allowed rb
    (insert_order_details_from float_repr fault idx root items database).
Proof.
  intros Hd Hl. revert idx. induction items as [| item rest IH]; intros idx; cbn.
  - apply moves_ret.
  - apply moves_bind; [apply moves_get_item_batch |]. intros [batch |].
    + apply moves_bind; [apply moves_get_item_tax_info |]. intros tax_info.
      apply moves_bind; [apply moves_get_item_profit |]. intros profit_info.
      apply moves_bind; [apply moves_divisor |]. intros pack.
      apply moves_bind.
      { apply moves_execute_non_query, (run_ok_writing _ TOrderDetail);
          [exact Hd | intros d; apply write_details]. }
      intros _.
      apply moves_bind; [now apply moves_update_stock_concurrency |].
      intros _. apply IH.
    + apply moves_bind; [apply moves_log |]. intros _. apply IH.
Qed.

Lemma moves_order_details_exist root database :
  moves allowed rb (order_details_exist fault root database).
Proof. unfold order_details_exist. repeat moves_step. Qed.

Lemma moves_customer_id_of o : moves allowed rb (customer_id_of o).
Proof.
  unfold customer_id_of. destruct (erp_customer_id o); auto with moves.
Qed.

Lemma moves_save_mid_order o database :
  allowed TMidOrder = true ->
  moves allowed rb (save_mid_order fault o database).
Proof.
  intros Ha. unfold save_mid_order.
  apply moves_bind; [apply moves_customer_id_of |]. intros cid.
  apply moves_bind; [| intros ?; apply moves_ret].
  apply moves_execute_non_query, (run_ok_writing _ TMidOrder);
    [exact Ha | intros d; apply write_mid].
Qed.

Lemma moves_notify_order_sync_success o :
  moves allowed rb (notify_order_sync_success transport o).
Proof.
  unfold notify_order_sync_success.
  apply moves_bind; [apply moves_customer_id_of |]. intros cid.
  apply moves_bind; [apply moves_send_request | intros ?; apply moves_ret].
Qed.

Lemma moves_sync_order_body o :
  (forall tb, allowed tb = true) ->
  moves allowed rb (sync_order_body float_repr fault transport config o).
Proof.
  intros Ha. unfold sync_order_body.
  apply moves_bind; [apply moves_set_search_index |]. intros _.
  apply moves_bind; [apply moves_log |]. intros _.
  apply moves_if; [apply moves_raise |].
  apply moves_bind; [apply moves_get_customer_info |]. intros [c |].
  2: { apply moves_bind; [apply moves_log | intros _; apply moves_ret]. }
  apply moves_bind; [apply moves_order_exists |]. intros found.
  apply moves_if.
  { apply moves_bind; [apply moves_log | intros _; apply moves_ret]. }
  apply moves_bind; [now apply moves_insert_sheet_roots |]. intros root.
  apply moves_bind; [now apply moves_insert_status_flow |]. intros flow.
  apply moves_bind; [now apply moves_update_sheet_root_status |]. intros _.
  apply moves_bind; [now apply moves_insert_sheet_order |]. intros _.
  apply moves_bind; [now apply moves_insert_order_details_from |]. intros _.
  apply moves_bind; [now apply moves_save_mid_order |]. intros _.
  apply moves_bind; [apply moves_order_details_exist |]. intros verified.
  apply moves_if; [apply moves_raise |].
  apply moves_bind; [apply moves_notify_order_sync_success |]. intros _.
  apply moves_bind; [apply moves_conn_commit |]. intros _.
  apply moves_bind; [apply moves_log | intros _; apply moves_ret].
Qed.
End EngineMoves.

Lemma moves_sync_order float_repr fault transport config o :
  moves every_table true (sync_order float_repr fault transport config o).
Proof.
  intros st r st' E. unfold sync_order, try_except in E.
  destruct (sync_order_body float_repr fault transport config o st)
    as [[b | e] st1] eqn:Eb.
  - inversion E; subst.
    eapply (moves_sync_order_body _ _ _ _ every_table true);
      [reflexivity | eassumption].
  - eapply steps_trans.
    + eapply (moves_sync_order_body _ _ _ _ every_table true);
        [reflexivity | eassumption].
    + revert E. apply moves_bind; [apply moves_conn_rollback |]. intros _.
      apply moves_bind; [apply moves_log | intros _; apply moves_ret].
Qed.

Lemma moves_sync_loop float_repr fault transport config orders n :
  moves every_table true (sync_loop float_repr fault transport config orders n).
Proof.
  revert n. induction orders as [| o rest IH]; intros n; cbn.
  - apply moves_ret.
  - apply moves_bind; [apply moves_sync_order | intros ok; apply IH].
Qed.

Lemma moves_sync_all_orders float_repr fault transport config :
  moves every_table true (sync_all_orders float_repr fault transport config).
Proof.
  unfold sync_all_orders.
  apply moves_bind; [apply moves_get_orders_from_yq |]. intros [| o rest].
  - apply moves_bind; [apply moves_log | intros _; apply moves_ret].
  - apply moves_bind; [apply moves_sync_loop |]. intros n.
    apply moves_bind; [apply moves_log | intros _; apply moves_ret].
Qed.

(** ** What steps leave alone *)

Lemma steps_invariant allowed rb (P : connection -> Prop) :
  (forall c c', P c -> conn_step allowed rb c c' -> P c') ->
  forall c c', conn_steps allowed rb c c' -> P c -> P c'.
Proof.
  intros Hstep c c' H. induction H as [| c1 c2 c3 _ IH Hs]; intros Hc.
  - exact Hc.
  - eapply Hstep; [apply IH, Hc | exact Hs].
Qed.

Lemma db_of_set_db_cases D database d' s :
  (db_of D (set_db database d' s) = d' /\ db_of D s = db_of database s)
  \/ db_of D (set_db database d' s) = db_of D s.
Proof.
  unfold db_of, set_db.
  destruct (String.eqb D herbal_prefix) eqn:E1,
           (String.eqb database herbal_prefix) eqn:E2; cbn; rewrite ?E1;
    auto.
Qed.

(** A column set no allowed write changes is the same after any number of
    writes and commits, seen from inside the transaction. *)
Lemma steps_frame {X : Type} (proj : dbase -> X) allowed :
  (forall d tb d', allowed tb = true -> write_step d tb d' ->
                   proj d' = proj d) ->
  forall D c c', conn_steps allowed false c c' ->
                 proj (db_of D (working c')) = proj (db_of D (working c)).
Proof.
  intros Hw D c c' H.
  apply (steps_invariant allowed false
           (fun x => proj (db_of D (working x))
                     = proj (db_of D (working c)))) with (c := c);
    [| exact H | reflexivity].
  intros c1 c2 Hc Hs. destruct Hs as [c1 database tb d' Ha Hws | c1 | c1 Hrb].
  - cbn. destruct (db_of_set_db_cases D database d' (working c1))
      as [[-> E] | ->]; [| exact Hc].
    rewrite (Hw _ _ _ Ha Hws), <- E. exact Hc.
  - exact Hc.
  - discriminate Hrb.
Qed.

(** The same with rollbacks, for a connection that starts with nothing
    pending on that column set. *)
Lemma steps_frame_rollback {X : Type} (proj : dbase -> X) allowed :
  (forall d tb d', allowed tb = true -> write_step d tb d' ->
                   proj d' = proj d) ->
  forall D rb c c' v,
    conn_steps allowed rb c c' ->
    proj (db_of D (committed c)) = v -> proj (db_of D (working c)) = v ->
    proj (db_of D (committed c')) = v /\ proj (db_of D (working c')) = v.
Proof.
  intros Hw D rb c c' v H Hc Hk.
  apply (steps_invariant allowed rb
           (fun x => proj (db_of D (committed x)) = v
                     /\ proj (db_of D (working x)) = v)) with (c := c);
    [| exact H | now split].
  intros c1 c2 [H1 H2] Hs.
  destruct Hs as [c1 database tb d' Ha Hws | c1 | c1 Hrb]; cbn.
  - split; [exact H1 |].
    destruct (db_of_set_db_cases D database d' (working c1))
      as [[-> E] | ->]; [| exact H2].
    rewrite (Hw _ _ _ Ha Hws), <- E. exact H2.
  - now split.
  - now split.
Qed.

Lemma write_keeps_customers d tb d' :
  write_step d tb d' -> customers d' = customers d.
Proof. now destruct 1. Qed.

Lemma write_keeps_sheet_orders d tb d' :
  all_but TSheetOrder tb = true -> write_step d tb d' ->
  sheet_orders d' = sheet_orders d.
Proof. intros Ha H. destruct H; try reflexivity. discriminate Ha. Qed.

Lemma write_keeps_sheet_roots d tb d' :
  all_but TSheetRoots tb = true -> write_step d tb d' ->
  sheet_roots d' = sheet_roots d.
Proof. intros Ha H. destruct H; try reflexivity; discriminate Ha. Qed.

Lemma write_keeps_ledger d tb d' :
  all_but TLedger tb = true -> write_step d tb d' -> ledger d' = ledger d.
Proof. intros Ha H. destruct H; try reflexivity; discriminate Ha. Qed.

(** ** The reservation update *)

Lemma update_stock_keeps_stock quantity goods_id times pack rows :
  map stock_columns (Query.update_stock quantity goods_id times pack rows)
  = map stock_columns rows.
Proof.
  unfold Query.update_stock. rewrite map_map. apply map_ext. intros r.
  now destruct (Query.where_stock goods_id times pack r).
Qed.

Lemma write_keeps_stock d tb d' :
  write_step d tb d' ->
  map stock_columns (ledger d') = map stock_columns (ledger d).
Proof.
  destruct 1; try reflexivity. cbn. apply update_stock_keeps_stock.
Qed.

(** Row by row: a row in the scope of the update gets the quantity added
    to its counter, by SQL's addition; every other row is as before. *)
Lemma update_stock_counters quantity goods_id times pack rows :
  map lg_concurrent (Query.update_stock quantity goods_id times pack rows)
  = map (fun r => if Query.where_stock goods_id times pack r
                  then Sql.add (lg_concurrent r) (Some quantity)
                  else lg_concurrent r) rows.
Proof.
  unfold Query.update_stock. rewrite map_map. apply map_ext. intros r.
  now destruct (Query.where_stock goods_id times pack r).
Qed.

(** The scope of the update: company 1 (not NULL), product, batch, pack,
    type 0 or NULL. *)
Lemma where_stock_iff goods_id times pack r :
  Query.where_stock goods_id times pack r = true
  <-> lg_company r = Some 1%Z
      /\ lg_goods r = Sql.right3 goods_id
      /\ lg_batch r = times
      /\ (exists p, pack = Some p /\ lg_pack r == p)
      /\ (lg_kind r = None \/ lg_kind r = Some 0%Z).
Proof.
  unfold Query.where_stock, Sql.eq_Z, Sql.isnull.
  destruct (lg_company r) as [co |], pack as [p |], (lg_kind r) as [k |];
    rewrite ?andb_true_iff, ?String.eqb_eq, ?Z.eqb_eq, ?Qeq_bool_iff;
    (split;
     [ intros H; decompose [and] H; clear H; subst;
       try discriminate; repeat split; eauto
     | intros (H1 & H2 & H3 & (p' & Hp & H4) & H5);
       try discriminate; destruct H5 as [H5 | H5]; try discriminate;
       repeat match goal with
              | E : Some _ = Some _ |- _ => injection E as E; subst
              end; tauto ]).
Qed.

(** Whatever the orders and the refused statements, a batch run leaves
    every ledger column other than the reservation counter as it was. *)
Lemma sync_all_orders_keeps_stock float_repr fault transport config st r st' :
  committed (db_conn st) = working (db_conn st) ->
  sync_all_orders float_repr fault transport config st = (r, st') ->
  stock (committed (db_conn st')) = stock (working (db_conn st))
  /\ stock (working (db_conn st')) = stock (working (db_conn st)).
Proof.
  intros Hclean E.
  pose proof (moves_sync_all_orders _ _ _ _ _ _ _ E) as H.
  assert (F : forall D,
             map stock_columns (ledger (db_of D (committed (db_conn st'))))
             = map stock_columns (ledger (db_of D (working (db_conn st))))
             /\ map stock_columns (ledger (db_of D (working (db_conn st'))))
                = map stock_columns
                    (ledger (db_of D (working (db_conn st))))).
  { intros D.
    apply (steps_frame_rollback (fun d => map stock_columns (ledger d))
             every_table) with (rb := true) (c := db_conn st).
    - intros d tb d' _. apply write_keeps_stock.
    - exact H.
    - now rewrite Hclean.
    - reflexivity. }
  destruct (F herbal_prefix) as [H1 H2].
  destruct (F standard_prefix) as [H3 H4].
  unfold stock. cbn in H1, H2, H3, H4. now rewrite H1, H2, H3, H4.
Qed.

(** The reservation update, run: the ledger behind the line's prefix gets
    the UPDATE, nothing else changes, and the statement's own commit makes
    it durable at once. *)
Lemma update_stock_concurrency_runs fault item batch database st :
  fault (UpdateStock (erp_goods_id item) (Query.batch_times batch)) = false ->
  exists st',
    update_stock_concurrency fault item batch database st = (Ok tt, st')
    /\ db_of database (working (db_conn st'))
       = with_ledger (db_of database (working (db_conn st)))
           (Query.update_stock (Py.to_Q (quantity item)) (erp_goods_id item)
              (Query.batch_times batch) (Query.bz batch)
              (ledger (db_of database (working (db_conn st)))))
    /\ committed (db_conn st') = working (db_conn st').
Proof.
  intros Hf. unfold update_stock_concurrency.
  erewrite bind_ok by (apply writing_runs; exact Hf).
  eexists. split; [reflexivity |]. cbn. split; [| reflexivity].
  now rewrite db_of_set_db.
Qed.

(** A statement sent through [execute_non_query] leaves nothing for a
    later rollback to undo. *)
Lemma rollback_after_write_undoes_nothing fault database f s st n st' :
  execute_non_query fault s (writing database f) st = (Ok n, st') ->
  rollback_conn (db_conn st') = db_conn st'.
Proof.
  destruct (fault s) eqn:Hf.
  - unfold execute_non_query, cursor_execute, bind, emit. cbn. rewrite Hf.
    discriminate.
  - rewrite writing_runs by exact Hf. intros E. inversion E; subst.
    reflexivity.
Qed.

(** Only the reservation update writes the ledger: a computation that
    moves without it leaves every ledger row as it was. *)
Lemma keeps_ledger {A : Type} (m : M A) D st r st' :
  moves (all_but TLedger) false m -> m st = (r, st') ->
  ledger (db_of D (working (db_conn st')))
  = ledger (db_of D (working (db_conn st))).
Proof.
  intros Hm E. apply (steps_frame ledger (all_but TLedger)).
  - apply write_keeps_ledger.
  - eapply Hm. exact E.
Qed.

Lemma header_writers_keep_ledger float_repr fault config o c root flow
    database :
  moves (all_but TLedger) false (insert_sheet_roots fault o c database)
  /\ moves (all_but TLedger) false
       (insert_status_flow fault config o root database)
  /\ moves (all_but TLedger) false
       (update_sheet_root_status fault root flow database)
  /\ moves (all_but TLedger) false
       (insert_sheet_order float_repr fault config root o c database)
  /\ moves (all_but TLedger) false (save_mid_order fault o database).
Proof.
  repeat split.
  - now apply moves_insert_sheet_roots.
  - now apply moves_insert_status_flow.
  - now apply moves_update_sheet_root_status.
  - now apply moves_insert_sheet_order.
  - now apply moves_save_mid_order.
Qed.

(** A ledger row without a company is outside the scope of the update,
    and a NULL counter stays NULL under SQL's addition. *)
Lemma null_company_out_of_scope goods_id times pack r :
  lg_company r = None -> Query.where_stock goods_id times pack r = false.
Proof. unfold Query.where_stock. now intros ->. Qed.

Lemma null_counter_stays_null quantity r :
  lg_concurrent r = None ->
  lg_concurrent (Query.set_concurrent quantity r) = None.
Proof. cbn. now intros ->. Qed.

(** ** Inverting the statements of a successful run *)

Lemma reading_inv {R : Type} fault s (f : server -> list R) st rows st' :
  execute_query fault s (reading f) st = (Ok rows, st') ->
  fault s = false /\ rows = f (working (db_conn st))
  /\ db_conn st' = db_conn st.
Proof.
  destruct (fault s) eqn:Hf.
  - unfold execute_query, cursor_execute, bind, emit. cbn. rewrite Hf.
    discriminate.
  - rewrite reading_runs by exact Hf. intros E. inversion E; subst. auto.
Qed.

Lemma writing_inv fault database (f : dbase -> dbase * nat) s st n st' :
  execute_non_query fault s (writing database f) st = (Ok n, st') ->
  fault s = false
  /\ working (db_conn st')
     = set_db database (fst (f (db_of database (working (db_conn st)))))
         (working (db_conn st))
  /\ committed (db_conn st') = working (db_conn st').
Proof.
  destruct (fault s) eqn:Hf.
  - unfold execute_non_query, cursor_execute, bind, emit. cbn. rewrite Hf.
    discriminate.
  - rewrite writing_runs by exact Hf. intros E. inversion E; subst. auto.
Qed.

Lemma insert_sheet_order_inv float_repr fault config root o c database
    st u st' :
  insert_sheet_order float_repr fault config root o c database st
  = (Ok u, st') ->
  sheet_orders (db_of database (working (db_conn st')))
  = (sheet_orders (db_of database (working (db_conn st)))
       ++ [sheet_order_values float_repr config root o c])%list.
Proof.
  unfold insert_sheet_order. intros E.
  apply bind_ok_inv in E as (n & s1 & E & Er). inversion Er; subst.
  apply writing_inv in E as (_ & -> & _). now rewrite db_of_set_db.
Qed.

Lemma insert_sheet_roots_inv fault o c database st root st' :
  insert_sheet_roots fault o c database st = (Ok root, st') ->
  map sr_no (sheet_roots (db_of database (working (db_conn st'))))
  = (map sr_no (sheet_roots (db_of database (working (db_conn st))))
       ++ [sub_order_sn o])%list.
Proof.
  unfold insert_sheet_roots, execute_query, cursor_execute, bind, emit. cbn.
  destruct (fault _); [discriminate |]. cbn. intros E. inversion E; subst.
  cbn. rewrite db_of_set_db. cbn. now rewrite map_app.
Qed.

Lemma update_root_keeps_no flow root rows :
  map sr_no (Query.update_root flow root rows) = map sr_no rows.
Proof.
  unfold Query.update_root. rewrite map_map. apply map_ext. intros r.
  now destruct (Sql.eq_Z root (sr_id r)).
Qed.

Lemma update_sheet_root_status_inv fault root flow database st u st' :
  update_sheet_root_status fault root flow database st = (Ok u, st') ->
  map sr_no (sheet_roots (db_of database (working (db_conn st'))))
  = map sr_no (sheet_roots (db_of database (working (db_conn st)))).
Proof.
  unfold update_sheet_root_status. intros E.
  apply bind_ok_inv in E as (n & s1 & E & Er). inversion Er; subst.
  apply writing_inv in E as (_ & -> & _). rewrite db_of_set_db. cbn.
  apply update_root_keeps_no.
Qed.

(** ** The duplicate path *)

Lemma sync_order_duplicate float_repr fault transport config o st :
  Py.get_truthy (erp_customer_id o) = true ->
  fault (SelectCustomer (erp_customer_no o)) = false ->
  fault (SelectOrder (sub_order_sn o)) = false ->
  Query.select_customer (erp_customer_no o)
    (db_of (get_database_prefix o) (working (db_conn st))) <> [] ->
  Query.select_order (sub_order_sn o)
    (db_of (get_database_prefix o) (working (db_conn st))) <> [] ->
  exists st',
    sync_order float_repr fault transport config o st = (Ok true, st')
    /\ db_conn st' = db_conn st
    /\ trace st' = (trace st ++ duplicate_trace o)%list.
Proof.
  intros Ht Hf1 Hf2 Hc Ho.
  unfold sync_order, try_except, sync_order_body.
  erewrite bind_ok by reflexivity. erewrite bind_ok by reflexivity.
  rewrite Ht. cbn [negb].
  unfold get_customer_info.
  erewrite bind_ok
    by (erewrite bind_ok by (apply reading_runs; exact Hf1); reflexivity).
  cbn [db_conn working].
  destruct (Query.select_customer _ _) as [| c cs] eqn:Ec; [now elim Hc |].
  cbn [hd_error]. unfold order_exists.
  erewrite bind_ok
    by (erewrite bind_ok by (apply reading_runs; exact Hf2); reflexivity).
  cbn [db_conn working].
  destruct (Query.select_order _ _) as [| x xs] eqn:Eo; [now elim Ho |].
  eexists. split; [reflexivity |]. cbn. split; [reflexivity |].
  now rewrite <- !app_assoc.
Qed.

(** ** A successful run, taken apart *)

Lemma keeps_customers allowed {A : Type} (m : M A) D st r st' :
  moves allowed false m -> m st = (r, st') ->
  customers (db_of D (working (db_conn st')))
  = customers (db_of D (working (db_conn st))).
Proof.
  intros Hm E. apply (steps_frame customers allowed).
  - intros d tb d' _. apply write_keeps_customers.
  - eapply Hm. exact E.
Qed.

Lemma keeps_sheet_orders {A : Type} (m : M A) D st r st' :
  moves (all_but TSheetOrder) false m -> m st = (r, st') ->
  sheet_orders (db_of D (working (db_conn st')))
  = sheet_orders (db_of D (working (db_conn st))).
Proof.
  intros Hm E. apply (steps_frame sheet_orders (all_but TSheetOrder)).
  - apply write_keeps_sheet_orders.
  - eapply Hm. exact E.
Qed.

Lemma keeps_sheet_roots {A : Type} (m : M A) D st r st' :
  moves (all_but TSheetRoots) false m -> m st = (r, st') ->
  sheet_roots (db_of D (working (db_conn st')))
  = sheet_roots (db_of D (working (db_conn st))).
Proof.
  intros Hm E. apply (steps_frame sheet_roots (all_but TSheetRoots)).
  - apply write_keeps_sheet_roots.
  - eapply Hm. exact E.
Qed.

Lemma sync_order_success_inv float_repr fault transport config o st st1 :
  sync_order float_repr fault transport config o st = (Ok true, st1) ->
  let D := get_database_prefix o in
  Py.get_truthy (erp_customer_id o) = true
  /\ fault (SelectCustomer (erp_customer_no o)) = false
  /\ fault (SelectOrder (sub_order_sn o)) = false
  /\ Query.select_customer (erp_customer_no o)
       (db_of D (working (db_conn st))) <> []
  /\ customers (db_of D (working (db_conn st1)))
     = customers (db_of D (working (db_conn st)))
  /\ ((Query.select_order (sub_order_sn o) (db_of D (working (db_conn st)))
       <> []
       /\ db_conn st1 = db_conn st)
      \/ (Query.select_order (sub_order_sn o)
            (db_of D (working (db_conn st))) = []
          /\ (exists c root,
                 sheet_orders (db_of D (working (db_conn st1)))
                 = (sheet_orders (db_of D (working (db_conn st)))
                      ++ [sheet_order_values float_repr config root o c])%list)
          /\ map sr_no (sheet_roots (db_of D (working (db_conn st1))))
             = (map sr_no (sheet_roots (db_of D (working (db_conn st))))
                  ++ [sub_order_sn o])%list
          /\ committed (db_conn st1) = working (db_conn st1))).
Proof.
  intros E D. unfold sync_order, try_except in E.
  destruct (sync_order_body float_repr fault transport config o st)
    as [[b | e] s'] eqn:Eb; [| cbn in E; inversion E].
  inversion E; subst b s'. clear E.
  assert (Hcust : customers (db_of D (working (db_conn st1)))
                  = customers (db_of D (working (db_conn st)))).
  { eapply (keeps_customers every_table).
    - apply moves_sync_order_body. reflexivity.
    - exact Eb. }
  unfold sync_order_body in Eb. fold D in Eb.
  apply bind_ok_inv in Eb as (u1 & s1 & E1 & Eb). inversion E1; subst u1 s1.
  clear E1.
  apply bind_ok_inv in Eb as (u2 & s2 & E2 & Eb). inversion E2; subst u2 s2.
  clear E2.
  destruct (Py.get_truthy (erp_customer_id o)) eqn:Ht;
    cbn [negb] in Eb; [| discriminate Eb].
  apply bind_ok_inv in Eb as (customer & s3 & E3 & Eb).
  unfold get_customer_info in E3.
  apply bind_ok_inv in E3 as (rows & s3' & E3 & Er). inversion Er; subst.
  clear Er. apply reading_inv in E3 as (Hf1 & Hrows & Hc3).
  cbn [db_conn working] in Hrows, Hc3.
  destruct (hd_error rows) as [c |] eqn:Ehd.
  2: { apply bind_ok_inv in Eb as (u & s & _ & Eb). discriminate Eb. }
  apply bind_ok_inv in Eb as (found & s4 & E4 & Eb).
  unfold order_exists in E4.
  apply bind_ok_inv in E4 as (orows & s4' & E4 & Er). inversion Er; subst.
  clear Er. apply reading_inv in E4 as (Hf2 & Horows & Hc4).
  rewrite Hc3 in Horows, Hc4.
  split; [reflexivity |]. split; [exact Hf1 |]. split; [exact Hf2 |].
  split. { intros Hn. rewrite Hn in Ehd. discriminate Ehd. }
  split; [exact Hcust |].
  destruct orows as [| x xs].
  2: { left. split.
       - rewrite <- Horows. discriminate.
       - apply bind_ok_inv in Eb as (u & s & El & Eb).
         inversion El; subst. inversion Eb; subst. cbn. exact Hc4. }
  right. split; [now rewrite <- Horows |].
  apply bind_ok_inv in Eb as (root & s5 & E5 & Eb).
  apply bind_ok_inv in Eb as (flow & s6 & E6 & Eb).
  apply bind_ok_inv in Eb as (u7 & s7 & E7 & Eb).
  apply bind_ok_inv in Eb as (u8 & s8 & E8 & Eb).
  apply bind_ok_inv in Eb as (u9 & s9 & E9 & Eb).
  apply bind_ok_inv in Eb as (u10 & s10 & E10 & Eb).
  apply bind_ok_inv in Eb as (verified & s11 & E11 & Eb).
  destruct verified; cbn [negb] in Eb; [| discriminate Eb].
  apply bind_ok_inv in Eb as (u12 & s12 & E12 & Eb).
  apply bind_ok_inv in Eb as (u13 & s13 & E13 & Eb).
  apply bind_ok_inv in Eb as (u14 & s14 & E14 & Eb).
  inversion Eb; subst. clear Eb.
  inversion E14; subst. clear E14. inversion E13; subst. clear E13.
  cbn [db_conn working committed set_conn commit_conn].
  (* header table *)
  pose proof (keeps_sheet_orders _ D _ _ _
                (moves_insert_sheet_roots fault _ false o c D eq_refl) E5) as O5.
  pose proof (keeps_sheet_orders _ D _ _ _
                (moves_insert_status_flow fault config _ false o root D eq_refl)
                E6) as O6.
  pose proof (keeps_sheet_orders _ D _ _ _
                (moves_update_sheet_root_status fault _ false root flow D
                   eq_refl) E7) as O7.
  pose proof (insert_sheet_order_inv _ _ _ _ _ _ _ _ _ _ E8) as O8.
  pose proof (keeps_sheet_orders _ D _ _ _
                (moves_insert_order_details_from float_repr fault _ false 1
                   root (order_goods o) D eq_refl eq_refl) E9) as O9.
  pose proof (keeps_sheet_orders _ D _ _ _
                (moves_save_mid_order fault _ false o D eq_refl) E10) as O10.
  pose proof (keeps_sheet_orders _ D _ _ _
                (moves_order_details_exist fault _ false root D) E11) as O11.
  pose proof (keeps_sheet_orders _ D _ _ _
                (moves_notify_order_sync_success transport _ false o) E12)
    as O12.
  (* root table *)
  pose proof (insert_sheet_roots_inv _ _ _ _ _ _ _ E5) as R5.
  pose proof (keeps_sheet_roots _ D _ _ _
                (moves_insert_status_flow fault config _ false o root D eq_refl)
                E6) as R6.
  pose proof (update_sheet_root_status_inv _ _ _ _ _ _ _ E7) as R7.
  pose proof (keeps_sheet_roots _ D _ _ _
                (moves_insert_sheet_order float_repr fault config _ false root
                   o c D eq_refl) E8) as R8.
  pose proof (keeps_sheet_roots _ D _ _ _
                (moves_insert_order_details_from float_repr fault _ false 1
                   root (order_goods o) D eq_refl eq_refl) E9) as R9.
  pose proof (keeps_sheet_roots _ D _ _ _
                (moves_save_mid_order fault _ false o D eq_refl) E10) as R10.
  pose proof (keeps_sheet_roots _ D _ _ _
                (moves_order_details_exist fault _ false root D) E11) as R11.
  pose proof (keeps_sheet_roots _ D _ _ _
                (moves_notify_order_sync_success transport _ false o) E12)
    as R12.
  assert (Hs4 : db_conn s4 = db_conn st) by exact Hc4.
  split; [| split].
  - exists c, root.
    rewrite O12, O11, O10, O9, O8, O7, O6, O5, Hs4. reflexivity.
  - rewrite R12, R11, R10, R9, R8, R7, R6, R5, Hs4. reflexivity.
  - reflexivity.
Qed.

Lemma select_customer_ext no d d' :
  customers d' = customers d ->
  Query.select_customer no d' = Query.select_customer no d.
Proof. unfold Query.select_customer. now intros ->. Qed.

Lemma select_order_app no d d' row :
  sheet_orders d' = (sheet_orders d ++ [row])%list -> so_no row = no ->
  Query.select_order no d' = (Query.select_order no d ++ [1%Z])%list.
Proof.
  unfold Query.select_order. intros -> <-.
  rewrite filter_app, map_app. cbn. now rewrite String.eqb_refl.
Qed.

(** C5, as amended: for an order that carries a customer identifier and
    whose customer resolves, an existing header with its business number
    makes [sync_order] return true with the connection untouched, after
    two SELECTs and nothing else; and an order synced successfully once is,
    on the second call, such a duplicate: the second call returns true and
    writes nothing, so that exactly one header and one root were added. *)
Theorem sync_order_idempotent float_repr fault transport config o st :
  let D := get_database_prefix o in
  let sync := sync_order float_repr fault transport config o in
  let headers s :=
    Query.select_order (sub_order_sn o) (db_of D (working (db_conn s))) in
  (Py.get_truthy (erp_customer_id o) = true ->
   fault (SelectCustomer (erp_customer_no o)) = false ->
   fault (SelectOrder (sub_order_sn o)) = false ->
   Query.select_customer (erp_customer_no o)
     (db_of D (working (db_conn st))) <> [] ->
   headers st <> [] ->
   exists st',
     sync st = (Ok true, st') /\ db_conn st' = db_conn st
     /\ trace st' = (trace st ++ duplicate_trace o)%list)
  /\ (forall st1,
        sync st = (Ok true, st1) ->
        (exists st2,
            sync st1 = (Ok true, st2) /\ db_conn st2 = db_conn st1
            /\ trace st2 = (trace st1 ++ duplicate_trace o)%list)
        /\ (headers st = [] ->
            List.length (headers st1) = 1%nat
            /\ map sr_no (sheet_roots (db_of D (working (db_conn st1))))
               = (map sr_no (sheet_roots (db_of D (working (db_conn st))))
                    ++ [sub_order_sn o])%list
            /\ committed (db_conn st1) = working (db_conn st1))).
Proof.
  intros D sync headers. split.
  - intros Ht Hf1 Hf2 Hc Ho. now apply sync_order_duplicate.
  - intros st1 E.
    destruct (sync_order_success_inv _ _ _ _ _ _ _ E)
      as (Ht & Hf1 & Hf2 & Hc & Hcust & Hcase).
    fold D in Hc, Hcust, Hcase.
    assert (Hc1 : Query.select_customer (erp_customer_no o)
                    (db_of D (working (db_conn st1))) <> []).
    { now rewrite (select_customer_ext _ _ _ Hcust). }
    destruct Hcase as [[Ho Hsame] | (Ho & (c & root & Hrows) & Hroots & Hcm)].
    + split.
      * apply sync_order_duplicate; try assumption.
        fold D. now rewrite Hsame.
      * intros Hn. now elim Ho.
    + assert (Ho1 : headers st1 = (headers st ++ [1%Z])%list).
      { apply (select_order_app _ _ _ _ Hrows). reflexivity. }
      split.
      * apply sync_order_duplicate; try assumption.
        fold D. fold (headers st1). rewrite Ho1. now destruct (headers st).
      * intros Hn. rewrite Ho1, Hn. repeat split; assumption.
Qed.

Lemma sync_order_idempotent_witness :
  exists st2,
    sync_order Scenario.repr Scenario.no_fault Scenario.net Scenario.cfg
      Scenario.o1 Scenario.st_synced = (Ok true, st2)
    /\ db_conn st2 = db_conn Scenario.st_synced.
Proof.
  assert (E0 : sync_order Scenario.repr Scenario.no_fault Scenario.net
                 Scenario.cfg Scenario.o1 Scenario.st0
               = (Ok true, Scenario.st_synced))
    by (vm_compute; reflexivity).
  destruct (proj2 (sync_order_idempotent Scenario.repr Scenario.no_fault
                     Scenario.net Scenario.cfg Scenario.o1 Scenario.st0)
              Scenario.st_synced E0)
    as [(st2 & E & Hc & _) _].
  exists st2. split; [exact E | exact Hc].
Defined.

(** C5 as stated fails: the header of "SN1" exists, yet the same order
    without a customer identifier, or for a customer the ERP does not
    know, is reported as failed. *)
Lemma duplicate_counterexample :
  Query.select_order "SN1"
    (db_of (get_database_prefix Scenario.o1_no_customer_id)
       (working (db_conn Scenario.st_synced))) <> []
  /\ fst (sync_order Scenario.repr Scenario.no_fault Scenario.net
            Scenario.cfg Scenario.o1_no_customer_id Scenario.st_synced)
     = Ok false
  /\ fst (sync_order Scenario.repr Scenario.no_fault Scenario.net
            Scenario.cfg Scenario.o1_unknown_customer Scenario.st_synced)
     = Ok false.
Proof.
  split; [vm_compute; discriminate | split; vm_compute; reflexivity].
Qed.

(** ** What has been committed outlives a failure *)

Lemma write_keeps_header_rows d tb d' row :
  write_step d tb d' -> In row (sheet_orders d) -> In row (sheet_orders d').
Proof.
  destruct 1; cbn; try (intros H; exact H).
  intros H. apply in_or_app. now left.
Qed.

(** A header row that is durable and visible stays durable and visible
    through writes, commits and rollbacks alike. *)
Lemma committed_rows_stay allowed rb D row c c' :
  conn_steps allowed rb c c' ->
  In row (sheet_orders (db_of D (committed c))) ->
  In row (sheet_orders (db_of D (working c))) ->
  In row (sheet_orders (db_of D (committed c')))
  /\ In row (sheet_orders (db_of D (working c'))).
Proof.
  intros H Hc Hw.
  apply (steps_invariant allowed rb
           (fun x => In row (sheet_orders (db_of D (committed x)))
                     /\ In row (sheet_orders (db_of D (working x)))))
    with (c := c); [| exact H | now split].
  intros c1 c2 [H1 H2] Hs.
  destruct Hs as [c1 database tb d' Ha Hws | c1 | c1 Hrb]; cbn.
  - split; [exact H1 |].
    destruct (db_of_set_db_cases D database d' (working c1))
      as [[-> E] | ->]; [| exact H2].
    eapply write_keeps_header_rows; [exact Hws |]. now rewrite <- E.
  - now split.
  - now split.
Qed.

(** Once [insert_sheet_order] has returned, the header it wrote is durable
    whatever runs afterwards, the rollback of the except handler
    included. *)
Lemma header_outlives_failure float_repr fault config root o c D st u st1
    {A : Type} (m : M A) r st' :
  insert_sheet_order float_repr fault config root o c D st = (Ok u, st1) ->
  moves every_table true m ->
  m st1 = (r, st') ->
  In (sheet_order_values float_repr config root o c)
     (sheet_orders (db_of D (committed (db_conn st')))).
Proof.
  intros E Hm Em.
  pose proof (insert_sheet_order_inv _ _ _ _ _ _ _ _ _ _ E) as Hrows.
  assert (Hcm : committed (db_conn st1) = working (db_conn st1)).
  { unfold insert_sheet_order in E.
    apply bind_ok_inv in E as (n & s1 & E & Er). inversion Er; subst.
    now apply writing_inv in E as (_ & _ & Hcm). }
  assert (Hin : In (sheet_order_values float_repr config root o c)
                   (sheet_orders (db_of D (working (db_conn st1))))).
  { rewrite Hrows. apply in_or_app. right. now left. }
  apply (committed_rows_stay every_table true D _ _ _ (Hm _ _ _ Em)).
  - now rewrite Hcm.
  - exact Hin.
Qed.

(** ** The trace of a run: when the upstream service is told *)

Lemma emits_ret P {A : Type} (a : A) : emits P (ret a).
Proof.
  intros st r st' E. inversion E; subst. exists []. split.
  - now rewrite app_nil_r.
  - constructor.
Qed.

Lemma emits_raise P {A : Type} e : emits P (@raise A e).
Proof.
  intros st r st' E. inversion E; subst. exists []. split.
  - now rewrite app_nil_r.
  - constructor.
Qed.

Lemma emits_bind P {A B : Type} (m : M A) (f : A -> M B) :
  emits P m -> (forall a, emits P (f a)) -> emits P (bind m f).
Proof.
  intros Hm Hf st r st' E. unfold bind in E.
  destruct (m st) as [[a | e] st1] eqn:Em.
  - destruct (Hm _ _ _ Em) as (evs1 & T1 & F1).
    destruct (Hf a _ _ _ E) as (evs2 & T2 & F2).
    exists (evs1 ++ evs2)%list. split.
    + now rewrite T2, T1, app_assoc.
    + apply Forall_app. now split.
  - inversion E; subst. eapply Hm; eassumption.
Qed.

Lemma emits_emit (P : event -> Prop) e : P e -> emits P (emit e).
Proof.
  intros He st r st' E. inversion E; subst. exists [e]. split.
  - reflexivity.
  - now repeat constructor.
Qed.

Lemma emits_log l msg : emits quiet (log l msg).
Proof. now apply emits_emit. Qed.

Lemma emits_set_search_index P s : emits P (set_search_index s).
Proof.
  intros st r st' E. inversion E; subst. exists []. split.
  - cbn. now rewrite app_nil_r.
  - constructor.
Qed.

Lemma emits_if P {A : Type} (b : bool) (m1 m2 : M A) :
  emits P m1 -> emits P m2 -> emits P (if b then m1 else m2).
Proof. now destruct b. Qed.

Lemma emits_cursor_commit : emits quiet cursor_commit.
Proof.
  intros st r st' E. inversion E; subst. exists [CursorCommit]. split.
  - reflexivity.
  - now repeat constructor.
Qed.

Lemma emits_conn_rollback : emits quiet conn_rollback.
Proof.
  intros st r st' E. inversion E; subst. exists [ConnRollback]. split.
  - reflexivity.
  - now repeat constructor.
Qed.

Lemma emits_cursor_execute fault {R : Type} s
    (run : server -> option (server * R)) :
  emits quiet (cursor_execute fault s run).
Proof.
  unfold cursor_execute. apply emits_bind; [now apply emits_emit |].
  intros _. destruct (fault s); [apply emits_raise |].
  intros st r st' E.
  destruct (run (working (db_conn st))) as [[srv rows] |];
    inversion E; subst; exists []; cbn; rewrite app_nil_r;
    split; constructor.
Qed.

Lemma emits_execute_query fault {R : Type} s
    (run : server -> option (server * list R)) :
  emits quiet (execute_query fault s run).
Proof. apply emits_cursor_execute. Qed.

Lemma emits_execute_non_query fault s run :
  emits quiet (execute_non_query fault s run).
Proof.
  unfold execute_non_query.
  apply emits_bind; [apply emits_cursor_execute |]. intros rowcount.
  apply emits_bind; [apply emits_cursor_commit |]. intros _.
  apply emits_ret.
Qed.

Create HintDb emits.
#[export] Hint Resolve emits_ret emits_raise emits_log emits_set_search_index
  emits_cursor_commit emits_execute_query emits_execute_non_query : emits.

Ltac emits_step :=
  first [ solve [ auto with emits ]
        | apply emits_bind; [| intros ? ]
        | apply emits_if ].

Section EngineEmits.
Variable float_repr : Q -> string.
Variable fault : stmt -> bool.
Variable transport : http_method -> string -> payload -> http_outcome.
Variable config : config_t.

Lemma emits_get_customer_info o database :
  emits quiet (get_customer_info fault o database).
Proof. unfold get_customer_info. repeat emits_step. Qed.

Lemma emits_order_exists o database :
  emits quiet (order_exists fault o database).
Proof. unfold order_exists. repeat emits_step. Qed.

Lemma emits_insert_sheet_roots o c database :
  emits quiet (insert_sheet_roots fault o c database).
Proof. unfold insert_sheet_roots. repeat emits_step. Qed.

Lemma emits_insert_status_flow o root database :
  emits quiet (insert_status_flow fault config o root database).
Proof. unfold insert_status_flow. repeat emits_step. Qed.

Lemma emits_update_sheet_root_status root flow database :
  emits quiet (update_sheet_root_status fault root flow database).
Proof. unfold update_sheet_root_status. repeat emits_step. Qed.

Lemma emits_insert_sheet_order root o c database :
  emits quiet
    (insert_sheet_order float_repr fault config root o c database).
Proof. unfold insert_sheet_order. repeat emits_step. Qed.

Lemma emits_get_item_batch item database :
  emits quiet (get_item_batch fault item database).
Proof.
  unfold get_item_batch.
  destruct (Py.get_truthy _);
    [destruct (selected_batch_code item), (selected_batch_times item) |];
    repeat emits_step.
Qed.

Lemma emits_get_item_tax_info item database :
  emits quiet (get_item_tax_info fault item database).
Proof. unfold get_item_tax_info. repeat emits_step. Qed.

Lemma emits_get_item_profit item batch database :
  emits quiet (get_item_profit fault item batch database).
Proof. unfold get_item_profit. repeat emits_step. Qed.

Lemma emits_update_stock_concurrency item batch database :
  emits quiet (update_stock_concurrency fault item batch database).
Proof. unfold update_stock_concurrency. repeat emits_step. Qed.

Lemma emits_divisor bz : emits quiet (divisor bz).
Proof.
  unfold divisor. destruct bz as [p |]; [| apply emits_raise].
  destruct (Qeq_bool p 0); auto with emits.
Qed.

Lemma emits_insert_order_details_from idx root items database :
  emits quiet
    (insert_order_details_from float_repr fault idx root items database).
Proof.
  revert idx. induction items as [| item rest IH]; intros idx; cbn.
  - apply emits_ret.
  - apply emits_bind; [apply emits_get_item_batch |]. intros [batch |].
    + apply emits_bind; [apply emits_get_item_tax_info |]. intros tax_info.
      apply emits_bind; [apply emits_get_item_profit |]. intros profit_info.
      apply emits_bind; [apply emits_divisor |]. intros pack.
      apply emits_bind; [apply emits_execute_non_query |]. intros _.
      apply emits_bind; [apply emits_update_stock_concurrency |].
      intros _. apply IH.
    + apply emits_bind; [apply emits_log |]. intros _. apply IH.
Qed.

Lemma emits_order_details_exist root database :
  emits quiet (order_details_exist fault root database).
Proof. unfold order_details_exist. repeat emits_step. Qed.

Lemma emits_save_mid_order o database :
  emits quiet (save_mid_order fault o database).
Proof.
  unfold save_mid_order, customer_id_of.
  destruct (erp_customer_id o); repeat emits_step.
Qed.

(** The status report: one request, then at most an error logged. *)
Lemma notify_trace o st r st' :
  notify_order_sync_success transport o st = (r, st') ->
  (erp_customer_id o = None /\ trace st' = trace st
   /\ exists e, r = Raise e)
  \/ (exists cid mid,
         erp_customer_id o = Some cid /\ r = Ok tt
         /\ trace st'
            = (trace st ++ Http POST sync_status_url
                             (SyncStatus (id o) cid 1) :: mid)%list
         /\ Forall quiet mid).
Proof.
  unfold notify_order_sync_success, customer_id_of, send_request.
  destruct (erp_customer_id o) as [cid |].
  - intros E. right. exists cid. unfold bind, ret, emit, log in E.
    cbn in E.
    destruct (transport POST sync_status_url (SyncStatus (id o) cid 1));
      cbn in E; inversion E; subst; cbn.
    + eexists. split; [reflexivity |]. split; [reflexivity |].
      split; [rewrite <- app_assoc; reflexivity | now repeat constructor].
    + exists []. split; [reflexivity |]. split; [reflexivity |].
      split; [reflexivity | constructor].
  - intros E. left. inversion E; subst.
    split; [reflexivity |]. split; [reflexivity | eauto].
Qed.

Lemma gated_quiet o r : gated o r [].
Proof. left. constructor. Qed.

(** A quiet computation in front keeps a gated continuation gated. *)
Lemma gated_bind o {A : Type} (m : M A) (f : A -> M bool) :
  emits quiet m ->
  (forall a st r st', f a st = (r, st') ->
      exists evs, trace st' = (trace st ++ evs)%list /\ gated o r evs) ->
  forall st r st', bind m f st = (r, st') ->
    exists evs, trace st' = (trace st ++ evs)%list /\ gated o r evs.
Proof.
  intros Hm Hf st r st' E. unfold bind in E.
  destruct (m st) as [[a | e] st1] eqn:Em.
  - destruct (Hm _ _ _ Em) as (evs1 & T1 & F1).
    destruct (Hf a _ _ _ E) as (evs2 & T2 & G).
    exists (evs1 ++ evs2)%list. split; [now rewrite T2, T1, app_assoc |].
    destruct G as [Q | (Hr & cid & pre & mid & Hc & -> & Qp & Qm)].
    + left. apply Forall_app. now split.
    + right. split; [exact Hr |].
      exists cid, (evs1 ++ pre)%list, mid.
      split; [exact Hc |]. split; [now rewrite <- app_assoc |].
      split; [apply Forall_app; now split | exact Qm].
  - inversion E; subst. destruct (Hm _ _ _ Em) as (evs & T & F).
    exists evs. split; [exact T | now left].
Qed.

Lemma gated_of_quiet o (m : M bool) :
  emits quiet m ->
  forall st r st', m st = (r, st') ->
    exists evs, trace st' = (trace st ++ evs)%list /\ gated o r evs.
Proof.
  intros Hm st r st' E. destruct (Hm _ _ _ E) as (evs & T & F).
  exists evs. split; [exact T | now left].
Qed.

(** The last statements of the try block: report, commit, log. *)
Lemma gated_tail o st r st' :
  (notify_order_sync_success transport o ;;
   conn_commit ;;
   log Info ("订单处理成功: " ++ sub_order_sn o) ;;
   ret true) st = (r, st') ->
  exists evs, trace st' = (trace st ++ evs)%list /\ gated o r evs.
Proof.
  intros E. unfold bind at 1 in E.
  destruct (notify_order_sync_success transport o st) as [r1 s1] eqn:En.
  destruct (notify_trace _ _ _ _ En)
    as [(_ & T & e & ->) | (cid & mid & Hc & -> & T & Qm)].
  - inversion E; subst. exists []. rewrite T, app_nil_r.
    split; [reflexivity | apply gated_quiet].
  - assert (R : (conn_commit ;;
                 log Info ("订单处理成功: " ++ sub_order_sn o) ;;
                 ret true) s1
                = (Ok true,
                   {| db_conn := commit_conn (db_conn s1);
                      search_index := search_index s1;
                      trace := ((trace s1 ++ [ConnCommit])
                                  ++ [Log Info ("订单处理成功: "
                                                  ++ sub_order_sn o)])%list
                   |})) by reflexivity.
    rewrite R in E. inversion E; subst. cbn [trace].
    exists (Http POST sync_status_url (SyncStatus (id o) cid 1)
              :: mid ++ [ConnCommit;
                         Log Info ("订单处理成功: " ++ sub_order_sn o)])%list.
    split.
    + rewrite T, <- !app_assoc. reflexivity.
    + right. split; [reflexivity |]. exists cid, [], mid.
      split; [exact Hc |]. split; [reflexivity |].
      split; [constructor | exact Qm].
Qed.

Lemma sync_order_body_gated o st r st' :
  sync_order_body float_repr fault transport config o st = (r, st') ->
  exists evs, trace st' = (trace st ++ evs)%list /\ gated o r evs.
Proof.
  unfold sync_order_body.
  apply gated_bind; [apply emits_set_search_index |]. intros _.
  apply gated_bind; [apply emits_log |]. intros _.
  destruct (negb _); [apply gated_of_quiet, emits_raise |].
  apply gated_bind; [apply emits_get_customer_info |]. intros [c |].
  2: { apply gated_of_quiet. repeat emits_step. }
  apply gated_bind; [apply emits_order_exists |]. intros [|].
  { apply gated_of_quiet. repeat emits_step. }
  apply gated_bind; [apply emits_insert_sheet_roots |]. intros root.
  apply gated_bind; [apply emits_insert_status_flow |]. intros flow.
  apply gated_bind; [apply emits_update_sheet_root_status |]. intros _.
  apply gated_bind; [apply emits_insert_sheet_order |]. intros _.
  apply gated_bind; [apply emits_insert_order_details_from |]. intros _.
  apply gated_bind; [apply emits_save_mid_order |]. intros _.
  apply gated_bind; [apply emits_order_details_exist |]. intros [|];
    cbn [negb].
  - apply gated_tail.
  - apply gated_of_quiet, emits_raise.
Qed.

(** Whatever the order, the state and the refused statements: a run of
    [sync_order] that does not return true never contacts the upstream
    service, and one that returns true either contacts nobody (the
    duplicate path) or sends one status report, after which, and not
    before, the transaction's commit is issued. *)
Lemma sync_order_gated o st r st' :
  sync_order float_repr fault transport config o st = (r, st') ->
  exists evs, trace st' = (trace st ++ evs)%list /\ gated o r evs.
Proof.
  unfold sync_order, try_except. intros E.
  destruct (sync_order_body float_repr fault transport config o st)
    as [[b | e] s1] eqn:Eb.
  - inversion E; subst. now apply sync_order_body_gated.
  - destruct (sync_order_body_gated _ _ _ _ Eb)
      as (evs & T & [Q | (Hr & _)]); [| discriminate Hr].
    unfold bind, conn_rollback, log, emit, ret, set_conn in E.
    cbn [trace db_conn search_index] in E. inversion E; subst.
    cbn [trace]. rewrite T.
    exists (evs ++ [ConnRollback;
                    Log Error ("订单处理失败: " ++ sub_order_sn o ++ " - "
                                 ++ str_exn e)])%list.
    split; [rewrite <- !app_assoc; reflexivity |].
    left. apply Forall_app. split; [exact Q | now repeat constructor].
Qed.
End EngineEmits.

(** ** Runs of the engine on the example servers *)

(** C1 at two failing inputs.  An order none of whose lines has an eligible
    batch is reported as failed, yet its root, workflow-status, header and
    bookkeeping rows are durable afterwards.  An order whose second (last)
    line-item write is refused is reported as failed, yet its root,
    workflow-status and header rows, its first detail row and that line's
    reservation are durable afterwards.  In both runs the rollback finds
    nothing to undo, every earlier write having been committed on its
    own. *)
Theorem failed_order_leaves_rows :
  (let r := sync_order Scenario.repr Scenario.no_fault Scenario.net
              Scenario.cfg Scenario.o0 Scenario.st0 in
   let d := standard_db (committed (db_conn (snd r))) in
   fst r = Ok false
   /\ map sr_no (sheet_roots d) = ["SN0"]
   /\ map sf_sheetId (status_flows d) = [Some 1%Z]
   /\ map so_no (sheet_orders d) = ["SN0"]
   /\ map mo_order_number (mid_orders d) = ["SN0"]
   /\ order_details d = []
   /\ trace (snd r)
      = [Log Info "开始处理订单: SN0";
         Execute (SelectCustomer "C001");
         Execute (SelectOrder "SN0");
         Execute (InsertSheetRoot "SN0");
         Execute (InsertStatusFlow (Some 1%Z));
         Execute (UpdateSheetRoot (Some 1%Z) (Some 1%Z)); CursorCommit;
         Execute (InsertSheetOrder "SN0"); CursorCommit;
         Execute (SelectBatch "SPH999");
         Log Warning "商品批次不可用: SKU9";
         Execute (InsertMidOrder "SN0"); CursorCommit;
         Execute (CountDetails (Some 1%Z));
         ConnRollback;
         Log Error "订单处理失败: SN0 - 订单明细插入失败"])
  /\ (let r := sync_order Scenario.repr Scenario.fault_second_line
                 Scenario.net Scenario.cfg Scenario.o2 Scenario.st0 in
      let d := standard_db (committed (db_conn (snd r))) in
      fst r = Ok false
      /\ map sr_no (sheet_roots d) = ["SN2"]
      /\ map sf_sheetId (status_flows d) = [Some 1%Z]
      /\ map so_no (sheet_orders d) = ["SN2"]
      /\ map od_rid (order_details d) = [1%nat]
      /\ map lg_concurrent (ledger d) = [Some (5 + 2)]).
Proof.
  cbv zeta.
  repeat match goal with
         | |- _ /\ _ => split
         end; vm_compute; reflexivity.
Qed.


(** C6 at two failing inputs, against the ordinary case.  With a counter
    of 5 and two units allocated the counter becomes 7.  When the ledger
    row of the allocated batch has no company, the line is allocated and
    written but the counter stays 5; when the counter is NULL, which the
    allocator reads as zero, it stays NULL. *)
Theorem reservation_counter_runs :
  let counters s :=
    let r := sync_order Scenario.repr Scenario.no_fault Scenario.net
               Scenario.cfg Scenario.o1 (Scenario.fresh s) in
    (fst r,
     map od_batch (order_details (standard_db (committed (db_conn (snd r))))),
     map lg_concurrent (ledger (standard_db (committed (db_conn (snd r))))))
  in
  counters Scenario.srv0 = (Ok true, [1%Z], [Some (5 + 2)])
  /\ counters Scenario.srv_no_company = (Ok true, [1%Z], [Some 5])
  /\ counters Scenario.srv_null_counter = (Ok true, [1%Z], [None]).
Proof. cbv zeta. split; [| split]; vm_compute; reflexivity. Qed.

(** A skipped line does not fail its order: with a first line that has no
    eligible batch and a second that has one, the order syncs and its one
    detail row carries the second line's sequence number. *)
Example skipped_line_keeps_order :
  let r := sync_order Scenario.repr Scenario.no_fault Scenario.net
             Scenario.cfg Scenario.o_mixed Scenario.st0 in
  fst r = Ok true
  /\ map od_rid
       (order_details (standard_db (committed (db_conn (snd r)))))
     = [2%nat].
Proof. cbv zeta. split; vm_compute; reflexivity. Qed.

(** ** Witnesses *)



Lemma failed_pull_syncs_nothing_witness :
  exists st2,
    sync_all_orders Scenario.repr Scenario.no_fault Scenario.net_down
      Scenario.cfg Scenario.st0 = (Ok 0%nat, st2)
    /\ db_conn st2 = db_conn Scenario.st0.
Proof.
  destruct (failed_pull_syncs_nothing Scenario.repr Scenario.no_fault
              Scenario.net_down Scenario.cfg Scenario.st0) as (_ & H).
  - left. exists "timeout". reflexivity.
  - exact H.
Defined.

(** ** The connection after a run *)

Lemma still_ret {A : Type} (a : A) : still (ret a).
Proof. intros st r st' E. now inversion E. Qed.

Lemma still_raise {A : Type} e : still (@raise A e).
Proof. intros st r st' E. now inversion E. Qed.

Lemma still_emit e : still (emit e).
Proof. intros st r st' E. now inversion E. Qed.

Lemma still_set_search_index s : still (set_search_index s).
Proof. intros st r st' E. now inversion E. Qed.

Lemma still_bind {A B : Type} (m : M A) (f : A -> M B) :
  still m -> (forall a, still (f a)) -> still (bind m f).
Proof.
  intros Hm Hf st r st' E. unfold bind in E.
  destruct (m st) as [[a | e] s1] eqn:Em.
  - rewrite (Hf a _ _ _ E). eapply Hm; eassumption.
  - inversion E; subst. eapply Hm; eassumption.
Qed.

Lemma still_reading {R : Type} fault s (f : server -> list R) :
  still (execute_query fault s (reading f)).
Proof.
  intros st r st' E.
  unfold execute_query, cursor_execute, bind, emit, reading in E. cbn in E.
  destruct (fault s); inversion E; subst; cbn; [reflexivity |].
  unfold set_conn. cbn. now destruct (db_conn st).
Qed.

Lemma still_get_customer_info fault o database :
  still (get_customer_info fault o database).
Proof.
  unfold get_customer_info. apply still_bind; [apply still_reading |].
  intros a. apply still_ret.
Qed.

Lemma still_order_exists fault o database :
  still (order_exists fault o database).
Proof.
  unfold order_exists. apply still_bind; [apply still_reading |].
  intros a. apply still_ret.
Qed.

Lemma settles_still {A : Type} (m : M A) : still m -> settles m.
Proof. intros H st a st' E. left. eapply H; eassumption. Qed.

Lemma settles_ends_clean {A : Type} (m : M A) : ends_clean m -> settles m.
Proof. intros H st a st' E. right. eapply H; eassumption. Qed.

Lemma settles_bind {A B : Type} (m : M A) (f : A -> M B) :
  still m -> (forall a, settles (f a)) -> settles (bind m f).
Proof.
  intros Hm Hf st b st' E. apply bind_ok_inv in E as (a & s1 & Em & E).
  rewrite <- (Hm _ _ _ Em). eapply Hf; eassumption.
Qed.

Lemma ends_clean_bind {A B : Type} (m : M A) (f : A -> M B) :
  (forall a, ends_clean (f a)) -> ends_clean (bind m f).
Proof.
  intros Hf st b st' E. apply bind_ok_inv in E as (a & s1 & _ & E).
  eapply Hf; eassumption.
Qed.

Lemma ends_clean_raise {A : Type} e : ends_clean (@raise A e).
Proof. intros st a st' E. discriminate E. Qed.

Lemma ends_clean_commit_tail msg :
  ends_clean (conn_commit ;; log Info msg ;; ret true).
Proof. intros st a st' E. inversion E; subst. reflexivity. Qed.

Lemma sync_order_body_settles float_repr fault transport config o :
  settles (sync_order_body float_repr fault transport config o).
Proof.
  unfold sync_order_body.
  apply settles_bind; [apply still_set_search_index |]. intros _.
  apply settles_bind; [apply still_emit |]. intros _.
  destruct (negb _); [apply settles_still, still_raise |].
  apply settles_bind; [apply still_get_customer_info |]. intros [c |].
  2: { apply settles_still, still_bind; [apply still_emit |].
       intros _. apply still_ret. }
  apply settles_bind; [apply still_order_exists |]. intros [|].
  { apply settles_still, still_bind; [apply still_emit |].
    intros _. apply still_ret. }
  apply settles_ends_clean.
  apply ends_clean_bind. intros root.
  apply ends_clean_bind. intros flow.
  apply ends_clean_bind. intros _.
  apply ends_clean_bind. intros _.
  apply ends_clean_bind. intros _.
  apply ends_clean_bind. intros _.
  apply ends_clean_bind. intros [|]; cbn [negb].
  - apply ends_clean_bind. intros _. apply ends_clean_commit_tail.
  - apply ends_clean_raise.
Qed.

Lemma sync_order_settles float_repr fault transport config o st r st' :
  sync_order float_repr fault transport config o st = (r, st') ->
  db_conn st' = db_conn st \/ clean st'.
Proof.
  unfold sync_order, try_except.
  destruct (sync_order_body float_repr fault transport config o st)
    as [[b | e] s1] eqn:Eb; intros E.
  - inversion E; subst. eapply sync_order_body_settles. exact Eb.
  - right. inversion E; subst. reflexivity.
Qed.

Lemma sync_order_keeps_clean float_repr fault transport config o st r st' :
  clean st ->
  sync_order float_repr fault transport config o st = (r, st') -> clean st'.
Proof.
  intros Hc E. destruct (sync_order_settles _ _ _ _ _ _ _ _ E) as [H | H].
  - unfold clean in *. now rewrite H.
  - exact H.
Qed.

Lemma sync_loop_keeps_clean float_repr fault transport config orders n st
    r st' :
  clean st ->
  sync_loop float_repr fault transport config orders n st = (r, st') ->
  clean st'.
Proof.
  revert n st. induction orders as [| o rest IH]; intros n st Hc E; cbn in E.
  - inversion E; subst. exact Hc.
  - unfold bind in E.
    destruct (sync_order float_repr fault transport config o st)
      as [[b | e] s1] eqn:Eo.
    + eapply IH; [| exact E]. eapply sync_order_keeps_clean; eassumption.
    + inversion E; subst. eapply sync_order_keeps_clean; eassumption.
Qed.

Lemma still_send_request transport method url data :
  still (send_request transport method url data).
Proof.
  unfold send_request. apply still_bind; [apply still_emit |]. intros _.
  destruct (transport method url data).
  - apply still_bind; [apply still_emit | intros _; apply still_ret].
  - apply still_ret.
Qed.

Lemma still_get_orders_from_yq transport config :
  still (get_orders_from_yq transport config).
Proof.
  unfold get_orders_from_yq.
  apply still_bind; [apply still_send_request | intros r; apply still_ret].
Qed.

(** X1: whatever the order, the refused statements and the upstream
    answers, [sync_order] hands the connection back either exactly as it
    found it or with nothing pending; so from a connection with nothing
    pending, neither one order nor a whole batch leaves a transaction
    open. *)
Theorem sync_order_leaves_nothing_pending float_repr fault transport config
    o st :
  let st1 := snd (sync_order float_repr fault transport config o st) in
  let st2 := snd (sync_all_orders float_repr fault transport config st) in
  (db_conn st1 = db_conn st \/ clean st1)
  /\ (clean st -> clean st1)
  /\ (clean st -> clean st2).
Proof.
  cbv zeta. split; [| split].
  - eapply sync_order_settles. apply surjective_pairing.
  - intros Hc. eapply sync_order_keeps_clean; [exact Hc |].
    apply surjective_pairing.
  - intros Hc. unfold sync_all_orders, bind.
    destruct (get_orders_from_yq transport config st) as [[orders | e] s1]
      eqn:Eg.
    + assert (Hc1 : clean s1).
      { unfold clean. rewrite (still_get_orders_from_yq _ _ _ _ _ Eg).
        exact Hc. }
      destruct orders as [| o1 rest]; [exact Hc1 |].
      unfold bind.
      destruct (sync_loop float_repr fault transport config (o1 :: rest) 0 s1)
        as [[n | e] s2] eqn:El;
        assert (Hc2 : clean s2)
          by (eapply sync_loop_keeps_clean; eassumption);
        exact Hc2.
    + cbn [snd]. unfold clean.
      now rewrite (still_get_orders_from_yq _ _ _ _ _ Eg).
Qed.

(** ** Orders that fail before the transaction *)

(** X2: an order without a usable customer identifier (absent, null,
    empty, zero) fails at once: no statement is sent to the server, the
    only action on the connection is the rollback of the except handler,
    and the failure is logged with the order's number. *)
Theorem missing_customer_id_fails_early float_repr fault transport config
    o st :
  Py.get_truthy (erp_customer_id o) = false ->
  sync_order float_repr fault transport config o st
  = (Ok false,
     {| db_conn := rollback_conn (db_conn st);
        search_index := sub_order_sn o;
        trace := (trace st
                    ++ [Log Info ("开始处理订单: " ++ sub_order_sn o);
                        ConnRollback;
                        Log Error ("订单处理失败: " ++ sub_order_sn o
                                     ++ " - erp_customer_id不能为空")])%list |}).
Proof.
  intros H. unfold sync_order, try_except, sync_order_body.
  erewrite bind_ok by reflexivity. erewrite bind_ok by reflexivity.
  rewrite H. cbn [negb]. unfold raise, bind, conn_rollback, log, emit, ret,
    set_conn. cbn [db_conn search_index trace].
  now rewrite <- !app_assoc.
Qed.

Lemma missing_customer_id_fails_early_witness :
  fst (sync_order Scenario.repr Scenario.no_fault Scenario.net Scenario.cfg
         Scenario.o1_no_customer_id Scenario.st0) = Ok false.
Proof.
  rewrite (missing_customer_id_fails_early Scenario.repr Scenario.no_fault
             Scenario.net Scenario.cfg Scenario.o1_no_customer_id
             Scenario.st0 eq_refl).
  reflexivity.
Defined.



(** ** The status reports of a run *)






(** X4: whatever happens during a run of [sync_order], the only request it
    can send upstream is the status report of a successful order, followed
    by the commit of the transaction; a run that does not return true sends
    no request and commits no transaction of its own. *)
Theorem status_report_only_on_success float_repr fault transport config
    o st :
  let run := sync_order float_repr fault transport config o st in
  exists evs,
    trace (snd run) = (trace st ++ evs)%list
    /\ gated o (fst run) evs
    /\ (fst run <> Ok true -> Forall quiet evs).
Proof.
  cbv zeta.
  destruct (sync_order float_repr fault transport config o st) as [r st']
    eqn:E.
  destruct (sync_order_gated float_repr fault transport config _ _ _ _ E)
    as (evs & T & G).
  exists evs. cbn [fst snd]. split; [exact T |]. split; [exact G |].
  intros Hr. destruct G as [Q | [Hok _]]; [exact Q | contradiction].
Qed.


(** ** What a batch leaves alone, and what it only adds to *)

Lemma write_keeps_master_data d tb d' :
  write_step d tb d' -> master_data d' = master_data d.
Proof.
  destruct 1; unfold master_data; cbn; try reflexivity.
  now rewrite update_stock_keeps_stock.
Qed.

Lemma steps_keep_abc allowed rb c c' v :
  conn_steps allowed rb c c' ->
  abc_tbl (committed c) = v -> abc_tbl (working c) = v ->
  abc_tbl (committed c') = v /\ abc_tbl (working c') = v.
Proof.
  intros H Hc Hw.
  apply (steps_invariant allowed rb
           (fun x => abc_tbl (committed x) = v /\ abc_tbl (working x) = v))
    with (c := c); [| exact H | now split].
  intros c1 c2 [H1 H2] Hs.
  destruct Hs as [c1 database tb d' Ha Hws | c1 | c1 Hrb]; cbn.
  - split; [exact H1 |]. unfold set_db.
    now destruct (String.eqb database herbal_prefix).
  - now split.
  - now split.
Qed.

Lemma extends_refl {X : Type} (l : list X) : extends l l.
Proof. exists []. now rewrite app_nil_r. Qed.

Lemma extends_trans {X : Type} (a b c : list X) :
  extends a b -> extends b c -> extends a c.
Proof.
  intros [x ->] [y ->]. exists (x ++ y)%list. now rewrite app_assoc.
Qed.

Lemma journals_refl d : journals d d.
Proof. repeat split; apply extends_refl. Qed.

Lemma journals_trans a b c : journals a b -> journals b c -> journals a c.
Proof.
  intros (H1 & H2 & H3) (K1 & K2 & K3).
  repeat split; eapply extends_trans; eassumption.
Qed.

Lemma write_journals d tb d' : write_step d tb d' -> journals d d'.
Proof.
  destruct 1; unfold journals; cbn;
    repeat split; try apply extends_refl; now eexists.
Qed.

Lemma steps_journals allowed rb D c c' d :
  conn_steps allowed rb c c' ->
  journals d (db_of D (committed c)) -> journals d (db_of D (working c)) ->
  journals d (db_of D (committed c')) /\ journals d (db_of D (working c')).
Proof.
  intros H Hc Hw.
  apply (steps_invariant allowed rb
           (fun x => journals d (db_of D (committed x))
                     /\ journals d (db_of D (working x))))
    with (c := c); [| exact H | now split].
  intros c1 c2 [H1 H2] Hs.
  destruct Hs as [c1 database tb d' Ha Hws | c1 | c1 Hrb]; cbn.
  - split; [exact H1 |].
    destruct (db_of_set_db_cases D database d' (working c1))
      as [[-> E] | ->]; [| exact H2].
    eapply journals_trans; [exact H2 |]. rewrite E.
    eapply write_journals. exact Hws.
  - now split.
  - now split.
Qed.

(** X6: from a connection with nothing pending, a whole batch (whatever
    the orders, the refused statements and the upstream answers) leaves
    the customers, the batch and product master tables, the ABC price
    table and every ledger column other than the reservation counter as
    they were, both durably and inside the transaction. *)
Theorem batch_keeps_master_data float_repr fault transport config st :
  clean st ->
  let c := db_conn st in
  let c' := db_conn (snd (sync_all_orders float_repr fault transport config
                            st)) in
  (forall D,
      master_data (db_of D (committed c')) = master_data (db_of D (working c))
      /\ master_data (db_of D (working c'))
         = master_data (db_of D (working c)))
  /\ abc_tbl (committed c') = abc_tbl (working c)
  /\ abc_tbl (working c') = abc_tbl (working c).
Proof.
  intros Hc. cbv zeta.
  destruct (sync_all_orders float_repr fault transport config st)
    as [r st'] eqn:E. cbn [snd].
  pose proof (moves_sync_all_orders float_repr fault transport config
                _ _ _ E) as Hs.
  unfold clean in Hc. split.
  - intros D.
    apply (steps_frame_rollback master_data every_table
             (fun d tb d' _ => write_keeps_master_data d tb d')
             D true _ _ _ Hs); [now rewrite Hc | reflexivity].
  - apply (steps_keep_abc _ _ _ _ _ Hs); [now rewrite Hc | reflexivity].
Qed.

Lemma batch_keeps_master_data_witness :
  abc_tbl (committed
             (db_conn
                (snd (sync_all_orders Scenario.repr Scenario.no_fault
                        (Scenario.net_orders [Scenario.o0; Scenario.o1])
                        Scenario.cfg Scenario.st0))))
  = abc_tbl (working (db_conn Scenario.st0)).
Proof.
  assert (Hc : clean Scenario.st0) by reflexivity.
  destruct (batch_keeps_master_data Scenario.repr Scenario.no_fault
              (Scenario.net_orders [Scenario.o0; Scenario.o1]) Scenario.cfg
              Scenario.st0 Hc) as (_ & H & _).
  exact H.
Defined.

(** X7: from a connection with nothing pending, a whole batch only ever
    adds rows at the end of the order headers, the order lines and the
    mid-order table: every row that was there is still there, unchanged
    and in the same position, both durably and inside the transaction.
    No failure, and no rollback, removes a row. *)
Theorem batch_only_appends float_repr fault transport config st D :
  clean st ->
  let c := db_conn st in
  let c' := db_conn (snd (sync_all_orders float_repr fault transport config
                            st)) in
  journals (db_of D (working c)) (db_of D (committed c'))
  /\ journals (db_of D (working c)) (db_of D (working c')).
Proof.
  intros Hc. cbv zeta.
  destruct (sync_all_orders float_repr fault transport config st)
    as [r st'] eqn:E. cbn [snd].
  pose proof (moves_sync_all_orders float_repr fault transport config
                _ _ _ E) as Hs.
  unfold clean in Hc.
  apply (steps_journals _ _ D _ _ _ Hs);
    [rewrite Hc |]; apply journals_refl.
Qed.

Lemma batch_only_appends_witness :
  journals
    (db_of standard_prefix (working (db_conn Scenario.st0)))
    (db_of standard_prefix
       (committed
          (db_conn
             (snd (sync_all_orders Scenario.repr Scenario.no_fault
                     (Scenario.net_orders [Scenario.o0; Scenario.o1])
                     Scenario.cfg Scenario.st0))))).
Proof.
  assert (Hc : clean Scenario.st0) by reflexivity.
  destruct (batch_only_appends Scenario.repr Scenario.no_fault
              (Scenario.net_orders [Scenario.o0; Scenario.o1]) Scenario.cfg
              Scenario.st0 standard_prefix Hc) as [H _].
  exact H.
Defined.

(** ** The order lines a run writes *)

Lemma still_execute_query fault {R : Type} s
    (run : server -> option (server * list R)) :
  (forall x x' rows, run x = Some (x', rows) -> x' = x) ->
  still (execute_query fault s run).
Proof.
  intros Hrun st r st' E.
  unfold execute_query, cursor_execute, bind, emit in E. cbn in E.
  destruct (fault s); [now inversion E |].
  change (db_conn {| db_conn := db_conn st; search_index := search_index st;
                     trace := trace st ++ [Execute s] |})
    with (db_conn st) in E.
  destruct (run (working (db_conn st))) as [[srv rows] |] eqn:Er;
    inversion E; subst; cbn; [| reflexivity].
  unfold set_conn. cbn. rewrite (Hrun _ _ _ Er). now destruct (db_conn st).
Qed.

Lemma still_get_item_batch fault item database :
  still (get_item_batch fault item database).
Proof.
  unfold get_item_batch.
  destruct (Py.get_truthy (erp_stock_id item)).
  - destruct (selected_batch_code item) as [code |];
      [| apply still_raise].
    destruct (selected_batch_times item) as [times |];
      [| apply still_raise].
    apply still_bind; [apply still_reading | intros a; apply still_ret].
  - apply still_bind; [apply still_reading | intros a; apply still_ret].
Qed.

Lemma still_get_item_tax_info fault item database :
  still (get_item_tax_info fault item database).
Proof.
  unfold get_item_tax_info.
  apply still_bind; [apply still_reading | intros a; apply still_ret].
Qed.

Lemma still_get_item_profit fault item batch database :
  still (get_item_profit fault item batch database).
Proof.
  unfold get_item_profit.
  apply still_bind; [| intros a; apply still_ret].
  apply still_execute_query. intros x x' rows E.
  destruct (Query.select_profit _ _ _ _ _ _); now inversion E.
Qed.

Lemma still_divisor bz : still (divisor bz).
Proof.
  unfold divisor. destruct bz as [p |]; [| apply still_raise].
  destruct (Qeq_bool p 0); [apply still_raise | apply still_ret].
Qed.

Lemma divisor_inv bz p st st' :
  divisor bz st = (Ok p, st') -> bz = Some p /\ ~ p == 0.
Proof.
  unfold divisor. destruct bz as [q |]; [| discriminate].
  destruct (Qeq_bool q 0) eqn:E; [discriminate |].
  intros H. inversion H; subst. split; [reflexivity |].
  now apply Qeq_bool_neq.
Qed.

Lemma writing_cases fault database (f : dbase -> dbase * nat) s st r st' :
  execute_non_query fault s (writing database f) st = (r, st') ->
  (db_conn st' = db_conn st /\ exists e, r = Raise e)
  \/ (exists n, r = Ok n
      /\ working (db_conn st')
         = set_db database (fst (f (db_of database (working (db_conn st)))))
             (working (db_conn st))
      /\ committed (db_conn st') = working (db_conn st')).
Proof.
  destruct (fault s) eqn:Hf.
  - unfold execute_non_query, cursor_execute, bind, emit. cbn. rewrite Hf.
    intros E. inversion E; subst. left. split; [reflexivity | now eexists].
  - rewrite writing_runs by exact Hf. intros E. inversion E; subst.
    right. eexists. repeat split.
Qed.

Lemma write_keeps_order_details d tb d' :
  all_but TOrderDetail tb = true -> write_step d tb d' ->
  order_details d' = order_details d.
Proof. intros Ha H. destruct H; cbn in *; try reflexivity; discriminate. Qed.

Lemma update_stock_concurrency_keeps_details fault item batch database D
    st r st' :
  update_stock_concurrency fault item batch database st = (r, st') ->
  details_of D st' = details_of D st.
Proof.
  intros E. unfold details_of.
  apply (steps_frame order_details (all_but TOrderDetail)
           write_keeps_order_details).
  eapply (moves_update_stock_concurrency fault (all_but TOrderDetail) false);
    [reflexivity | exact E].
Qed.

Lemma grows_bind_still D (Q : list order_detail -> Prop) {A B : Type}
    (m : M A) (f : A -> M B) :
  still m -> Q [] ->
  (forall a st st1, m st = (Ok a, st1) -> grows D Q (f a)) ->
  grows D Q (bind m f).
Proof.
  intros Hm Q0 Hf st r st' E. unfold bind in E.
  destruct (m st) as [[a | e] s1] eqn:Em.
  - destruct (Hf a st s1 Em _ _ _ E) as (rows & T & HQ).
    exists rows. split; [| exact HQ].
    rewrite T. unfold details_of. now rewrite (Hm _ _ _ Em).
  - inversion E; subst. exists []. split; [| exact Q0].
    unfold details_of. now rewrite (Hm _ _ _ Em), app_nil_r.
Qed.

Lemma ascending_weaken lo l hi :
  ascending (S lo) l hi -> ascending lo l hi.
Proof. destruct l as [| x rest]; cbn; [lia | intros [H1 H2]; split; [lia | exact H2]]. Qed.

Lemma ascending_length lo l hi :
  ascending lo l hi -> (lo + List.length l <= hi)%nat.
Proof.
  revert lo. induction l as [| x rest IH]; intros lo; cbn.
  - lia.
  - intros [H1 H2]. specialize (IH _ H2). lia.
Qed.

Lemma line_row_shift float_repr root idx item rest row :
  line_row float_repr root (S idx) rest row ->
  line_row float_repr root idx (item :: rest) row.
Proof.
  intros (it & b & p & t & pr & Hle & Hn & Hb & Hp & Hr).
  exists it, b, p, t, pr. split; [lia |]. split; [| now repeat split].
  replace (od_rid row - idx)%nat with (S (od_rid row - S idx)) by lia.
  exact Hn.
Qed.

Lemma insert_order_details_from_grows float_repr fault root D items :
  forall idx,
    grows D
      (fun rows =>
         Forall (line_row float_repr root idx items) rows
         /\ ascending idx (map od_rid rows) (idx + List.length items))
      (insert_order_details_from float_repr fault idx root items D).
Proof.
  induction items as [| item rest IH]; intros idx.
  - intros st r st' E. inversion E; subst. exists [].
    rewrite app_nil_r. repeat split; [constructor | cbn; lia].
  - cbn [insert_order_details_from].
    assert (Q0 : Forall (line_row float_repr root idx (item :: rest)) []
                 /\ ascending idx (map od_rid [])
                      (idx + List.length (item :: rest)))
      by (split; [constructor | cbn; lia]).
    assert (Up : forall st r st',
               insert_order_details_from float_repr fault (S idx) root rest D
                 st = (r, st') ->
               exists rows,
                 details_of D st' = (details_of D st ++ rows)%list
                 /\ Forall (line_row float_repr root idx (item :: rest)) rows
                 /\ ascending (S idx) (map od_rid rows)
                      (idx + List.length (item :: rest))).
    { intros st r st' E. destruct (IH (S idx) _ _ _ E) as (rows & T & F & A).
      exists rows. split; [exact T |]. split.
      - eapply Forall_impl; [| exact F]. intros row.
        apply line_row_shift.
      - cbn [List.length]. now rewrite Nat.add_succ_r. }
    apply grows_bind_still; [apply still_get_item_batch | exact Q0 |].
    intros [batch |] _ _ _.
    2: { apply grows_bind_still; [apply still_emit | exact Q0 |].
         intros _ _ _ _ st r st' E.
         destruct (Up _ _ _ E) as (rows & T & F & A).
         exists rows. split; [exact T |]. split; [exact F |].
         now apply ascending_weaken. }
    apply grows_bind_still; [apply still_get_item_tax_info | exact Q0 |].
    intros tax_info _ _ _.
    apply grows_bind_still; [apply still_get_item_profit | exact Q0 |].
    intros profit_info _ _ _.
    apply grows_bind_still; [apply still_divisor | exact Q0 |].
    intros pack s0 s1 Ed. apply divisor_inv in Ed as [Hbz Hpack].
    intros st r st' E. unfold bind in E.
    match type of E with
    | context [execute_non_query ?ft ?s ?run st] =>
        destruct (execute_non_query ft s run st) as [r1 s2] eqn:Ew
    end.
    apply writing_cases in Ew as [[Hc [e ->]] | (n & -> & Hw & _)].
    { inversion E; subst. exists []. split; [| exact Q0].
      unfold details_of. now rewrite Hc, app_nil_r. }
    cbn [fst] in Hw.
    set (row := order_detail_values root idx item batch pack tax_info
                  profit_info (build_item_remark float_repr item)) in *.
    assert (T2 : details_of D s2 = (details_of D st ++ [row])%list).
    { unfold details_of. rewrite Hw, db_of_set_db. reflexivity. }
    assert (Hrow : line_row float_repr root idx (item :: rest) row).
    { exists item, batch, pack, tax_info, profit_info.
      change (od_rid row) with idx. rewrite Nat.sub_diag.
      repeat split; try assumption; lia. }
    destruct (update_stock_concurrency fault item batch D s2)
      as [[u | e] s3] eqn:Eu;
      pose proof (update_stock_concurrency_keeps_details _ _ _ _ D _ _ _ Eu)
        as T3.
    + destruct (Up _ _ _ E) as (rows & T & F & A).
      exists (row :: rows). split.
      * rewrite T, T3, T2, <- app_assoc. reflexivity.
      * split; [constructor; assumption |].
        cbn [map ascending]. change (od_rid row) with idx.
        split; [lia | exact A].
    + inversion E; subst. exists [row]. split.
      * now rewrite T3, T2.
      * split; [constructor; [exact Hrow | constructor] |].
        cbn. change (od_rid row) with idx. lia.
Qed.

(** X8: whether [insert_order_details] returns or raises, all it does to
    the order lines is to add rows at the end; each added row is the value
    tuple of the order line whose 1-based position is the row number, for
    a batch whose pack size is not zero, and carries the given root as
    parent; the row numbers strictly increase, so no line is written
    twice and there are at most as many rows as lines. *)
Theorem detail_rows_follow_the_lines float_repr fault root o D st :
  let st' := snd (insert_order_details float_repr fault root o D st) in
  exists rows,
    details_of D st' = (details_of D st ++ rows)%list
    /\ Forall (line_row float_repr root 1 (order_goods o)) rows
    /\ Forall (fun row => od_pid row = root) rows
    /\ ascending 1 (map od_rid rows) (1 + List.length (order_goods o))
    /\ (List.length rows <= List.length (order_goods o))%nat.
Proof.
  cbv zeta. unfold insert_order_details.
  destruct (insert_order_details_from float_repr fault 1 root
              (order_goods o) D st) as [r st'] eqn:E. cbn [snd].
  destruct (insert_order_details_from_grows _ _ _ _ _ _ _ _ _ E)
    as (rows & T & F & A).
  exists rows. split; [exact T |]. split; [exact F |]. split; [| split].
  - eapply Forall_impl; [| exact F].
    intros row (it & b & p & t & pr & _ & _ & _ & _ & ->). reflexivity.
  - exact A.
  - apply ascending_length in A. rewrite length_map in A. lia.
Qed.

(** ** The root and the workflow row of a new order *)

Lemma execute_query_inv fault {R : Type} s
    (run : server -> option (server * list R)) st rows st' :
  execute_query fault s run st = (Ok rows, st') ->
  fault s = false
  /\ exists srv,
       run (working (db_conn st)) = Some (srv, rows)
       /\ db_conn st'
          = {| committed := committed (db_conn st); working := srv |}.
Proof.
  intros E.
  unfold execute_query, cursor_execute, bind, emit in E. cbn in E.
  destruct (fault s); [discriminate E |]. split; [reflexivity |].
  change (db_conn {| db_conn := db_conn st; search_index := search_index st;
                     trace := trace st ++ [Execute s] |})
    with (db_conn st) in E.
  destruct (run (working (db_conn st))) as [[srv rows'] |] eqn:Er;
    inversion E; subst.
  exists srv. split; reflexivity.
Qed.

Lemma next_id_above ids : Forall (fun x => (x < Query.next_id ids)%Z) ids.
Proof.
  unfold Query.next_id. induction ids as [| x rest IH]; constructor.
  - cbn. lia.
  - eapply Forall_impl; [| exact IH]. cbn. intros y Hy. lia.
Qed.

Lemma update_root_above flow rid rows :
  Forall (fun x => (sr_id x < rid)%Z) rows ->
  Query.update_root flow (Some rid) rows = rows.
Proof.
  induction 1 as [| x rest Hx _ IH]; [reflexivity |].
  unfold Query.update_root in *. cbn [map]. rewrite IH.
  unfold Sql.eq_Z. destruct (Z.eqb_spec rid (sr_id x)); [lia | reflexivity].
Qed.

Lemma open_sheet_linked fault config o c D st root st1 flow st2 u st3 :
  insert_sheet_roots fault o c D st = (Ok root, st1) ->
  insert_status_flow fault config o root D st1 = (Ok flow, st2) ->
  update_sheet_root_status fault root flow D st2 = (Ok u, st3) ->
  linked (db_of D (working (db_conn st)))
    (db_of D (working (db_conn st3))) root flow (sub_order_sn o)
  /\ clean st3.
Proof.
  intros E1 E2 E3.
  unfold insert_sheet_roots in E1.
  apply bind_ok_inv in E1 as (res1 & s1 & Q1 & R1).
  apply execute_query_inv in Q1 as (_ & srv1 & Run1 & C1).
  inversion Run1; subst srv1 res1. inversion R1; subst root st1. clear R1 Run1.
  unfold insert_status_flow in E2.
  apply bind_ok_inv in E2 as (res2 & s2 & Q2 & R2).
  apply execute_query_inv in Q2 as (_ & srv2 & Run2 & C2).
  inversion Run2; subst srv2 res2. inversion R2; subst flow st2. clear R2 Run2.
  unfold update_sheet_root_status in E3.
  apply bind_ok_inv in E3 as (n & s3 & Q3 & R3).
  apply writing_inv in Q3 as (_ & W3 & K3).
  inversion R3; subst st3. clear R3.
  split; [| exact K3].
  rewrite W3, db_of_set_db, C2. cbn [working fst].
  rewrite db_of_set_db, C1. cbn [working]. rewrite db_of_set_db.
  cbn [hd_error sheet_roots status_flows with_sheet_roots with_status_flows].
  set (d := db_of D (working (db_conn st))).
  set (rid := Query.next_id (map sr_id (sheet_roots d))).
  set (fid := Query.next_id (map sf_id (status_flows d))).
  assert (Hr : Forall (fun x => (sr_id x < rid)%Z) (sheet_roots d)).
  { pose proof (next_id_above (map sr_id (sheet_roots d))) as H.
    now rewrite Forall_map in H. }
  assert (Hf : Forall (fun x => (sf_id x < fid)%Z) (status_flows d)).
  { pose proof (next_id_above (map sf_id (status_flows d))) as H.
    now rewrite Forall_map in H. }
  unfold linked. exists rid, fid. eexists _, _.
  split; [reflexivity |]. split; [reflexivity |].
  split.
  { unfold Query.update_root. rewrite map_app.
    fold (Query.update_root (Some fid) (Some rid) (sheet_roots d)).
    rewrite (update_root_above _ _ _ Hr). cbn [map sr_id Sql.eq_Z].
    rewrite Z.eqb_refl. reflexivity. }
  cbn [sr_id sr_no sr_stateFlowId sf_id sf_sheetId].
  repeat split; assumption.
Qed.

Lemma keeps_proj {X : Type} (proj : dbase -> X) allowed {A : Type}
    (m : M A) D st r st' :
  (forall d tb d', allowed tb = true -> write_step d tb d' ->
                   proj d' = proj d) ->
  moves allowed false m -> m st = (r, st') ->
  proj (db_of D (working (db_conn st')))
  = proj (db_of D (working (db_conn st))).
Proof.
  intros Hw Hm E. apply (steps_frame proj allowed Hw). eapply Hm. exact E.
Qed.

Lemma write_keeps_status_flows d tb d' :
  all_but TStatusFlow tb = true -> write_step d tb d' ->
  status_flows d' = status_flows d.
Proof. intros Ha H. destruct H; cbn in *; try reflexivity; discriminate. Qed.

Lemma write_keeps_mid_orders d tb d' :
  all_but TMidOrder tb = true -> write_step d tb d' ->
  mid_orders d' = mid_orders d.
Proof. intros Ha H. destruct H; cbn in *; try reflexivity; discriminate. Qed.

Lemma write_keeps_all_but_headers d tb d' :
  header_tables tb = true -> write_step d tb d' ->
  all_but_headers d' = all_but_headers d.
Proof. intros Ha H. destruct H; cbn in *; try reflexivity; discriminate. Qed.

Ltac engine_moves :=
  first [ apply moves_insert_sheet_roots
        | apply moves_insert_status_flow
        | apply moves_update_sheet_root_status
        | apply moves_insert_sheet_order
        | apply moves_insert_order_details_from
        | apply moves_save_mid_order ];
  reflexivity.

(** [keep proj allowed W D E]: the run [E] leaves [proj] of the tables
    behind [D] as it was. *)
Ltac keep proj allowed W D E :=
  match type of E with
  | _ ?s = (_, ?s') =>
      let H := fresh "K" in
      assert (H : proj (db_of D (working (db_conn s')))
                  = proj (db_of D (working (db_conn s))))
        by (refine (keeps_proj proj allowed _ D _ _ _ W _ E); engine_moves)
  end.

(** X9: when the three statements that open a new order succeed, the
    root table has exactly one more row, for the order's number, and the
    workflow table exactly one more row; the two generated identifiers
    are above every earlier one, the workflow row names the root and the
    root row, after the UPDATE, names the workflow row; no earlier root
    or workflow row is changed, no other table is touched, and nothing is
    left pending. *)
Theorem root_and_flow_are_linked fault config o c D st root st1 flow st2
    u st3 :
  insert_sheet_roots fault o c D st = (Ok root, st1) ->
  insert_status_flow fault config o root D st1 = (Ok flow, st2) ->
  update_sheet_root_status fault root flow D st2 = (Ok u, st3) ->
  linked (db_of D (working (db_conn st)))
    (db_of D (working (db_conn st3))) root flow (sub_order_sn o)
  /\ all_but_headers (db_of D (working (db_conn st3)))
     = all_but_headers (db_of D (working (db_conn st)))
  /\ clean st3.
Proof.
  intros E1 E2 E3.
  destruct (open_sheet_linked _ _ _ _ _ _ _ _ _ _ _ _ E1 E2 E3) as [L C].
  split; [exact L |]. split; [| exact C].
  keep all_but_headers header_tables write_keeps_all_but_headers D E1.
  keep all_but_headers header_tables write_keeps_all_but_headers D E2.
  keep all_but_headers header_tables write_keeps_all_but_headers D E3.
  congruence.
Qed.


Lemma root_and_flow_are_linked_witness :
  exists root flow st3,
    linked (db_of standard_prefix (working (db_conn Scenario.st0)))
      (db_of standard_prefix (working (db_conn st3))) root flow
      (sub_order_sn Scenario.o1)
    /\ all_but_headers (db_of standard_prefix (working (db_conn st3)))
       = all_but_headers
           (db_of standard_prefix (working (db_conn Scenario.st0)))
    /\ clean st3.
Proof.
  pose (D := standard_prefix).
  pose (r1 := insert_sheet_roots Scenario.no_fault Scenario.o1 Scenario.cust
                D Scenario.st0).
  pose (r2 := insert_status_flow Scenario.no_fault Scenario.cfg Scenario.o1
                (Some 1%Z) D (snd r1)).
  pose (r3 := update_sheet_root_status Scenario.no_fault (Some 1%Z)
                (Some 1%Z) D (snd r2)).
  assert (E1 : insert_sheet_roots Scenario.no_fault Scenario.o1 Scenario.cust
                 D Scenario.st0 = (Ok (Some 1%Z), snd r1))
    by (vm_compute; reflexivity).
  assert (E2 : insert_status_flow Scenario.no_fault Scenario.cfg Scenario.o1
                 (Some 1%Z) D (snd r1) = (Ok (Some 1%Z), snd r2))
    by (vm_compute; reflexivity).
  assert (E3 : update_sheet_root_status Scenario.no_fault (Some 1%Z)
                 (Some 1%Z) D (snd r2) = (Ok tt, snd r3))
    by (vm_compute; reflexivity).
  exists (Some 1%Z), (Some 1%Z), (snd r3).
  exact (root_and_flow_are_linked Scenario.no_fault Scenario.cfg Scenario.o1
           Scenario.cust D Scenario.st0 _ _ _ _ _ _ E1 E2 E3).
Defined.

(** ** What a successful run on a new order has written *)

Lemma still_order_details_exist fault root database :
  still (order_details_exist fault root database).
Proof.
  unfold order_details_exist.
  apply still_bind; [apply still_reading | intros a; apply still_ret].
Qed.

Lemma still_notify_order_sync_success transport o :
  still (notify_order_sync_success transport o).
Proof.
  unfold notify_order_sync_success, customer_id_of.
  apply still_bind.
  - destruct (erp_customer_id o); [apply still_ret | apply still_raise].
  - intros cid. apply still_bind; [apply still_send_request |].
    intros r. apply still_ret.
Qed.

Lemma save_mid_order_inv fault o D st u st' :
  save_mid_order fault o D st = (Ok u, st') ->
  exists cid,
    erp_customer_id o = Some cid
    /\ mid_orders (db_of D (working (db_conn st')))
       = (mid_orders (db_of D (working (db_conn st)))
            ++ [{| mo_order_number := sub_order_sn o;
                   mo_erp_customer_id := cid;
                   mo_sync_status := 0 |}])%list.
Proof.
  unfold save_mid_order, customer_id_of. intros E.
  apply bind_ok_inv in E as (cid & s1 & E1 & E).
  destruct (erp_customer_id o) as [v |]; [| discriminate E1].
  inversion E1; subst cid s1. clear E1.
  apply bind_ok_inv in E as (n & s2 & E2 & E). inversion E; subst.
  apply writing_inv in E2 as (_ & W & _).
  exists v. split; [reflexivity |]. now rewrite W, db_of_set_db.
Qed.

Lemma linked_ext d d' d'' root flow no :
  sheet_roots d'' = sheet_roots d' -> status_flows d'' = status_flows d' ->
  linked d d' root flow no -> linked d d'' root flow no.
Proof.
  intros Hr Hf (rid & fid & r & f & H). exists rid, fid, r, f.
  now rewrite Hr, Hf.
Qed.

(** The statements a run that returns true on a new order has gone
    through. *)
Lemma sync_order_new_inv float_repr fault transport config o st st1 :
  let D := get_database_prefix o in
  sync_order float_repr fault transport config o st = (Ok true, st1) ->
  Query.select_order (sub_order_sn o) (db_of D (working (db_conn st))) = [] ->
  exists c root flow s4 s5 s6 s7 s8 s9 s10 u7 u8 u9 u10,
    hd_error (Query.select_customer (erp_customer_no o)
                (db_of D (working (db_conn st)))) = Some c
    /\ db_conn s4 = db_conn st
    /\ insert_sheet_roots fault o c D s4 = (Ok root, s5)
    /\ insert_status_flow fault config o root D s5 = (Ok flow, s6)
    /\ update_sheet_root_status fault root flow D s6 = (Ok u7, s7)
    /\ insert_sheet_order float_repr fault config root o c D s7
       = (Ok u8, s8)
    /\ insert_order_details_from float_repr fault 1 root (order_goods o) D s8
       = (Ok u9, s9)
    /\ save_mid_order fault o D s9 = (Ok u10, s10)
    /\ (0 < Query.count_details root (db_of D (working (db_conn s10))))%nat
    /\ db_conn st1 = commit_conn (db_conn s10).
Proof.
  intros D E Hnew. unfold sync_order, try_except in E.
  destruct (sync_order_body float_repr fault transport config o st)
    as [[b | e] s'] eqn:Eb; [| cbn in E; inversion E].
  inversion E; subst b s'. clear E.
  unfold sync_order_body in Eb. fold D in Eb.
  apply bind_ok_inv in Eb as (u1 & s1 & E1 & Eb). inversion E1; subst u1 s1.
  clear E1.
  apply bind_ok_inv in Eb as (u2 & s2 & E2 & Eb). inversion E2; subst u2 s2.
  clear E2.
  destruct (Py.get_truthy (erp_customer_id o)) eqn:Ht;
    cbn [negb] in Eb; [| discriminate Eb].
  apply bind_ok_inv in Eb as (customer & s3 & E3 & Eb).
  unfold get_customer_info in E3.
  apply bind_ok_inv in E3 as (rows & s3' & E3 & Er). inversion Er; subst.
  clear Er. apply reading_inv in E3 as (Hf1 & Hrows & Hc3).
  cbn [db_conn working] in Hrows, Hc3.
  destruct (hd_error rows) as [c |] eqn:Ehd.
  2: { apply bind_ok_inv in Eb as (u & s & _ & Eb). discriminate Eb. }
  apply bind_ok_inv in Eb as (found & s4 & E4 & Eb).
  unfold order_exists in E4.
  apply bind_ok_inv in E4 as (orows & s4' & E4 & Er). inversion Er; subst.
  clear Er. apply reading_inv in E4 as (Hf2 & Horows & Hc4).
  rewrite Hc3 in Horows, Hc4. rewrite Hnew in Horows. subst orows.
  apply bind_ok_inv in Eb as (root & s5 & E5 & Eb).
  apply bind_ok_inv in Eb as (flow & s6 & E6 & Eb).
  apply bind_ok_inv in Eb as (u7 & s7 & E7 & Eb).
  apply bind_ok_inv in Eb as (u8 & s8 & E8 & Eb).
  apply bind_ok_inv in Eb as (u9 & s9 & E9 & Eb).
  apply bind_ok_inv in Eb as (u10 & s10 & E10 & Eb).
  apply bind_ok_inv in Eb as (verified & s11 & E11 & Eb).
  destruct verified; cbn [negb] in Eb; [| discriminate Eb].
  apply bind_ok_inv in Eb as (u12 & s12 & E12 & Eb).
  apply bind_ok_inv in Eb as (u13 & s13 & E13 & Eb).
  apply bind_ok_inv in Eb as (u14 & s14 & E14 & Eb).
  inversion Eb; subst. clear Eb.
  inversion E14; subst. clear E14. inversion E13; subst. clear E13.
  pose proof (still_notify_order_sync_success _ _ _ _ _ E12) as C12.
  unfold order_details_exist in E11.
  apply bind_ok_inv in E11 as (cnts & s11' & E11 & Er).
  apply reading_inv in E11 as (_ & Hcnt & C11). subst cnts.
  inversion Er; subst. clear Er.
  exists c, root, flow, s4, s5, s6, s7, s8, s9, s10, u7, u8, u9, u10.
  split; [exact Ehd |]. split; [exact Hc4 |].
  split; [exact E5 |]. split; [exact E6 |]. split; [exact E7 |].
  split; [exact E8 |]. split; [exact E9 |]. split; [exact E10 |].
  split.
  - apply Nat.ltb_lt. assumption.
  - cbn [db_conn set_conn]. now rewrite C12, C11.
Qed.

(** X10: a run of [sync_order] that returns true on an order whose number
    had no header has made durable, behind the order's prefix, exactly
    this: one root row and one workflow row that name each other, one
    header row with the order's values for the customer found, detail rows
    that are the value tuples of the order's lines (the verifier counted at
    least one under the root), and one mid-order row with the order's
    customer identifier; customers, master tables and the stock columns of
    the ledger are as before, and nothing is left pending. *)
Theorem new_order_success_delta float_repr fault transport config o st st1 :
  let D := get_database_prefix o in
  sync_order float_repr fault transport config o st = (Ok true, st1) ->
  Query.select_order (sub_order_sn o) (db_of D (working (db_conn st))) = [] ->
  clean st1
  /\ exists c root flow,
       hd_error (Query.select_customer (erp_customer_no o)
                   (db_of D (working (db_conn st)))) = Some c
       /\ synced float_repr config o c root flow
            (db_of D (working (db_conn st)))
            (db_of D (committed (db_conn st1))).
Proof.
  intros D E Hnew.
  destruct (sync_order_new_inv _ _ _ _ _ _ _ E Hnew)
    as (c & root & flow & s4 & s5 & s6 & s7 & s8 & s9 & s10 & u7 & u8 & u9
        & u10 & Hc & C4 & E5 & E6 & E7 & E8 & E9 & E10 & Hcnt & C1).
  fold D in Hc, E5, E6, E7, E8, E9, E10, Hcnt.
  split; [unfold clean; now rewrite C1 |].
  exists c, root, flow. split; [exact Hc |].
  rewrite C1. cbn [commit_conn committed]. rewrite <- C4.
  destruct (open_sheet_linked _ _ _ _ _ _ _ _ _ _ _ _ E5 E6 E7) as [L _].
  (* roots and workflow rows *)
  keep sheet_roots (all_but TSheetRoots) write_keeps_sheet_roots D E8.
  keep sheet_roots (all_but TSheetRoots) write_keeps_sheet_roots D E9.
  keep sheet_roots (all_but TSheetRoots) write_keeps_sheet_roots D E10.
  keep status_flows (all_but TStatusFlow) write_keeps_status_flows D E8.
  keep status_flows (all_but TStatusFlow) write_keeps_status_flows D E9.
  keep status_flows (all_but TStatusFlow) write_keeps_status_flows D E10.
  (* headers *)
  keep sheet_orders (all_but TSheetOrder) write_keeps_sheet_orders D E5.
  keep sheet_orders (all_but TSheetOrder) write_keeps_sheet_orders D E6.
  keep sheet_orders (all_but TSheetOrder) write_keeps_sheet_orders D E7.
  pose proof (insert_sheet_order_inv _ _ _ _ _ _ _ _ _ _ E8) as O8.
  keep sheet_orders (all_but TSheetOrder) write_keeps_sheet_orders D E9.
  keep sheet_orders (all_but TSheetOrder) write_keeps_sheet_orders D E10.
  (* lines *)
  keep order_details (all_but TOrderDetail) write_keeps_order_details D E5.
  keep order_details (all_but TOrderDetail) write_keeps_order_details D E6.
  keep order_details (all_but TOrderDetail) write_keeps_order_details D E7.
  keep order_details (all_but TOrderDetail) write_keeps_order_details D E8.
  destruct (insert_order_details_from_grows _ _ _ _ _ _ _ _ _ E9)
    as (rows & T9 & F9 & _). unfold details_of in T9.
  keep order_details (all_but TOrderDetail) write_keeps_order_details D E10.
  (* mid-orders *)
  keep mid_orders (all_but TMidOrder) write_keeps_mid_orders D E5.
  keep mid_orders (all_but TMidOrder) write_keeps_mid_orders D E6.
  keep mid_orders (all_but TMidOrder) write_keeps_mid_orders D E7.
  keep mid_orders (all_but TMidOrder) write_keeps_mid_orders D E8.
  keep mid_orders (all_but TMidOrder) write_keeps_mid_orders D E9.
  destruct (save_mid_order_inv _ _ _ _ _ _ E10) as (cid & Hcid & M10).
  (* master data *)
  assert (Hm : forall d tb d', every_table tb = true -> write_step d tb d' ->
                               master_data d' = master_data d)
    by (intros d tb d' _; apply write_keeps_master_data).
  keep master_data every_table Hm D E5.
  keep master_data every_table Hm D E6.
  keep master_data every_table Hm D E7.
  keep master_data every_table Hm D E8.
  keep master_data every_table Hm D E9.
  keep master_data every_table Hm D E10.
  unfold synced. split.
  { eapply linked_ext; [| | exact L]; congruence. }
  split; [congruence |].
  split.
  { exists rows. split; [congruence | exact F9]. }
  split; [exact Hcnt |].
  split.
  { exists cid. split; [exact Hcid | congruence]. }
  congruence.
Qed.

Lemma new_order_success_delta_witness :
  clean (snd (sync_order Scenario.repr Scenario.no_fault Scenario.net
                Scenario.cfg Scenario.o1 Scenario.st0))
  /\ exists c root flow,
       hd_error (Query.select_customer (erp_customer_no Scenario.o1)
                   (db_of (get_database_prefix Scenario.o1)
                      (working (db_conn Scenario.st0)))) = Some c
       /\ synced Scenario.repr Scenario.cfg Scenario.o1 c root flow
            (db_of (get_database_prefix Scenario.o1)
               (working (db_conn Scenario.st0)))
            (db_of (get_database_prefix Scenario.o1)
               (committed
                  (db_conn
                     (snd (sync_order Scenario.repr Scenario.no_fault
                             Scenario.net Scenario.cfg Scenario.o1
                             Scenario.st0))))).
Proof.
  assert (E : sync_order Scenario.repr Scenario.no_fault Scenario.net
                Scenario.cfg Scenario.o1 Scenario.st0
              = (Ok true,
                 snd (sync_order Scenario.repr Scenario.no_fault Scenario.net
                        Scenario.cfg Scenario.o1 Scenario.st0)))
    by (vm_compute; reflexivity).
  assert (Hnew : Query.select_order (sub_order_sn Scenario.o1)
                   (db_of (get_database_prefix Scenario.o1)
                      (working (db_conn Scenario.st0))) = [])
    by (vm_compute; reflexivity).
  exact (new_order_success_delta Scenario.repr Scenario.no_fault Scenario.net
           Scenario.cfg Scenario.o1 Scenario.st0 _ E Hnew).
Defined.

(** ** After the header is written *)

Lemma select_order_In no d row :
  In row (sheet_orders d) -> so_no row = no -> Query.select_order no d <> [].
Proof.
  intros Hin Hno. unfold Query.select_order.
  assert (H : In row (filter (fun o => String.eqb (so_no o) no)
                        (sheet_orders d))).
  { apply filter_In. split; [exact Hin |]. rewrite Hno.
    apply String.eqb_refl. }
  destruct (filter _ (sheet_orders d)); [contradiction | discriminate].
Qed.

Lemma insert_sheet_order_clean float_repr fault config root o c D st u st1 :
  insert_sheet_order float_repr fault config root o c D st = (Ok u, st1) ->
  clean st1.
Proof.
  unfold insert_sheet_order. intros E.
  apply bind_ok_inv in E as (n & s1 & E & Er). inversion Er; subst.
  now apply writing_inv in E as (_ & _ & Hcm).
Qed.

(** X11: once the header INSERT of an order has returned, the order
    can no longer be synchronised: whatever the engine does next on the
    connection (including a failure of the rest of the order followed by
    the rollback of the handler), a later [sync_order] on the same order
    finds the header, returns true as for a duplicate, writes nothing and
    reports nothing upstream. *)
Theorem header_makes_retry_a_duplicate float_repr fault transport config
    root o c st u st1 {A : Type} (m : M A) r st2 :
  let D := get_database_prefix o in
  insert_sheet_order float_repr fault config root o c D st = (Ok u, st1) ->
  moves every_table true m ->
  m st1 = (r, st2) ->
  Py.get_truthy (erp_customer_id o) = true ->
  fault (SelectCustomer (erp_customer_no o)) = false ->
  fault (SelectOrder (sub_order_sn o)) = false ->
  Query.select_customer (erp_customer_no o)
    (db_of D (working (db_conn st))) <> [] ->
  exists st3,
    sync_order float_repr fault transport config o st2 = (Ok true, st3)
    /\ db_conn st3 = db_conn st2
    /\ trace st3 = (trace st2 ++ duplicate_trace o)%list.
Proof.
  intros D E Hm Em Ht Hf1 Hf2 Hcust.
  pose proof (insert_sheet_order_inv _ _ _ _ _ _ _ _ _ _ E) as Hrows.
  pose proof (insert_sheet_order_clean _ _ _ _ _ _ _ _ _ _ E) as Hcm.
  unfold clean in Hcm.
  assert (Hin : In (sheet_order_values float_repr config root o c)
                   (sheet_orders (db_of D (working (db_conn st1))))).
  { rewrite Hrows. apply in_or_app. right. now left. }
  destruct (committed_rows_stay every_table true D
              (sheet_order_values float_repr config root o c) _ _
              (Hm _ _ _ Em)) as [_ Hw]; [now rewrite Hcm | exact Hin |].
  assert (Hc1 : customers (db_of D (working (db_conn st1)))
                = customers (db_of D (working (db_conn st)))).
  { refine (keeps_proj customers every_table _ D _ _ _ _ _ E).
    - intros d tb d' _. apply write_keeps_customers.
    - apply moves_insert_sheet_order. reflexivity. }
  destruct (steps_frame_rollback customers every_table
              (fun d tb d' _ => write_keeps_customers d tb d')
              D true _ _ _ (Hm _ _ _ Em) (f_equal _ (f_equal _ Hcm))
              eq_refl) as [_ Hc2].
  apply sync_order_duplicate; try assumption.
  - fold D. rewrite (select_customer_ext _ (db_of D (working (db_conn st)))).
    + exact Hcust.
    + now rewrite Hc2, Hc1.
  - fold D. eapply select_order_In; [exact Hw | reflexivity].
Qed.

Lemma header_makes_retry_a_duplicate_witness :
  exists st3,
    sync_order Scenario.repr Scenario.no_fault Scenario.net Scenario.cfg
      Scenario.o0
      (snd (conn_rollback
              (snd (insert_sheet_order Scenario.repr Scenario.no_fault
                      Scenario.cfg (Some 1%Z) Scenario.o0 Scenario.cust
                      (get_database_prefix Scenario.o0) Scenario.st0))))
    = (Ok true, st3)
    /\ db_conn st3
       = db_conn
           (snd (conn_rollback
                   (snd (insert_sheet_order Scenario.repr Scenario.no_fault
                           Scenario.cfg (Some 1%Z) Scenario.o0 Scenario.cust
                           (get_database_prefix Scenario.o0) Scenario.st0))))
    /\ trace st3
       = (trace
            (snd (conn_rollback
                    (snd (insert_sheet_order Scenario.repr Scenario.no_fault
                            Scenario.cfg (Some 1%Z) Scenario.o0 Scenario.cust
                            (get_database_prefix Scenario.o0) Scenario.st0))))
            ++ duplicate_trace Scenario.o0)%list.
Proof.
  pose (st1 := snd (insert_sheet_order Scenario.repr Scenario.no_fault
                      Scenario.cfg (Some 1%Z) Scenario.o0 Scenario.cust
                      (get_database_prefix Scenario.o0) Scenario.st0)).
  assert (E : insert_sheet_order Scenario.repr Scenario.no_fault
                Scenario.cfg (Some 1%Z) Scenario.o0 Scenario.cust
                (get_database_prefix Scenario.o0) Scenario.st0
              = (Ok tt, st1)) by (vm_compute; reflexivity).
  assert (Em : conn_rollback st1 = (Ok tt, snd (conn_rollback st1)))
    by reflexivity.
  assert (Hc : Query.select_customer (erp_customer_no Scenario.o0)
                 (db_of (get_database_prefix Scenario.o0)
                    (working (db_conn Scenario.st0))) <> [])
    by (vm_compute; discriminate).
  exact (header_makes_retry_a_duplicate Scenario.repr Scenario.no_fault
           Scenario.net Scenario.cfg (Some 1%Z) Scenario.o0 Scenario.cust
           Scenario.st0 tt st1 conn_rollback (Ok tt) _ E
           (moves_conn_rollback every_table) Em eq_refl eq_refl eq_refl Hc).
Defined.

(* ================================================================== *)
(** * The customers synchronisation *)
(* ================================================================== *)

Module CustomerFacts.
Import Customers CustomerRuns.

Ltac stops :=
  right; eexists; split;
  [reflexivity | let H := fresh in intros H; discriminate H].

Ltac on_key f := destruct f; [| stops].

Lemma audit_values_cases c st :
  (exists row,
      audit_values c st = (Ok row, st)
      /\ id c = Some (a_id row) /\ a_status row = 0%Z)
  \/ (exists e,
         audit_values c st = (Raise e, st)
         /\ (id c = None -> e = KeyError "id")).
Proof.
  unfold audit_values, salesman_key, joined_pics, bind, key, ret, raise.
  destruct (id c) as [v |];
    [| right; eexists; split; [reflexivity | reflexivity]].
  on_key (business_license_code c). on_key (customer_nick c).
  on_key (contact_name c). on_key (contact_mobile c).
  on_key (corporate_name c). on_key (corporate_mobile c).
  on_key (province c). on_key (city c). on_key (county c).
  on_key (address c).
  destruct (salesman c) as [[obj |] |]; [| stops | stops].
  on_key (nickname obj). on_key (mobile obj).
  destruct (pic_info c) as [[l |] |]; [| stops | stops].
  left. eexists. split; [reflexivity |]. cbn. now split.
Qed.

Lemma save_customer_cases float_repr refuses c st :
  match id c with
  | None =>
      save_customer float_repr refuses c st = (Raise (KeyError "id"), st)
  | Some v =>
      (exists row,
          a_id row = v /\ a_status row = 0%Z
          /\ save_customer float_repr refuses c st
             = (Ok true,
                {| db_conn :=
                     {| committed := (working (db_conn st) ++ [row])%list;
                        working := (working (db_conn st) ++ [row])%list |};
                   trace := (trace st ++ [Execute row; CursorCommit])%list
                |}))
      \/ (exists fail,
             failure_events fail
             /\ save_customer float_repr refuses c st
                = (Ok false,
                   {| db_conn := db_conn st;
                      trace := (trace st ++ fail)%list |}))
  end.
Proof.
  unfold save_customer, try_except.
  destruct (audit_values_cases c st)
    as [(row & E & Hid & Hs) | (e & E & He)].
  - rewrite Hid.
    unfold execute_non_query, key, bind, emit, ret. rewrite E.
    cbn [db_conn working trace].
    destruct (refuses (working (db_conn st)) row) as [msg |].
    + right.
      exists [Execute row;
              Log ("保存客户失败: " ++ str_val float_repr (a_id row) ++ " - "
                     ++ msg)].
      split; [eexists; right; eexists; reflexivity |].
      unfold key, bind, emit, ret. cbn [db_conn trace str_exn].
      rewrite <- app_assoc. reflexivity.
    + left. exists row. split; [reflexivity |]. split; [exact Hs |].
      cbn [db_conn trace]. rewrite <- app_assoc. reflexivity.
  - unfold execute_non_query, bind, emit, ret. rewrite E.
    destruct (id c) as [v |] eqn:V.
    + right. eexists. split.
      2: { unfold key, bind, emit, ret. cbn [db_conn trace]. reflexivity. }
      eexists. left. reflexivity.
    + rewrite (He eq_refl). reflexivity.
Qed.

Lemma notify_customer_sync_runs transport c v st :
  id c = Some v ->
  exists tail,
    report_tail tail
    /\ notify_customer_sync transport c st
       = (Ok tt,
          {| db_conn := db_conn st;
             trace := (trace st
                         ++ [Http POST sync_status_url (Some (v, 1%Z))]
                         ++ tail)%list |}).
Proof.
  intros Hid. unfold notify_customer_sync, send_request, key, bind, emit, ret.
  rewrite Hid. cbn [db_conn trace].
  destruct (transport POST sync_status_url (Some (v, 1%Z))) as [msg | r].
  - eexists [_]. split; [right; eexists; reflexivity |].
    cbn [db_conn trace]. now rewrite <- app_assoc.
  - exists []. split; [now left | reflexivity].
Qed.

Lemma grown_cons row rows c :
  grown rows {| committed := (working c ++ [row])%list;
                working := (working c ++ [row])%list |}
  = grown (row :: rows) c.
Proof.
  destruct rows as [| r rest]; cbn; [reflexivity |].
  now rewrite <- app_assoc.
Qed.

Lemma save_all_runs float_repr refuses transport cs :
  Forall has_id cs ->
  forall k st,
    exists n rows evs,
      save_all float_repr refuses transport cs k st
      = (Ok (k + n)%nat,
         {| db_conn := grown rows (db_conn st);
            trace := (trace st ++ evs)%list |})
      /\ batch_events cs n rows evs.
Proof.
  induction 1 as [| c cs Hc _ IH]; intros k st.
  - exists 0%nat, [], []. split; [| constructor].
    cbn. unfold ret. rewrite Nat.add_0_r, app_nil_r.
    now destruct st.
  - cbn [save_all]. unfold bind at 1.
    pose proof (save_customer_cases float_repr refuses c st) as Hs.
    destruct (id c) as [v |] eqn:Hid; [| now elim Hc].
    destruct Hs as [(row & Hv & Hst & ->) | (fail & Hfail & ->)].
    + unfold bind at 1.
      match goal with
      | |- context [notify_customer_sync transport c ?s1] =>
          destruct (notify_customer_sync_runs transport c v s1 Hid)
            as (tail & Ht & ->)
      end.
      cbn [db_conn trace].
      match goal with
      | |- context [save_all _ _ _ cs (S k) ?s2] =>
          destruct (IH (S k) s2) as (n & rows & evs & -> & Hb)
      end.
      cbn [db_conn trace].
      exists (S n), (row :: rows),
        ([Execute row; CursorCommit;
          Http POST sync_status_url (Some (a_id row, 1%Z))]
           ++ tail ++ evs)%list.
      split.
      * rewrite grown_cons, Nat.add_succ_r, Hv. cbn [plus].
        repeat rewrite <- app_assoc. reflexivity.
      * constructor; try assumption. now rewrite Hv.
    + destruct (IH k {| db_conn := db_conn st;
                        trace := (trace st ++ fail)%list |})
        as (n & rows & evs & -> & Hb).
      cbn [db_conn trace].
      exists n, rows, (fail ++ evs)%list. split.
      * now rewrite <- app_assoc.
      * now constructor.
Qed.





Lemma well_reported_log msg evs :
  well_reported evs -> well_reported (Log msg :: evs).
Proof. intros H. exact H. Qed.

Lemma batch_events_well_reported cs n rows evs :
  batch_events cs n rows evs -> well_reported evs.
Proof.
  induction 1 as [| c cs n rows evs row tail Hid Hs Ht _ IH
                  | c cs n rows evs fail Hf _ IH].
  - exact I.
  - cbn. repeat split. destruct Ht as [-> | [msg ->]]; exact IH.
  - destruct Hf as [msg [-> | [row ->]]]; exact IH.
Qed.

Lemma sync_customers_pull float_repr refuses transport st :
  sync_customers float_repr refuses transport st
  = save_all float_repr refuses transport (pulled transport) 0
      {| db_conn := db_conn st;
         trace := (trace st ++ pull_events transport)%list |}.
Proof.
  unfold sync_customers, send_request, pulled, pull_events, bind, emit, ret.
  cbn [db_conn trace].
  destruct (transport GET audit_customers_url None) as [msg | r].
  - cbn [db_conn trace r_status r_data]. rewrite <- app_assoc. reflexivity.
  - reflexivity.
Qed.

Lemma save_all_app float_repr refuses transport a b k st :
  save_all float_repr refuses transport (a ++ b) k st
  = bind (save_all float_repr refuses transport a k)
      (fun n => save_all float_repr refuses transport b n) st.
Proof.
  revert k st. induction a as [| c a IH]; intros k st.
  - reflexivity.
  - cbn [app save_all]. unfold bind in *.
    destruct (save_customer float_repr refuses c st) as [[[|] | e] s1];
      [| apply IH | reflexivity].
    destruct (notify_customer_sync transport c s1) as [[u | e] s2];
      [apply IH | reflexivity].
Qed.

End CustomerFacts.

Section CustomerTheorems.
Import Customers CustomerRuns CustomerFacts.

Variable float_repr : Q -> string.
Variable refuses : list audit_row -> audit_row -> option string.
Variable transport : http_method -> string -> body -> http_outcome.


(** X13: in a run of [sync_customers] on customers that carry an id,
    every status report comes directly after the INSERT of a row and the
    commit of that INSERT, and reports the id of that row as handled: a
    customer is reported only once its row is durable. *)
Theorem report_follows_commit st :
  Forall has_id (pulled transport) ->
  exists evs,
    trace (snd (sync_customers float_repr refuses transport st))
    = (trace st ++ evs)%list
    /\ well_reported evs.
Proof.
  intros Hids. rewrite sync_customers_pull.
  destruct (save_all_runs float_repr refuses transport _ Hids 0%nat
              {| db_conn := db_conn st;
                 trace := (trace st ++ pull_events transport)%list |})
    as (n & rows & evs & -> & Hb).
  apply batch_events_well_reported in Hb.
  exists (pull_events transport ++ evs)%list. cbn [snd trace].
  split; [now rewrite app_assoc |].
  unfold pull_events.
  destruct (transport GET audit_customers_url None); exact Hb.
Qed.

(** X14: a customer without the key [id] makes [save_customer] raise
    [KeyError] from its own handler, before any statement or log; the
    error leaves the loop of [sync_customers] at that customer: those
    before it are processed as usual and stay saved, those after it are
    never looked at. *)
Theorem missing_id_aborts_the_batch before c after k st :
  id c = None ->
  Forall has_id before ->
  save_customer float_repr refuses c st = (Raise (KeyError "id"), st)
  /\ exists n st',
       save_all float_repr refuses transport before k st = (Ok n, st')
       /\ save_all float_repr refuses transport (before ++ c :: after) k st
          = (Raise (KeyError "id"), st').
Proof.
  intros Hid Hb.
  assert (Hc : forall s,
             save_customer float_repr refuses c s
             = (Raise (KeyError "id"), s)).
  { intros s. pose proof (save_customer_cases float_repr refuses c s) as H.
    now rewrite Hid in H. }
  split; [apply Hc |].
  destruct (save_all_runs float_repr refuses transport _ Hb k st)
    as (n & rows & evs & E & _).
  eexists _, _. split; [exact E |].
  rewrite save_all_app. unfold bind at 1. rewrite E.
  cbn [save_all]. unfold bind. now rewrite Hc.
Qed.

End CustomerTheorems.


Lemma report_follows_commit_witness :
  exists evs,
    Customers.trace
      (snd (Customers.sync_customers CustomerRuns.repr CustomerRuns.accepts
              (CustomerRuns.net
                 [CustomerRuns.c1; CustomerRuns.c2; CustomerRuns.c3])
              CustomerRuns.st0))
    = (Customers.trace CustomerRuns.st0 ++ evs)%list
    /\ CustomerRuns.well_reported evs.
Proof.
  assert (H : Forall CustomerRuns.has_id
                (CustomerRuns.pulled
                   (CustomerRuns.net
                      [CustomerRuns.c1; CustomerRuns.c2; CustomerRuns.c3]))).
  { repeat constructor; discriminate. }
  exact (report_follows_commit CustomerRuns.repr CustomerRuns.accepts
           (CustomerRuns.net
              [CustomerRuns.c1; CustomerRuns.c2; CustomerRuns.c3])
           CustomerRuns.st0 H).
Defined.

Lemma missing_id_aborts_the_batch_witness :
  Customers.save_customer CustomerRuns.repr CustomerRuns.accepts
    CustomerRuns.c_no_id CustomerRuns.st0
  = (Customers.Raise (Customers.KeyError "id"), CustomerRuns.st0)
  /\ exists n st',
       Customers.save_all CustomerRuns.repr CustomerRuns.accepts
         (CustomerRuns.net []) [CustomerRuns.c1] 0 CustomerRuns.st0
       = (Customers.Ok n, st')
       /\ Customers.save_all CustomerRuns.repr CustomerRuns.accepts
            (CustomerRuns.net [])
            ([CustomerRuns.c1] ++ CustomerRuns.c_no_id :: [CustomerRuns.c3])
            0 CustomerRuns.st0
          = (Customers.Raise (Customers.KeyError "id"), st').
Proof.
  assert (H : Forall CustomerRuns.has_id [CustomerRuns.c1]).
  { repeat constructor; discriminate. }
  exact (missing_id_aborts_the_batch CustomerRuns.repr CustomerRuns.accepts
           (CustomerRuns.net []) [CustomerRuns.c1] CustomerRuns.c_no_id
           [CustomerRuns.c3] 0 CustomerRuns.st0 eq_refl H).
Defined.

(* ================================================================== *)
(** * The connector *)
(* ================================================================== *)

Section ConnectorTheorems.
Import Connector ConnectorRuns.

Variable reachable : bool.
Variable accepts : database -> string -> row -> bool.

Lemma execute_inv c k t r w w' :
  execute accepts c k t r w = Some w' ->
  c = Open /\ k = Open /\ w' = (w ++ [(t, r)])%list.
Proof.
  unfold execute. destruct c, k; try discriminate.
  destruct (accepts w t r); [| discriminate].
  intros H. inversion H. auto.
Qed.

Lemma execute_rows_inv c k t cols data w w' :
  execute_rows accepts c k t cols data w = Some w' ->
  w' = (w ++ map (fun values => (t, combine cols values)) data)%list.
Proof.
  revert w. induction data as [| values rest IH]; intros w; cbn.
  - intros H. inversion H. now rewrite app_nil_r.
  - destruct (List.length values =? List.length cols)%nat; [| discriminate].
    destruct (execute accepts c k t (combine cols values) w) as [w1 |] eqn:E;
      [| discriminate].
    apply execute_inv in E as (_ & _ & ->). intros H.
    rewrite (IH _ H), <- app_assoc. reflexivity.
Qed.

Lemma executemany_inv c k t cols data w w' :
  executemany accepts c k t cols data w = Some w' ->
  w' = (w ++ map (fun values => (t, combine cols values)) data)%list.
Proof.
  unfold executemany. destruct data as [| v rest]; [discriminate |].
  apply execute_rows_inv.
Qed.

Lemma failed_settles m c s r s' :
  failed m c s = (r, s') ->
  r <> Returns true /\ committed s' = committed s
  /\ (settled s -> settled s').
Proof.
  unfold failed, settled. destruct c; intros H; inversion H; subst; cbn;
    repeat split; try discriminate; auto.
Qed.

Lemma insert_data_settles t d s r s' :
  settled s ->
  insert_data accepts t d s = (r, s') ->
  settled s'
  /\ committed s'
     = (committed s
          ++ match r with Returns true => [(t, d)] | _ => [] end)%list.
Proof.
  unfold settled, insert_data. intros Hs E.
  destruct (connection s) as [c |], (cursor s) as [k |];
    try (inversion E; subst; cbn; rewrite app_nil_r; now auto).
  destruct (execute accepts c k t d (working s)) as [w |] eqn:Ex.
  - apply execute_inv in Ex as (_ & _ & ->).
    inversion E; subst; cbn. rewrite Hs. auto.
  - apply failed_settles in E as (Hr & Hc & Hk).
    split; [now apply Hk |]. rewrite Hc.
    destruct r as [[|] |]; [now elim Hr | |]; now rewrite app_nil_r.
Qed.

Lemma bulk_insert_settles t cols data s r s' :
  settled s ->
  bulk_insert accepts t cols data s = (r, s') ->
  settled s'
  /\ committed s'
     = (committed s
          ++ match r with
             | Returns true =>
                 map (fun values => (t, combine cols values)) data
             | _ => []
             end)%list.
Proof.
  unfold settled, bulk_insert. intros Hs E.
  destruct (connection s) as [c |], (cursor s) as [k |];
    try (inversion E; subst; cbn; rewrite app_nil_r; now auto).
  destruct (executemany accepts c k t cols data (working s)) as [w |] eqn:Ex.
  - apply executemany_inv in Ex as ->.
    inversion E; subst; cbn. rewrite Hs. auto.
  - apply failed_settles in E as (Hr & Hc & Hk).
    split; [now apply Hk |]. rewrite Hc.
    destruct r as [[|] |]; [now elim Hr | |]; now rewrite app_nil_r.
Qed.

(** Every call leaves nothing pending, and changes what is durable only by
    adding its rows, all of them, when it returns true. *)
Lemma step_settles c s r s' :
  settled s ->
  step reachable accepts c s = (r, s') ->
  settled s'
  /\ committed s'
     = (committed s
          ++ match r with Returns true => rows_of c | _ => [] end)%list.
Proof.
  intros Hs E. destruct c as [| | t d | t cols d]; cbn in E.
  - unfold settled in *. unfold connect in E.
    destruct reachable; inversion E; subst; cbn; rewrite app_nil_r; auto.
  - unfold settled in *. unfold disconnect, close in E.
    destruct (cursor s) as [[|] |], (connection s) as [[|] |];
      inversion E; subst; cbn; rewrite app_nil_r; auto.
  - now apply insert_data_settles.
  - now apply bulk_insert_settles.
Qed.

(** X15: [bulk_insert] is all or nothing.  From an instance with nothing
    pending it either returns true with every row of the batch durable,
    in order, after what was there, or it makes nothing durable at all:
    the rows executed before the one that failed are rolled back.  In
    both cases nothing is left pending.  [insert_data] is the same for
    its one row. *)
Theorem bulk_insert_all_or_nothing t cols data d s :
  settled s ->
  let bulk := bulk_insert accepts t cols data s in
  let one := insert_data accepts t d s in
  settled (snd bulk)
  /\ ((fst bulk = Returns true
       /\ committed (snd bulk)
          = (committed s
               ++ map (fun values => (t, combine cols values)) data)%list)
      \/ (fst bulk <> Returns true /\ committed (snd bulk) = committed s))
  /\ settled (snd one)
  /\ ((fst one = Returns true
       /\ committed (snd one) = (committed s ++ [(t, d)])%list)
      \/ (fst one <> Returns true /\ committed (snd one) = committed s)).
Proof.
  intros Hs. cbv zeta.
  pose proof (bulk_insert_settles t cols data s) as B.
  pose proof (insert_data_settles t d s) as O.
  destruct (bulk_insert accepts t cols data s) as [rb sb].
  destruct (insert_data accepts t d s) as [ro so].
  destruct (B _ _ Hs eq_refl) as [B1 B2].
  destruct (O _ _ Hs eq_refl) as [O1 O2]. cbn [fst snd].
  split; [exact B1 |]. split.
  { destruct rb as [[|] |];
      [left; now split | right | right]; rewrite app_nil_r in B2;
      split; [discriminate | exact B2 | discriminate | exact B2]. }
  split; [exact O1 |].
  destruct ro as [[|] |];
    [left; now split | right | right]; rewrite app_nil_r in O2;
    split; [discriminate | exact O2 | discriminate | exact O2].
Qed.

(** X16: over any sequence of calls on a fresh instance ([connect],
    [disconnect], [insert_data], [bulk_insert], in any order, errors
    included), nothing is ever left pending, every call has an outcome,
    and what is durable at the end is what was there followed by the
    rows of exactly the calls that returned true, in call order. *)
Theorem calls_add_their_rows cs d :
  let r := run reachable accepts cs (init d) in
  settled (snd r)
  /\ committed (snd r) = (d ++ inserted cs (fst r))%list
  /\ List.length (fst r) = List.length cs.
Proof.
  cbv zeta.
  assert (H : forall s,
             settled s ->
             settled (snd (run reachable accepts cs s))
             /\ committed (snd (run reachable accepts cs s))
                = (committed s
                     ++ inserted cs (fst (run reachable accepts cs s)))%list
             /\ List.length (fst (run reachable accepts cs s))
                = List.length cs).
  { induction cs as [| c rest IH]; intros s Hs; cbn.
    - rewrite app_nil_r. auto.
    - destruct (step reachable accepts c s) as [r s1] eqn:E.
      destruct (step_settles _ _ _ _ Hs E) as [H1 H2].
      specialize (IH s1 H1).
      destruct (run reachable accepts rest s1) as [rs s2]. cbn in *.
      destruct IH as (K1 & K2 & K3). split; [exact K1 |].
      split; [| now rewrite K3].
      rewrite K2, H2, <- app_assoc.
      destruct r as [[|] |]; reflexivity. }
  apply (H (init d)). reflexivity.
Qed.

Lemma not_connected_insert c s :
  connection s = None -> is_insert c = true ->
  step reachable accepts c s = (Returns false, print NotConnected s).
Proof.
  intros Hc Hi. destruct c; try discriminate Hi; cbn;
    unfold insert_data, bulk_insert; now rewrite Hc.
Qed.

Lemma run_not_connected cs s :
  connection s = None -> forallb is_insert cs = true ->
  run reachable accepts cs s
  = (repeat (Returns false) (List.length cs),
     {| connection := connection s; cursor := cursor s;
        committed := committed s; working := working s;
        printed := (printed s
                      ++ repeat NotConnected (List.length cs))%list |}).
Proof.
  revert s. induction cs as [| c rest IH]; intros s Hc Hi.
  - cbn. rewrite app_nil_r. now destruct s.
  - cbn in Hi. apply andb_prop in Hi as [Hi1 Hi2].
    cbn [run]. rewrite (not_connected_insert c s Hc Hi1).
    rewrite (IH (print NotConnected s) Hc Hi2). cbn.
    now rewrite <- app_assoc.
Qed.

(** X17: the [with] statement does not look at the result of [connect].
    When the server cannot be reached, the body still runs: every insert
    in it returns false after printing that the database is not
    connected, nothing reaches the server, and leaving the block closes
    nothing and raises nothing. *)
Theorem unreachable_server_under_with cs d :
  reachable = false ->
  forallb is_insert cs = true ->
  let body := run reachable accepts cs (enter reachable (init d)) in
  fst body = repeat (Returns false) (List.length cs)
  /\ committed (snd body) = d /\ working (snd body) = d
  /\ printed (snd body)
     = ConnectFailed :: repeat NotConnected (List.length cs)
  /\ exit (snd body) = (Returns tt, snd body).
Proof.
  intros Hr Hi. cbv zeta.
  assert (E : enter reachable (init d) = print ConnectFailed (init d))
    by (unfold enter, connect; now rewrite Hr).
  rewrite E, run_not_connected by (try reflexivity; exact Hi).
  cbn. repeat split.
Qed.

(** X18: [disconnect] closes the handles but leaves them on the
    instance, so the guard of the insert methods does not see a
    disconnected instance as such: after [connect] and [disconnect], an
    insert does not return false but lets the driver's error through,
    raised by the rollback in the handler; a second [disconnect] raises
    too.  Nothing reaches the server. *)
Theorem closed_handles_pass_the_guard t data d :
  reachable = true ->
  let s1 := snd (connect reachable (init d)) in
  let s2 := snd (disconnect s1) in
  fst (disconnect s1) = Returns tt
  /\ connection s2 = Some Closed /\ cursor s2 = Some Closed
  /\ fst (insert_data accepts t data s2) = Raises
  /\ committed (snd (insert_data accepts t data s2)) = d
  /\ printed (snd (insert_data accepts t data s2)) = [InsertFailed]
  /\ fst (disconnect s2) = Raises.
Proof.
  intros Hr. cbv zeta.
  assert (E : connect reachable (init d)
              = (true,
                 {| connection := Some Open; cursor := Some Open;
                    committed := d; working := d; printed := [] |}))
    by (unfold connect; now rewrite Hr).
  rewrite E. cbn. repeat split.
Qed.

End ConnectorTheorems.

Example session_runs :
  let r := Connector.run true ConnectorRuns.no_three ConnectorRuns.session
             (Connector.init []) in
  fst r = [Connector.Returns true; Connector.Returns true;
           Connector.Returns false; Connector.Returns true;
           Connector.Returns true]
  /\ map (fun tr => map snd (snd tr)) (Connector.committed (snd r))
     = [ConnectorRuns.user 1 "a"; ConnectorRuns.user 5 "e";
        ConnectorRuns.user 6 "f"].
Proof. cbv zeta. split; vm_compute; reflexivity. Qed.

Lemma bulk_insert_all_or_nothing_witness :
  fst (Connector.bulk_insert ConnectorRuns.no_three ConnectorRuns.users
         ["id"; "name"]
         [ConnectorRuns.user 2 "b"; ConnectorRuns.user 3 "c"]
         (snd (Connector.connect true (Connector.init []))))
  = Connector.Returns false
  /\ Connector.committed
       (snd (Connector.bulk_insert ConnectorRuns.no_three ConnectorRuns.users
               ["id"; "name"]
               [ConnectorRuns.user 2 "b"; ConnectorRuns.user 3 "c"]
               (snd (Connector.connect true (Connector.init [])))))
     = [].
Proof.
  assert (Hs : ConnectorRuns.settled
                 (snd (Connector.connect true (Connector.init []))))
    by reflexivity.
  destruct (bulk_insert_all_or_nothing ConnectorRuns.no_three
              ConnectorRuns.users ["id"; "name"]
              [ConnectorRuns.user 2 "b"; ConnectorRuns.user 3 "c"]
              (ConnectorRuns.user_row 1 "a") _ Hs)
    as (_ & [[Ht _] | [_ Hc]] & _).
  - vm_compute in Ht. discriminate Ht.
  - split; [vm_compute; reflexivity | exact Hc].
Defined.

Lemma unreachable_server_under_with_witness :
  fst (Connector.run false ConnectorRuns.no_three
         [Connector.InsertData ConnectorRuns.users
            (ConnectorRuns.user_row 1 "a")]
         (Connector.enter false (Connector.init [])))
  = repeat (Connector.Returns false) 1.
Proof.
  destruct (unreachable_server_under_with false ConnectorRuns.no_three
              [Connector.InsertData ConnectorRuns.users
                 (ConnectorRuns.user_row 1 "a")] [] eq_refl eq_refl)
    as [H _].
  exact H.
Defined.

Lemma closed_handles_pass_the_guard_witness :
  fst (Connector.insert_data ConnectorRuns.no_three ConnectorRuns.users
         (ConnectorRuns.user_row 1 "a")
         (snd (Connector.disconnect
                 (snd (Connector.connect true (Connector.init []))))))
  = Connector.Raises.
Proof.
  destruct (closed_handles_pass_the_guard true ConnectorRuns.no_three
              ConnectorRuns.users (ConnectorRuns.user_row 1 "a") [] eq_refl)
    as (_ & _ & _ & H & _).
  exact H.
Defined.

(** ** The two business lines *)

Lemma db_of_set_db_other D D' d s :
  other_side D D' -> db_of D' (set_db D d s) = db_of D' s.
Proof.
  unfold other_side, db_of, set_db. intros H.
  destruct (String.eqb D herbal_prefix); cbn in H; rewrite H; reflexivity.
Qed.

Lemma keeps_apart_still D' {A : Type} (m : M A) :
  still m -> keeps_apart D' m.
Proof.
  intros Hm v st r st' [Hc Hw] E. unfold apart.
  rewrite (Hm _ _ _ E). now split.
Qed.

Lemma keeps_apart_bind D' {A B : Type} (m : M A) (f : A -> M B) :
  keeps_apart D' m -> (forall a, keeps_apart D' (f a)) ->
  keeps_apart D' (bind m f).
Proof.
  intros Hm Hf v st r st' Ha E. unfold bind in E.
  destruct (m st) as [[a | e] s1] eqn:Em.
  - eapply Hf; [| exact E]. eapply Hm; eassumption.
  - inversion E; subst. eapply Hm; eassumption.
Qed.

Lemma keeps_apart_cursor_commit D' : keeps_apart D' cursor_commit.
Proof. intros v st r st' [Hc Hw] E. inversion E; subst. now split. Qed.

Lemma keeps_apart_conn_commit D' : keeps_apart D' conn_commit.
Proof. intros v st r st' [Hc Hw] E. inversion E; subst. now split. Qed.

Lemma keeps_apart_conn_rollback D' : keeps_apart D' conn_rollback.
Proof. intros v st r st' [Hc Hw] E. inversion E; subst. now split. Qed.

Lemma keeps_apart_cursor_execute D' fault {R : Type} s
    (run : server -> option (server * R)) :
  keeps_run D' run -> keeps_apart D' (cursor_execute fault s run).
Proof.
  intros Hrun v st r st' [Hc Hw] E.
  unfold cursor_execute, bind, emit in E. cbn in E.
  destruct (fault s); [injection E as _ <-; now split |].
  change (db_conn {| db_conn := db_conn st; search_index := search_index st;
                     trace := trace st ++ [Execute s] |})
    with (db_conn st) in E.
  destruct (run (working (db_conn st))) as [[srv rows] |] eqn:Er;
    injection E as _ <-; [| now split].
  split; [exact Hc |]. cbn. now rewrite (Hrun _ _ _ Er).
Qed.

Lemma keeps_apart_execute_non_query D' fault s run :
  keeps_run D' run -> keeps_apart D' (execute_non_query fault s run).
Proof.
  intros Hrun. unfold execute_non_query.
  apply keeps_apart_bind; [now apply keeps_apart_cursor_execute |].
  intros n. apply keeps_apart_bind; [apply keeps_apart_cursor_commit |].
  intros _. apply keeps_apart_still, still_ret.
Qed.

Lemma keeps_run_writing D D' f :
  other_side D D' -> keeps_run D' (writing D f).
Proof.
  intros Ho s s' n E. unfold writing in E.
  destruct (f (db_of D s)) as [d k]. inversion E; subst.
  now apply db_of_set_db_other.
Qed.

Lemma keeps_apart_writing D D' fault s f :
  other_side D D' ->
  keeps_apart D' (execute_non_query fault s (writing D f)).
Proof.
  intros Ho. now apply keeps_apart_execute_non_query, keeps_run_writing.
Qed.

Section Sides.
Variable float_repr : Q -> string.
Variable fault : stmt -> bool.
Variable transport : http_method -> string -> payload -> http_outcome.
Variable config : config_t.
Variables D D' : string.
Hypothesis sides : other_side D D'.

Lemma keeps_apart_insert_sheet_roots o c :
  keeps_apart D' (insert_sheet_roots fault o c D).
Proof.
  unfold insert_sheet_roots.
  apply keeps_apart_bind; [| intros a; apply keeps_apart_still, still_ret].
  apply keeps_apart_cursor_execute. intros s s' rows E.
  inversion E; subst. now apply db_of_set_db_other.
Qed.

Lemma keeps_apart_insert_status_flow o root :
  keeps_apart D' (insert_status_flow fault config o root D).
Proof.
  unfold insert_status_flow.
  apply keeps_apart_bind; [| intros a; apply keeps_apart_still, still_ret].
  apply keeps_apart_cursor_execute. intros s s' rows E.
  inversion E; subst. now apply db_of_set_db_other.
Qed.

Lemma keeps_apart_update_sheet_root_status root flow :
  keeps_apart D' (update_sheet_root_status fault root flow D).
Proof.
  unfold update_sheet_root_status.
  apply keeps_apart_bind; [now apply keeps_apart_writing |].
  intros _. apply keeps_apart_still, still_ret.
Qed.

Lemma keeps_apart_insert_sheet_order root o c :
  keeps_apart D' (insert_sheet_order float_repr fault config root o c D).
Proof.
  unfold insert_sheet_order.
  apply keeps_apart_bind; [now apply keeps_apart_writing |].
  intros _. apply keeps_apart_still, still_ret.
Qed.

Lemma keeps_apart_update_stock_concurrency item batch :
  keeps_apart D' (update_stock_concurrency fault item batch D).
Proof.
  unfold update_stock_concurrency.
  apply keeps_apart_bind; [now apply keeps_apart_writing |].
  intros _. apply keeps_apart_still, still_ret.
Qed.

Lemma keeps_apart_insert_order_details_from idx root items :
  keeps_apart D'
    (insert_order_details_from float_repr fault idx root items D).
Proof.
  revert idx. induction items as [| item rest IH]; intros idx; cbn.
  - apply keeps_apart_still, still_ret.
  - apply keeps_apart_bind;
      [apply keeps_apart_still, still_get_item_batch |].
    intros [batch |].
    + apply keeps_apart_bind;
        [apply keeps_apart_still, still_get_item_tax_info |]. intros tax.
      apply keeps_apart_bind;
        [apply keeps_apart_still, still_get_item_profit |]. intros profit.
      apply keeps_apart_bind; [apply keeps_apart_still, still_divisor |].
      intros pack.
      apply keeps_apart_bind; [now apply keeps_apart_writing |]. intros _.
      apply keeps_apart_bind;
        [apply keeps_apart_update_stock_concurrency |]. intros _.
      apply IH.
    + apply keeps_apart_bind; [apply keeps_apart_still, still_emit |].
      intros _. apply IH.
Qed.

Lemma keeps_apart_save_mid_order o :
  keeps_apart D' (save_mid_order fault o D).
Proof.
  unfold save_mid_order, customer_id_of.
  apply keeps_apart_bind.
  - apply keeps_apart_still.
    destruct (erp_customer_id o); [apply still_ret | apply still_raise].
  - intros cid. apply keeps_apart_bind; [now apply keeps_apart_writing |].
    intros _. apply keeps_apart_still, still_ret.
Qed.

End Sides.

(** X19: a run of [sync_order] never touches the database of the other
    business line: for an order routed to the herbal database the tables
    of the standard database are the same after the run, durably and
    inside the transaction, and the other way round; this holds whatever
    the run does, fails on or rolls back, from a connection on which the
    other side has nothing pending. *)
Theorem sync_order_keeps_to_its_side float_repr fault transport config o D'
    st :
  other_side (get_database_prefix o) D' ->
  db_of D' (committed (db_conn st)) = db_of D' (working (db_conn st)) ->
  let st' := snd (sync_order float_repr fault transport config o st) in
  db_of D' (committed (db_conn st')) = db_of D' (working (db_conn st))
  /\ db_of D' (working (db_conn st')) = db_of D' (working (db_conn st)).
Proof.
  intros Ho Hc. cbv zeta.
  set (D := get_database_prefix o) in *.
  assert (Hb : keeps_apart D'
                 (sync_order_body float_repr fault transport config o)).
  { unfold sync_order_body. fold D.
    apply keeps_apart_bind;
      [apply keeps_apart_still, still_set_search_index |]. intros _.
    apply keeps_apart_bind; [apply keeps_apart_still, still_emit |].
    intros _.
    destruct (negb _); [apply keeps_apart_still, still_raise |].
    apply keeps_apart_bind;
      [apply keeps_apart_still, still_get_customer_info |].
    intros [c |].
    2: { apply keeps_apart_still, still_bind; [apply still_emit |].
         intros _. apply still_ret. }
    apply keeps_apart_bind;
      [apply keeps_apart_still, still_order_exists |].
    intros [|].
    { apply keeps_apart_still, still_bind; [apply still_emit |].
      intros _. apply still_ret. }
    apply keeps_apart_bind;
      [now apply keeps_apart_insert_sheet_roots |]. intros root.
    apply keeps_apart_bind;
      [now apply keeps_apart_insert_status_flow |]. intros flow.
    apply keeps_apart_bind;
      [now apply keeps_apart_update_sheet_root_status |]. intros _.
    apply keeps_apart_bind;
      [now apply keeps_apart_insert_sheet_order |]. intros _.
    apply keeps_apart_bind;
      [now apply keeps_apart_insert_order_details_from |]. intros _.
    apply keeps_apart_bind; [now apply keeps_apart_save_mid_order |].
    intros _.
    apply keeps_apart_bind;
      [apply keeps_apart_still, still_order_details_exist |].
    intros [|]; cbn [negb]; [| apply keeps_apart_still, still_raise].
    apply keeps_apart_bind;
      [apply keeps_apart_still, still_notify_order_sync_success |].
    intros _.
    apply keeps_apart_bind; [apply keeps_apart_conn_commit |]. intros _.
    apply keeps_apart_still, still_bind; [apply still_emit |].
    intros _. apply still_ret. }
  assert (Ha : apart D' (db_of D' (working (db_conn st))) st)
    by (split; [exact Hc | reflexivity]).
  unfold sync_order, try_except.
  destruct (sync_order_body float_repr fault transport config o st)
    as [[b | e] s1] eqn:Eb; pose proof (Hb _ _ _ _ Ha Eb) as H1.
  - exact H1.
  - assert (Hh : keeps_apart D'
                   (conn_rollback ;;
                    log Error ("订单处理失败: " ++ sub_order_sn o ++ " - "
                                 ++ str_exn e) ;;
                    ret false)).
    { apply keeps_apart_bind; [apply keeps_apart_conn_rollback |].
      intros _. apply keeps_apart_still, still_bind; [apply still_emit |].
      intros _. apply still_ret. }
    eapply Hh; [exact H1 |]. apply surjective_pairing.
Qed.

Lemma sync_order_keeps_to_its_side_witness :
  db_of herbal_prefix
    (committed
       (db_conn
          (snd (sync_order Scenario.repr Scenario.no_fault Scenario.net
                  Scenario.cfg Scenario.o1 Scenario.st0))))
  = db_of herbal_prefix (working (db_conn Scenario.st0))
  /\ db_of herbal_prefix
       (working
          (db_conn
             (snd (sync_order Scenario.repr Scenario.no_fault Scenario.net
                     Scenario.cfg Scenario.o1 Scenario.st0))))
     = db_of herbal_prefix (working (db_conn Scenario.st0)).
Proof.
  assert (Ho : other_side (get_database_prefix Scenario.o1) herbal_prefix)
    by (vm_compute; reflexivity).
  assert (Hc : db_of herbal_prefix (committed (db_conn Scenario.st0))
               = db_of herbal_prefix (working (db_conn Scenario.st0)))
    by reflexivity.
  exact (sync_order_keeps_to_its_side Scenario.repr Scenario.no_fault
           Scenario.net Scenario.cfg Scenario.o1 herbal_prefix Scenario.st0
           Ho Hc).
Defined.

(** ** A refusal before the first commit *)











(** ** The answer to the status report *)

Lemma agree_refl {A : Type} (x : result A * state) : agree x x.
Proof. repeat split. Qed.

Lemma agree_bind_same {A B : Type} (m : M A) (f g : A -> M B) st :
  (forall a s, agree (f a s) (g a s)) -> agree (bind m f st) (bind m g st).
Proof.
  intros H. unfold bind. destruct (m st) as [[a | e] s];
    [apply H | apply agree_refl].
Qed.

Lemma agree_tail transport1 transport2 o msg s :
  agree
    ((notify_order_sync_success transport1 o ;;
      conn_commit ;; log Info msg ;; ret true) s)
    ((notify_order_sync_success transport2 o ;;
      conn_commit ;; log Info msg ;; ret true) s).
Proof.
  unfold notify_order_sync_success, customer_id_of, send_request, bind.
  destruct (erp_customer_id o) as [cid |]; [| apply agree_refl].
  unfold ret, log, emit, conn_commit, set_conn. cbn [db_conn trace fst snd].
  destruct (transport1 POST sync_status_url (SyncStatus (id o) cid 1)),
           (transport2 POST sync_status_url (SyncStatus (id o) cid 1));
    repeat split.
Qed.

(** X21: what the upstream service answers to the status report, or
    whether it answers at all, has no influence on the order: run from
    the same state against two different upstreams, [sync_order] returns
    the same result and leaves the same connection, committed in both
    runs or in neither.  A report that fails is logged and ignored. *)
Theorem status_report_outcome_is_ignored float_repr fault transport1
    transport2 config o st :
  agree (sync_order float_repr fault transport1 config o st)
        (sync_order float_repr fault transport2 config o st).
Proof.
  assert (Hb : agree (sync_order_body float_repr fault transport1 config o st)
                     (sync_order_body float_repr fault transport2 config o
                        st)).
  { unfold sync_order_body.
    apply agree_bind_same. intros _ s1.
    apply agree_bind_same. intros _ s2.
    destruct (negb _); [apply agree_refl |].
    apply agree_bind_same. intros [c |] s3; [| apply agree_refl].
    apply agree_bind_same. intros [|] s4; [apply agree_refl |].
    apply agree_bind_same. intros root s5.
    apply agree_bind_same. intros flow s6.
    apply agree_bind_same. intros _ s7.
    apply agree_bind_same. intros _ s8.
    apply agree_bind_same. intros _ s9.
    apply agree_bind_same. intros _ s10.
    apply agree_bind_same. intros [|] s11; cbn [negb];
      [| apply agree_refl].
    apply agree_tail. }
  unfold sync_order, try_except.
  destruct (sync_order_body float_repr fault transport1 config o st)
    as [[b1 | e1] s1],
    (sync_order_body float_repr fault transport2 config o st)
    as [[b2 | e2] s2];
    destruct Hb as (Hr & Hc & Hi); cbn [fst snd] in *;
    try discriminate Hr.
  - repeat split; assumption.
  - inversion Hr; subst. unfold agree, bind, conn_rollback, log, emit, ret,
      set_conn. cbn [fst snd db_conn search_index].
    repeat split; [now rewrite Hc | exact Hi].
Qed.
